(** * Smart Report Generator: the export pipeline (lib/export-utils.ts)

  A shallow embedding of [ReportExporter] and the properties of its
  batch orchestration, pagination loop, variable substitution,
  report combination, markdown rendering and validation; then of the
  Word document, the markup of the PDF export, the file names and the
  estimate of a batch, and of
  the selection and the progress list of the batch dialog
  (BatchExportDialog.tsx) that calls the exporter.

  Conventions of the embedding.
  - A JavaScript string is a [string]: a sequence of code units below
    256 (the Latin-1 range).
  - A number of a JSON text is an IEEE 754 double
    ([SpecFloat.spec_float]), read and printed as JavaScript does.
  - [number] fields that the code uses as counts and indices are [nat],
    the [order] of a custom section is a [Z], a bitmap height is a [Q].
  - An optional field ([period_start?]) is an [option].
  - A function that can throw returns a [completion]; a loop whose
    termination depends on its input takes fuel.
  - What the code reads from its environment (the clock, the locale,
    the DOM and the document libraries) is an explicit parameter. *)

From Stdlib Require Import List String Ascii Bool Arith ZArith QArith Lia.
From Stdlib Require Import Permutation Sorted DecimalString Qround.
From Stdlib Require Floats.SpecFloat DecimalPos DecimalFacts.
Import ListNotations.
Close Scope Q_scope.
Close Scope Z_scope.
Local Open Scope string_scope.
Local Open Scope list_scope.
Local Open Scope nat_scope.

(** Concatenation of strings ([+] and template literals in the source). *)
Infix "+++" := String.append (right associativity, at level 60).

Set Implicit Arguments.

(* ================================================================== *)
(** ** JavaScript primitives used by the exporter *)

Module JS.

(** A value that was thrown: an [Error] instance with its message, or
    any other value. *)
Inductive thrown : Type :=
| ErrorObj (message : string)
| OtherValue.

(** The completion of a call: normal with a value, or abrupt. *)
Inductive completion (A : Type) : Type :=
| Normal (a : A)
| Throw (e : thrown).
Arguments Normal {A} a.
Arguments Throw {A} e.

Definition bind {A B} (c : completion A) (k : A -> completion B) : completion B :=
  match c with
  | Normal a => k a
  | Throw e => Throw e
  end.

(** [String(n)] for a non-negative integer. *)
Definition string_of_nat (n : nat) : string :=
  NilEmpty.string_of_uint (Nat.to_uint n).

(** White space and line terminators of ECMAScript among the code
    units below 256: TAB, LF, VT, FF, CR, SP and NBSP. *)
Definition is_white_space (c : ascii) : bool :=
  let n := nat_of_ascii c in
  ((9 <=? n) && (n <=? 13)) || (n =? 32) || (n =? 160).

Fixpoint trimStart (s : string) : string :=
  match s with
  | EmptyString => EmptyString
  | String c s' => if is_white_space c then trimStart s' else s
  end.

(** [trimEnd]: a trailing run of white space is dropped. *)
Fixpoint trimEnd (s : string) : string :=
  match s with
  | EmptyString => EmptyString
  | String c s' =>
      match trimEnd s' with
      | EmptyString => if is_white_space c then EmptyString else String c EmptyString
      | t => String c t
      end
  end.

(** [String.prototype.trim]. *)
Definition trim (s : string) : string := trimEnd (trimStart s).

(** The one-character string holding a double quote. *)
Definition dquote : string := String (ascii_of_nat 34) EmptyString.

(** [Boolean(s)] for a string: the empty string is the only falsy one. *)
Definition truthy_string (s : string) : bool :=
  match s with
  | EmptyString => false
  | String _ _ => true
  end.

(** The line feed of a template literal. *)
Definition nl : string := String (ascii_of_nat 10) EmptyString.

(** [Boolean(x)] for an optional string: [undefined] is falsy. *)
Definition truthy_opt (o : option string) : bool :=
  match o with
  | Some s => truthy_string s
  | None => false
  end.

(** [a || b] for an optional string [a]. *)
Definition or_else (o : option string) (d : string) : string :=
  match o with
  | Some s => if truthy_string s then s else d
  | None => d
  end.

(** [Array.prototype.map] with the index as second argument. *)
Fixpoint mapi_from {A B} (i : nat) (f : A -> nat -> B) (l : list A) : list B :=
  match l with
  | [] => []
  | a :: l' => f a i :: mapi_from (S i) f l'
  end.

Definition mapi {A B} (f : A -> nat -> B) (l : list A) : list B :=
  mapi_from 0 f l.

(** [Array.prototype.slice(start, end)] for integers [0 <= start <= end]. *)
Definition slice {A} (l : list A) (start stop : nat) : list A :=
  firstn (stop - start) (skipn start l).

End JS.

Import JS.

(* ================================================================== *)
(** ** Data model *)

(** [interface ReportData]. *)
Record ReportData : Type := mkReport {
_id : string;
title : string;
report_type : string;
content : string;
summary : string;
highlights : string;
suggestions : string;
generated_at : string;
period_start : option string;
period_end : option string;
record_count : option nat
}.

(* ================================================================== *)
(** ** Validation: [ReportExporter.validateReportsForExport] *)

Module Validation.

Definition no_reports_msg : string := "No reports selected for export".

Definition too_many_msg : string :=
  "Too many reports selected. Maximum 50 reports allowed per batch".

Definition no_title_msg (index : nat) : string :=
  "Report " +++ string_of_nat (index + 1) +++ " has no title".

Definition no_content_msg (report : ReportData) : string :=
  "Report " +++ dquote +++ title report +++ dquote +++ " has no content".

(** The body of the [forEach] callback: the errors pushed for one
    report, in order. *)
Definition check_report (report : ReportData) (index : nat) : list string :=
  (if negb (truthy_string (trim (title report)))
   then [no_title_msg index] else [])
  ++
  (if negb (truthy_string (trim (content report)))
   then [no_content_msg report] else []).

Definition validateReportsForExport (reports : list ReportData) : list string :=
  let errors := [] in
  let errors :=
    if List.length reports =? 0 then errors ++ [no_reports_msg] else errors in
  let errors :=
    if 50 <? List.length reports then errors ++ [too_many_msg] else errors in
  errors ++ List.concat (mapi check_report reports).

(** A report whose title and content both survive [trim]. *)
Definition well_formed (report : ReportData) : Prop :=
  trim (title report) <> EmptyString /\ trim (content report) <> EmptyString.

Definition blank (s : string) : Prop := trim s = EmptyString.

End Validation.

(* ================================================================== *)
(** ** Templates: [interface ExportTemplate] (ExportTemplateManager.tsx) *)

Inductive Format : Type := pdf | word | markdown.

Inductive Alignment : Type := AlignLeft | AlignCenter | AlignRight.

Module Header.
Record t : Type := mk {
  enabled : bool;
  content : string;
  height : Q;
  backgroundColor : string;
  textColor : string;
  fontSize : Q;
  alignment : Alignment;
  showLogo : bool;
  logoUrl : option string;
  showDate : bool;
  showPageNumbers : bool
}.
End Header.

Module Footer.
Record t : Type := mk {
  enabled : bool;
  content : string;
  height : Q;
  backgroundColor : string;
  textColor : string;
  fontSize : Q;
  alignment : Alignment;
  showCompanyInfo : bool;
  companyName : option string;
  showPageNumbers : bool;
  showGeneratedBy : bool
}.
End Footer.

Module Styling.
Record margins_t : Type := mkMargins {
  top : Q; bottom : Q; left : Q; right : Q
}.
Record spacing_t : Type := mkSpacing {
  sectionGap : Q; paragraphGap : Q
}.
Record t : Type := mk {
  primaryColor : string;
  secondaryColor : string;
  fontFamily : string;
  fontSize : Q;
  lineHeight : Q;
  margins : margins_t;
  spacing : spacing_t
}.
End Styling.

Module CustomSection.
Record t : Type := mk {
  id : string;
  title : string;
  content : string;
  order : Z
}.
End CustomSection.

Module Sections.
Record t : Type := mk {
  showExecutiveSummary : bool;
  showHighlights : bool;
  showDetailedContent : bool;
  showRecommendations : bool;
  customSections : list CustomSection.t
}.
End Sections.

Module TemplateVariable.
Record t : Type := mk {
  name : string;
  defaultValue : string;
  description : string
}.
End TemplateVariable.

Record ExportTemplate : Type := mkTemplate {
  id : string;
  name : string;
  description : string;
  formats : list Format;
  header : Header.t;
  footer : Footer.t;
  styling : Styling.t;
  sections : Sections.t;
  variables : list TemplateVariable.t;
  createdAt : string;
  updatedAt : string;
  isDefault : bool
}.

(* ================================================================== *)
(** ** Batch orchestration: [ReportExporter.batchExport] *)

Module Batch.

(** [interface BatchExportOptions].  A callback is a function of its
    arguments to a completion: it returns, or it throws. *)
Record BatchExportOptions : Type := mkOptions {
  format : Format;
  template : option ExportTemplate;
  onProgress : option (nat -> nat -> string -> completion unit);
  onError : option (string -> thrown -> completion unit);
  batchSize : option nat;
  delayBetweenExports : option nat
}.

Record ErrorEntry : Type := mkEntry {
  reportId : string;
  error : string
}.

(** [interface BatchExportResult]. *)
Record BatchExportResult : Type := mkResult {
  successful : nat;
  failed : nat;
  errors : list ErrorEntry
}.

(** What a run does that its caller can observe besides the result:
    the calls of the two callbacks, the exports it starts, the timers
    it waits for.  [EvBatch] is a ghost event: it records the chunk
    that [reports.slice(i, i + batchSize)] returned. *)
Inductive event : Type :=
| EvBatch (batch : list ReportData)
| EvDelay (ms : nat)
| EvProgress (completed total : nat) (currentReport : string)
| EvExport (report : ReportData) (ok : bool)
| EvError (reportId : string) (e : thrown).

(** The shared [result] object together with the trace so far. *)
Record state : Type := mkState {
  result : BatchExportResult;
  trace : list event
}.

Definition emit (ev : event) (st : state) : state :=
  mkState (result st) (trace st ++ [ev]).

Definition incr_successful (st : state) : state :=
  let r := result st in
  mkState (mkResult (successful r + 1) (failed r) (errors r)) (trace st).

Definition record_failure (entry : ErrorEntry) (st : state) : state :=
  let r := result st in
  mkState (mkResult (successful r) (failed r + 1) (errors r ++ [entry])) (trace st).

(** The messages of the errors that the three exporters rethrow from
    their [catch] blocks. *)
Definition export_failed_msg (fmt : Format) : string :=
  match fmt with
  | pdf => "Failed to export PDF. Please try again."
  | word => "Failed to export Word document. Please try again."
  | markdown => "Failed to export Markdown. Please try again."
  end.

(** [error instanceof Error ? error.message : 'Unknown error']. *)
Definition errorMessage (e : thrown) : string :=
  match e with
  | ErrorObj m => m
  | OtherValue => "Unknown error"
  end.

Section BatchExport.

(** Whether the body of [exportToPDF], [exportToWord] or
    [exportToMarkdown] runs to its end for a report: it depends on the
    DOM, the canvas and the document libraries. *)
Variable renders : Format -> option ExportTemplate -> ReportData -> bool.

(** The order in which the tasks of one chunk, started together by
    [batch.map(async ...)], reach their ends: a rearrangement of the
    chunk chosen by the event loop.  A task is run as a whole at its
    place in that order; how the parts of different tasks interleave
    between their [await]s is not modelled. *)
Variable schedule : list (nat * ReportData) -> list (nat * ReportData).

(** The [switch (format)] of a task: each exporter catches whatever its
    body throws and throws a fresh [Error] with a fixed message. *)
Definition exportSingle (fmt : Format) (tpl : option ExportTemplate)
    (report : ReportData) : completion unit :=
  if renders fmt tpl report then Normal tt
  else Throw (ErrorObj (export_failed_msg fmt)).

Variable reports : list ReportData.
Variable options : BatchExportOptions.

(** [batchSize = 5] and [delayBetweenExports = 500] of the
    destructuring pattern. *)
Definition batchSize_or_default : nat :=
  match batchSize options with Some b => b | None => 5 end.

Definition delay_or_default : nat :=
  match delayBetweenExports options with Some d => d | None => 500 end.

(** [onProgress?.(completed, total, title)]. *)
Definition call_onProgress (completed : nat) (report : ReportData)
    (st : state) : state * completion unit :=
  match onProgress options with
  | None => (st, Normal tt)
  | Some f =>
      (emit (EvProgress completed (List.length reports) (title report)) st,
       f completed (List.length reports) (title report))
  end.

(** [onError?.(report._id, error instanceof Error ? error : new Error(errorMessage))]. *)
Definition call_onError (report : ReportData) (e : thrown)
    (st : state) : state * completion unit :=
  match onError options with
  | None => (st, Normal tt)
  | Some f =>
      let arg := ErrorObj (errorMessage e) in
      (emit (EvError (_id report) arg) st, f (_id report) arg)
  end.

(** The [try] block of a task: the state it leaves, and what it threw
    if anything. *)
Definition task_try (globalIndex : nat) (report : ReportData)
    (st : state) : state * option thrown :=
  let st :=
    if (0 <? globalIndex) && (0 <? delay_or_default)
    then emit (EvDelay delay_or_default) st else st in
  match call_onProgress globalIndex report st with
  | (st, Throw e) => (st, Some e)
  | (st, Normal _) =>
      match exportSingle (format options) (template options) report with
      | Throw e => (emit (EvExport report false) st, Some e)
      | Normal _ =>
          let st := emit (EvExport report true) st in
          let st := incr_successful st in
          match call_onProgress (globalIndex + 1) report st with
          | (st, Throw e) => (st, Some e)
          | (st, Normal _) => (st, None)
          end
      end
  end.

(** One task: the [try] block, then the [catch] block when the [try]
    block threw.  What the [catch] block throws rejects the task. *)
Definition task (globalIndex : nat) (report : ReportData)
    (st : state) : completion state :=
  match task_try globalIndex report st with
  | (st, None) => Normal st
  | (st, Some e) =>
      let st := record_failure (mkEntry (_id report) (errorMessage e)) st in
      match call_onError report e st with
      | (st, Normal _) => Normal st
      | (_, Throw e') => Throw e'
      end
  end.

(** The tasks of a chunk, run in the order of the schedule;
    [Promise.all] rejects when a task does. *)
Fixpoint run_tasks (tasks : list (nat * ReportData)) (st : state)
    : completion state :=
  match tasks with
  | [] => Normal st
  | (globalIndex, report) :: rest =>
      bind (task globalIndex report st) (run_tasks rest)
  end.

(** [batch.map(async (report, batchIndex) => ...)] followed by
    [await Promise.all(batchPromises)]. *)
Definition run_batch (i : nat) (batch : list ReportData) (st : state)
    : completion state :=
  run_tasks (schedule (mapi (fun report batchIndex => (i + batchIndex, report)) batch))
            (emit (EvBatch batch) st).

(** [for (let i = 0; i < reports.length; i += batchSize)].  [None]
    when the fuel runs out before the loop ends. *)
Fixpoint batch_loop (fuel : nat) (i : nat) (st : state)
    : option (completion state) :=
  if i <? List.length reports then
    match fuel with
    | 0 => None
    | S fuel' =>
        let batch := slice reports i (i + batchSize_or_default) in
        match run_batch i batch st with
        | Throw e => Some (Throw e)
        | Normal st' => batch_loop fuel' (i + batchSize_or_default) st'
        end
    end
  else Some (Normal st).

Definition initial_state : state := mkState (mkResult 0 0 []) [].

Definition batchExport (fuel : nat) : option (completion state) :=
  batch_loop fuel 0 initial_state.

End BatchExport.

(** The number of chunks of a given size in a list of a given length. *)
Definition chunk_count (size n : nat) : nat := (n + size - 1) / size.

(** The chunks the specification describes: [reports] cut into
    consecutive pieces of [size], the last one possibly shorter. *)
Definition chunks_of (size : nat) (reports : list ReportData)
    : list (list ReportData) :=
  map (fun k => slice reports (k * size) (k * size + size))
      (seq 0 (chunk_count size (List.length reports))).

(** The chunks a trace records, in order. *)
Definition batches_of (tr : list event) : list (list ReportData) :=
  flat_map (fun ev => match ev with EvBatch b => [b] | _ => [] end) tr.

(** The calls of [onError] a trace records, in order. *)
Definition error_calls_of (tr : list event) : list (string * thrown) :=
  flat_map (fun ev => match ev with EvError rid e => [(rid, e)] | _ => [] end) tr.

(** The exports a trace records, in order, each with its outcome. *)
Definition exports_of (tr : list event) : list (ReportData * bool) :=
  flat_map (fun ev => match ev with EvExport r ok => [(r, ok)] | _ => [] end) tr.

(** The calls of [onProgress] a trace records, in order. *)
Definition progress_calls_of (tr : list event) : list (nat * nat * string) :=
  flat_map (fun ev => match ev with
                      | EvProgress c t cur => [(c, t, cur)]
                      | _ => []
                      end) tr.

(** What one settled task does to the result when the callbacks
    return: a success is counted, or a failure is counted and listed. *)
Definition settle (ok : bool) (entry : ErrorEntry) (r : BatchExportResult)
    : BatchExportResult :=
  if ok then mkResult (successful r + 1) (failed r) (errors r)
  else mkResult (successful r) (failed r + 1) (errors r ++ [entry]).

Section Settled.

Variable renders : Format -> option ExportTemplate -> ReportData -> bool.
Variable options : BatchExportOptions.

(** Whether the export of a report succeeds under the options. *)
Definition outcome_of (report : ReportData) : bool :=
  renders (format options) (template options) report.

(** The entry of the error list for a report whose export failed. *)
Definition entry_of (report : ReportData) : ErrorEntry :=
  mkEntry (_id report) (export_failed_msg (format options)).

(** The call of [onError] for a report: none when its export succeeds
    or when no callback is given. *)
Definition error_call_of (report : ReportData) : list (string * thrown) :=
  if outcome_of report then []
  else match onError options with
       | Some _ => [(_id report, ErrorObj (export_failed_msg (format options)))]
       | None => []
       end.

(** The result after the tasks of the given reports have settled, in
    that order. *)
Definition settle_all (processed : list ReportData) (r : BatchExportResult)
    : BatchExportResult :=
  fold_left (fun res report => settle (outcome_of report) (entry_of report) res)
            processed r.

End Settled.

(** A callback that returns on every call. *)
Definition progress_returns (options : BatchExportOptions) : Prop :=
  forall f, onProgress options = Some f ->
    forall completed total current, f completed total current = Normal tt.

Definition error_returns (options : BatchExportOptions) : Prop :=
  forall f, onError options = Some f ->
    forall rid e, f rid e = Normal tt.

End Batch.

(* ================================================================== *)
(** ** Pagination: the page loop of [ReportExporter.exportToPDF] *)

Module Pdf.

(** Lengths are rationals: the rounding of the doubles of the source
    is not modelled. *)
Definition imgWidth : Q := 210%Q.
Definition pageHeight : Q := 295%Q.

(** [(canvas.height * imgWidth) / canvas.width] for a canvas that has
    a width. *)
Definition imgHeight_of_canvas (canvas_height canvas_width : positive) : Q :=
  ((Zpos canvas_height # 1) * imgWidth / (Zpos canvas_width # 1))%Q.

(** One [pdf.addImage(imgData, 'PNG', 0, position, imgWidth, imgHeight)]:
    a page of the document, with the vertical offset of the bitmap on it. *)
Record page : Type := mkPage { position : Q }.

(** [while (heightLeft >= 0) { position = heightLeft - imgHeight;
    pdf.addPage(); pdf.addImage(...); heightLeft -= pageHeight; }]
    The pages are collected in order; [None] when the fuel runs out
    before the loop ends. *)
Fixpoint page_loop (fuel : nat) (imgHeight heightLeft : Q) (pages : list page)
    : option (list page) :=
  if Qle_bool 0%Q heightLeft then
    match fuel with
    | 0 => None
    | S fuel' =>
        let position := (heightLeft - imgHeight)%Q in
        page_loop fuel' imgHeight (heightLeft - pageHeight)%Q
                  (pages ++ [mkPage position])
    end
  else Some pages.

(** The first [addImage] at position 0, then the loop. *)
Definition paginate (fuel : nat) (imgHeight : Q) : option (list page) :=
  page_loop fuel imgHeight (imgHeight - pageHeight)%Q [mkPage 0%Q].

(** The number of bands of 295 that start at or below [heightLeft]. *)
Definition bands (heightLeft : Q) : Z := Qfloor (heightLeft / pageHeight)%Q.

End Pdf.

(* ================================================================== *)
(** ** Variable substitution: [ReportExporter.replaceVariables] *)

Module Subst.

Import TemplateVariable.

Definition ascii_eqb (a b : ascii) : bool := Ascii.eqb a b.

(** The characters that have a meaning in the source of a regular
    expression. *)
Definition is_syntax_character (c : ascii) : bool :=
  existsb (ascii_eqb c)
    (list_ascii_of_string "\^$.*+?()[]{}|").

Definition is_digit (c : ascii) : bool :=
  let n := nat_of_ascii c in (48 <=? n) && (n <=? 57).

Fixpoint all_chars (p : ascii -> bool) (s : string) : bool :=
  match s with
  | EmptyString => true
  | String c s' => p c && all_chars p s'
  end.

(** A name [n] for which [new RegExp("{" + n + "}", "g")] is accepted
    and matches the text [{n}] and nothing else: no syntax character
    in it and no digit first, so that the braces cannot be read as a
    quantifier.  The substitution is modelled for
    such names. *)
Definition literal_name (n : string) : bool :=
  match n with
  | EmptyString => true
  | String c _ => negb (is_digit c) && all_chars (fun c => negb (is_syntax_character c)) n
  end.


(** [`{${variable.name}}`]. *)
Definition placeholder_of (n : string) : string := "{" +++ n +++ "}".

(** The replacement text of one match (GetSubstitution of ECMAScript,
    for a pattern without capture groups): [$$] is a dollar sign, [$&]
    the matched text, [$`] and [$'] the text before and after the
    match; any other character stands for itself. *)
Fixpoint getSubstitution (matched before after replacement : string) : string :=
  match replacement with
  | EmptyString => EmptyString
  | String c rest =>
      if ascii_eqb c "$" then
        match rest with
        | EmptyString => String c EmptyString
        | String d rest' =>
            if ascii_eqb d "$" then "$" +++ getSubstitution matched before after rest'
            else if ascii_eqb d "&" then matched +++ getSubstitution matched before after rest'
            else if ascii_eqb d "`" then before +++ getSubstitution matched before after rest'
            else if ascii_eqb d "'" then after +++ getSubstitution matched before after rest'
            else String c (getSubstitution matched before after rest)
        end
      else String c (getSubstitution matched before after rest)
  end.

(** The scan of [str.replace(new RegExp(pat, 'g'), value)] for a
    pattern [pat] that matches literally and is not empty: [pos] is the
    index of the first character of [s] in [whole], [skip] the number
    of characters of the last match still to pass. *)
Fixpoint replace_scan (pat value whole : string) (pos skip : nat) (s : string)
    : string :=
  match s with
  | EmptyString => EmptyString
  | String c s' =>
      match skip with
      | S k => replace_scan pat value whole (S pos) k s'
      | 0 =>
          if String.prefix pat s then
            getSubstitution pat
              (substring 0 pos whole)
              (substring (pos + String.length pat)
                         (String.length whole - (pos + String.length pat)) whole)
              value
            +++ replace_scan pat value whole (S pos) (String.length pat - 1) s'
          else String c (replace_scan pat value whole (S pos) 0 s')
      end
  end.

Definition replace_global (pat value str : string) : string :=
  replace_scan pat value str 0 0 str.

(** [variables.forEach(variable => { result = result.replace(...) })].
    The model follows the source for the names that [literal_name]
    accepts; for another name the regular expression of the source
    may match other texts, or be refused with a [SyntaxError]. *)
Definition replaceVariables (content : string) (variables : list TemplateVariable.t)
    : string :=
  fold_left
    (fun result variable =>
       replace_global (placeholder_of (name variable)) (defaultValue variable) result)
    variables content.

(** A text seen as literal pieces and placeholders. *)
Inductive token : Type :=
| Lit (piece : string)
| Ph (n : string).

Definition render_token (t : token) : string :=
  match t with
  | Lit piece => piece
  | Ph n => placeholder_of n
  end.

Fixpoint render (ts : list token) : string :=
  match ts with
  | [] => EmptyString
  | t :: ts' => render_token t +++ render ts'
  end.

Definition no_open_brace (s : string) : bool :=
  all_chars (fun c => negb (ascii_eqb c "{")) s.

Definition no_brace (c : ascii) : bool :=
  negb (ascii_eqb c "{") && negb (ascii_eqb c "}").

Definition no_dollar (s : string) : bool :=
  all_chars (fun c => negb (ascii_eqb c "$")) s.

Definition wf_token (t : token) : bool :=
  match t with
  | Lit piece => no_open_brace piece
  | Ph n => literal_name n
  end.

(** The first variable of the list with the given name. *)
Fixpoint lookup (n : string) (variables : list TemplateVariable.t)
    : option TemplateVariable.t :=
  match variables with
  | [] => None
  | v :: vs => if String.eqb (name v) n then Some v else lookup n vs
  end.

(** What the specification describes for one token: a placeholder of a
    listed variable becomes its value, anything else stays. *)
Definition substitute_token (variables : list TemplateVariable.t) (t : token) : string :=
  match t with
  | Lit piece => piece
  | Ph n =>
      match lookup n variables with
      | Some v => defaultValue v
      | None => placeholder_of n
      end
  end.

Fixpoint substitute_tokens (variables : list TemplateVariable.t) (ts : list token)
    : string :=
  match ts with
  | [] => EmptyString
  | t :: ts' => substitute_token variables t +++ substitute_tokens variables ts'
  end.

(** The tokens of a text after the replacement of the placeholders
    of [n] by a value made of the tokens [tv]. *)
Definition expand_token (n : string) (tv : list token) (t : token) : list token :=
  match t with
  | Lit _ => [t]
  | Ph m => if String.eqb m n then tv else [t]
  end.

Definition expand (n : string) (tv ts : list token) : list token :=
  flat_map (expand_token n tv) ts.

(** A list of variables in which no value is touched by a later
    replacement: each value is a text of pieces and placeholders, and
    none of its placeholders names a variable that comes later in the
    list. *)
Fixpoint settled (variables : list TemplateVariable.t) : Prop :=
  match variables with
  | [] => True
  | v :: vs =>
      (exists tv,
          defaultValue v = render tv
          /\ forallb wf_token tv = true
          /\ forall n, In (Ph n) tv -> lookup n vs = None)
      /\ settled vs
  end.

Definition variable (n value : string) : TemplateVariable.t :=
  TemplateVariable.mk n value EmptyString.

End Subst.

(* ================================================================== *)
(** ** The environment of a renderer *)

(** What [Date] gives: the clock, the parser of date strings ([None]
    for an invalid date), the locale's short date format and the ISO
    format of a time value. *)
Record Env : Type := mkEnv {
  now : Z;
  Date_parse : string -> option Z;
  format_locale_date : Z -> string;
  format_iso : Z -> string
}.

(** [new Date(s).toLocaleDateString()]. *)
Definition toLocaleDateString (env : Env) (s : string) : string :=
  match Date_parse env s with
  | Some t => format_locale_date env t
  | None => "Invalid Date"
  end.

(** [new Date().toLocaleDateString()]. *)
Definition today (env : Env) : string := format_locale_date env (now env).

(* ================================================================== *)
(** ** Markdown: [generateMarkdown] and [generateTemplatedMarkdown] *)

Module Markdown.

(** The report and the template objects a renderer was called with. *)
Record heap : Type := mkHeap {
  h_report : ReportData;
  h_template : ExportTemplate
}.

(** [Array.prototype.sort((a, b) => a.order - b.order)]: the sort is
    stable, so it is the insertion of each element before the first
    one of those after it that is not smaller. *)
Fixpoint insert_by_order (x : CustomSection.t) (l : list CustomSection.t)
    : list CustomSection.t :=
  match l with
  | [] => [x]
  | y :: l' =>
      if (CustomSection.order y <? CustomSection.order x)%Z
      then y :: insert_by_order x l'
      else x :: l
  end.

Definition sort_by_order (l : list CustomSection.t) : list CustomSection.t :=
  fold_right insert_by_order [] l.

(** The template after [template.sections.customSections.sort(...)]:
    the array is sorted in place, nothing else is written. *)
Definition with_sorted_sections (template : ExportTemplate) : ExportTemplate :=
  let s := sections template in
  mkTemplate (id template) (name template) (description template)
    (formats template) (header template) (footer template) (styling template)
    (Sections.mk (Sections.showExecutiveSummary s) (Sections.showHighlights s)
       (Sections.showDetailedContent s) (Sections.showRecommendations s)
       (sort_by_order (Sections.customSections s)))
    (variables template) (createdAt template) (updatedAt template)
    (isDefault template).

(** The order in which the custom sections are to appear. *)
Definition le_order (a b : CustomSection.t) : Prop :=
  (CustomSection.order a <= CustomSection.order b)%Z.



Section Render.

Variable env : Env.

Definition periodInfo (report : ReportData) : string :=
  if truthy_opt (period_start report) && truthy_opt (period_end report)
  then "**Period:** " +++ toLocaleDateString env (or_else (period_start report) EmptyString)
       +++ " - " +++ toLocaleDateString env (or_else (period_end report) EmptyString)
       +++ nl +++ nl
  else EmptyString.

(** The header block of the templated document.  It follows the
    source on the templates that [literal_template] accepts. *)
Definition header_block (template : ExportTemplate) : string :=
  let h := header template in
  if Header.enabled h then
    let headerContent := Subst.replaceVariables (Header.content h) (variables template) in
    let headerWithDate :=
      if Header.showDate h then headerContent +++ " | " +++ today env
      else headerContent in
    "---" +++ nl +++ "**" +++ headerWithDate +++ "**" +++ nl +++ "---" +++ nl +++ nl
  else EmptyString.

(** Title and metadata lines. *)
Definition title_block (report : ReportData) : string :=
  ("# " +++ title report +++ nl +++ nl)
  +++ ("**Report Type:** " +++ report_type report +++ "  " +++ nl)
  +++ ("**Generated:** " +++ toLocaleDateString env (generated_at report) +++ "  " +++ nl)
  +++ (if truthy_string (periodInfo report) then periodInfo report else EmptyString)
  +++ nl.

Definition section_text (heading body : string) : string :=
  "## " +++ heading +++ nl +++ nl +++ body +++ nl +++ nl.

(** The four fixed sections, each behind its toggle. *)
Definition fixed_sections (report : ReportData) (template : ExportTemplate) : string :=
  let s := sections template in
  (if Sections.showExecutiveSummary s
   then section_text "Executive Summary" (summary report) else EmptyString)
  +++ (if Sections.showHighlights s
       then section_text "Key Highlights" (highlights report) else EmptyString)
  +++ (if Sections.showDetailedContent s
       then section_text "Detailed Report" (content report) else EmptyString)
  +++ (if Sections.showRecommendations s
       then section_text "Recommendations & Next Steps" (suggestions report)
       else EmptyString).

Definition custom_section_text (section : CustomSection.t) : string :=
  section_text (CustomSection.title section) (CustomSection.content section).

(** The [forEach] over the sorted array. *)
Fixpoint custom_sections_text (l : list CustomSection.t) : string :=
  match l with
  | [] => EmptyString
  | section :: l' => custom_section_text section +++ custom_sections_text l'
  end.

(** The footer block; it follows the source on the templates that
    [literal_template] accepts. *)
Definition footer_block (template : ExportTemplate) : string :=
  let f := footer template in
  if Footer.enabled f then
    let footerContent := Subst.replaceVariables (Footer.content f) (variables template) in
    ("---" +++ nl)
    +++ ("*" +++ footerContent)
    +++ (if Footer.showGeneratedBy f
         then " | Generated by " +++ or_else (Footer.companyName f) "Smart Report Generator"
         else EmptyString)
    +++ ("*" +++ nl)
  else "---" +++ nl +++ "*Generated by Smart Report Generator*" +++ nl.

(** [generateTemplatedMarkdown]: the string it returns and the objects
    as it leaves them. *)
Definition generateTemplatedMarkdown (h : heap) : string * heap :=
  let report := h_report h in
  let template := h_template h in
  let markdown := header_block template in
  let markdown := markdown +++ title_block report in
  let markdown := markdown +++ fixed_sections report template in
  let template := with_sorted_sections template in
  let markdown :=
    markdown +++ custom_sections_text (Sections.customSections (sections template)) in
  let markdown := markdown +++ footer_block template in
  (markdown, mkHeap report template).

(** [generateMarkdown]: one template literal. *)
Definition generateMarkdown (report : ReportData) : string * ReportData :=
  ("# " +++ title report +++ nl
   +++ nl
   +++ "**Report Type:** " +++ report_type report +++ "  " +++ nl
   +++ "**Generated:** " +++ toLocaleDateString env (generated_at report) +++ "  " +++ nl
   +++ periodInfo report +++ nl
   +++ nl
   +++ "## Executive Summary" +++ nl
   +++ nl
   +++ summary report +++ nl
   +++ nl
   +++ "## Key Highlights" +++ nl
   +++ nl
   +++ highlights report +++ nl
   +++ nl
   +++ "## Detailed Report" +++ nl
   +++ nl
   +++ content report +++ nl
   +++ nl
   +++ "## Recommendations & Next Steps" +++ nl
   +++ nl
   +++ suggestions report +++ nl
   +++ nl
   +++ "---" +++ nl
   +++ "*Generated by Smart Report Generator*" +++ nl,
   report).

End Render.

End Markdown.

(* ================================================================== *)
(** ** Numbers: the doubles of JavaScript *)

Module Double.

Import SpecFloat.

Local Open Scope Z_scope.

(** A Number is an IEEE 754 binary64 value: 53 bits of precision, and
    the exponent 1024 for the infinities. *)
Definition prec : Z := 53.
Definition emax : Z := 1024.

Definition is_finite (x : spec_float) : bool :=
  match x with
  | S754_zero _ | S754_finite _ _ _ => true
  | S754_infinity _ | S754_nan => false
  end.

(** [+0], [-0] and [NaN] are the falsy numbers. *)
Definition is_falsy (x : spec_float) : bool :=
  match x with
  | S754_zero _ | S754_nan => true
  | S754_infinity _ | S754_finite _ _ _ => false
  end.

(** The double nearest to [c * 10^p], ties to even: the value of a
    decimal literal with the digits [c] and the exponent [p].  A
    product that is too large gives an infinity, a quotient that is
    too small a zero. *)
Definition of_decimal (sign : bool) (c p : Z) : spec_float :=
  match c with
  | Zpos m =>
      if 0 <=? p
      then binary_round prec emax sign (m * Z.to_pos (10 ^ p)) 0
      else SFdiv prec emax (S754_finite sign m 0)
                 (S754_finite false (Z.to_pos (10 ^ (- p))) 0)
  | _ => S754_zero sign
  end.

(** The decimal digits of a positive integer. *)
Definition digits_of (n : positive) : string :=
  NilEmpty.string_of_uint (Pos.to_uint n).

(** [Number::toString] in radix 10.  For a finite number [x] other than
    zero it takes integers [n], [k] and [s] with [k >= 1],
    [10^(k-1) <= s < 10^k] and [s * 10^(n-k)] read back as [x], with
    [k] as small as possible and, for that [k], [s * 10^(n-k)]
    as close to [x] as possible. *)

(** The least [j] from which [N * 10^j >= D]. *)
Fixpoint scale_up (fuel : nat) (N D j : Z) : Z :=
  match fuel with
  | O => j
  | S f => if D <=? N then j else scale_up f (10 * N) D (j + 1)
  end.

(** The [n] with [10^(n-1) <= m * 2^e < 10^n]. *)
Definition magnitude (m : positive) (e : Z) : Z :=
  let N := Zpos m * 2 ^ Z.max e 0 in
  let D := 2 ^ Z.max (- e) 0 in
  if D <=? N then Z.of_nat (String.length (digits_of (Z.to_pos (N / D))))
  else 1 - scale_up (Z.to_nat (- e)) (10 * N) D 1.

(** [m * 2^e / 10^p] as a fraction. *)
Definition scaled (m : positive) (e p : Z) : Z * Z :=
  (Zpos m * 2 ^ Z.max e 0 * 10 ^ Z.max (- p) 0,
   2 ^ Z.max (- e) 0 * 10 ^ Z.max p 0).

(** The integer nearest to [A / B], the even one of two. *)
Definition nearest (A B : Z) : Z :=
  let lo := A / B in
  match 2 * (A mod B) ?= B with
  | Lt => lo
  | Gt => lo + 1
  | Eq => if Z.even lo then lo else lo + 1
  end.

(** The integer [s] next to [m * 2^e / 10^p] for which [s * 10^p] is
    read back as [m * 2^e], if there is one: the nearer one of two. *)
Definition pick (m : positive) (e p : Z) : option Z :=
  let (A, B) := scaled m e p in
  let lo := A / B in
  let ok c := SFeqb (of_decimal false c p) (S754_finite false m e) in
  if A mod B =? 0 then (if ok lo then Some lo else None)
  else
    match ok lo, ok (lo + 1) with
    | true, true => Some (nearest A B)
    | true, false => Some lo
    | false, true => Some (lo + 1)
    | false, false => None
    end.

(** The search for the least [k], from [k] on; 17 digits determine a
    double. *)
Fixpoint shortest_from (fuel : nat) (m : positive) (e n k : Z) : Z * Z :=
  match fuel with
  | O => (let (A, B) := scaled m e (n - k) in nearest A B, n - k)
  | S f =>
      match pick m e (n - k) with
      | Some c => (c, n - k)
      | None => shortest_from f m e n (k + 1)
      end
  end.

(** The digits [s] and the exponent [p] with [s * 10^p] the shortest
    decimal that is read back as [m * 2^e]. *)
Definition shortest (m : positive) (e : Z) : Z * Z :=
  shortest_from 16 m e (magnitude m e) 1.

(** A run of digits without the zeros at its end. *)
Fixpoint strip_zeros (s : string) : string :=
  match s with
  | EmptyString => EmptyString
  | String c s' =>
      match strip_zeros s' with
      | EmptyString => if Ascii.eqb c "0" then EmptyString else String c EmptyString
      | t => String c t
      end
  end.

Fixpoint zeros (n : nat) : string :=
  match n with
  | O => EmptyString
  | S n' => String "0" (zeros n')
  end.

(** The text of [0.d1...dk * 10^n] for the digits [ds = d1...dk]:
    the digits and zeros for an integer of at most 21 digits, a decimal
    point inside the digits or after [0.] and up to 5 zeros, and
    otherwise the exponent form. *)
Definition format_decimal (ds : string) (n : Z) : string :=
  let k := Z.of_nat (String.length ds) in
  if (k <=? n) && (n <=? 21) then ds +++ zeros (Z.to_nat (n - k))
  else if (0 <? n) && (n <=? 21) then
    substring 0 (Z.to_nat n) ds +++ "."
    +++ substring (Z.to_nat n) (String.length ds - Z.to_nat n) ds
  else if (-6 <? n) && (n <=? 0) then "0." +++ zeros (Z.to_nat (- n)) +++ ds
  else
    let exponent :=
      (if 0 <? n - 1 then "e+" else "e-") +++ digits_of (Z.to_pos (Z.abs (n - 1))) in
    match ds with
    | String d EmptyString => String d exponent
    | String d rest => String d ("." +++ rest) +++ exponent
    | EmptyString => exponent
    end.

(** [String(x)] for a number [x]. *)
Definition toString (x : spec_float) : string :=
  match x with
  | S754_zero _ => "0"
  | S754_infinity false => "Infinity"
  | S754_infinity true => "-Infinity"
  | S754_nan => "NaN"
  | S754_finite sign m e =>
      let (s, p) := shortest m e in
      let ds := digits_of (Z.to_pos s) in
      (if sign then "-" else EmptyString)
      +++ format_decimal (strip_zeros ds) (p + Z.of_nat (String.length ds))
  end.

(** The value of a run of digits, after the digits [acc]. *)
Fixpoint digits_value (s : string) (acc : Z) : Z :=
  match s with
  | EmptyString => acc
  | String c s' => digits_value s' (10 * acc + Z.of_nat (nat_of_ascii c - 48))
  end.

End Double.

(* ================================================================== *)
(** ** [JSON.parse] and [JSON.stringify] *)

Module Json.

(** A JSON value, as [JSON.parse] returns it.  A number is a double.
    The members of an object are kept in the order in which JavaScript
    enumerates the properties. *)
#[warnings="-register-all"]
Inductive json : Type :=
| JNull
| JBool (b : bool)
| JNum (x : SpecFloat.spec_float)
| JStr (s : string)
| JArr (items : list json)
| JObj (members : list (string * json)).

Definition ascii_eqb (a b : ascii) : bool := Ascii.eqb a b.

Definition is_json_ws (c : ascii) : bool :=
  let n := nat_of_ascii c in
  (n =? 32) || (n =? 9) || (n =? 10) || (n =? 13).

Fixpoint skip_ws (s : string) : string :=
  match s with
  | String c s' => if is_json_ws c then skip_ws s' else s
  | EmptyString => EmptyString
  end.

Definition is_digit (c : ascii) : bool :=
  let n := nat_of_ascii c in (48 <=? n) && (n <=? 57).

Definition hex_value (c : ascii) : option nat :=
  let n := nat_of_ascii c in
  if (48 <=? n) && (n <=? 57) then Some (n - 48)
  else if (97 <=? n) && (n <=? 102) then Some (n - 87)
  else if (65 <=? n) && (n <=? 70) then Some (n - 55)
  else None.

(** Whether a text starts with a given word. *)
Fixpoint starts_with (word s : string) : bool :=
  match word with
  | EmptyString => true
  | String a word' =>
      match s with
      | String b s' => ascii_eqb a b && starts_with word' s'
      | EmptyString => false
      end
  end.

(** The longest run of digits at the head of a string, and the rest. *)
Fixpoint span_digits (s : string) : string * string :=
  match s with
  | String c s' =>
      if is_digit c then let (d, r) := span_digits s' in (String c d, r)
      else (EmptyString, s)
  | EmptyString => (EmptyString, EmptyString)
  end.

(** The characters of a string literal after its opening quote, up to
    the closing quote.  An escape [\uXXXX] is decoded when it names a
    code unit below 256; a string with a larger one has no
    representation here and is refused. *)
Fixpoint parse_string_body (s : string) : option (string * string) :=
  match s with
  | EmptyString => None
  | String c s' =>
      if ascii_eqb c (ascii_of_nat 34) then Some (EmptyString, s')
      else if ascii_eqb c "\" then
        match s' with
        | EmptyString => None
        | String e s'' =>
            let simple (x : nat) :=
              match parse_string_body s'' with
              | Some (body, rest) => Some (String (ascii_of_nat x) body, rest)
              | None => None
              end in
            if ascii_eqb e (ascii_of_nat 34) then simple 34
            else if ascii_eqb e "\" then simple 92
            else if ascii_eqb e "/" then simple 47
            else if ascii_eqb e "b" then simple 8
            else if ascii_eqb e "f" then simple 12
            else if ascii_eqb e "n" then simple 10
            else if ascii_eqb e "r" then simple 13
            else if ascii_eqb e "t" then simple 9
            else if ascii_eqb e "u" then
              match s'' with
              | String h1 (String h2 (String h3 (String h4 s4))) =>
                  match hex_value h1, hex_value h2, hex_value h3, hex_value h4 with
                  | Some 0, Some 0, Some a, Some b =>
                      match parse_string_body s4 with
                      | Some (body, rest) =>
                          Some (String (ascii_of_nat (16 * a + b)) body, rest)
                      | None => None
                      end
                  | _, _, _, _ => None
                  end
              | _ => None
              end
            else None
        end
      else if nat_of_ascii c <? 32 then None
      else
        match parse_string_body s' with
        | Some (body, rest) => Some (String c body, rest)
        | None => None
        end
  end.

(** The parts of a number literal at the head of a string, each with
    the rest of the string: an optional minus sign; a zero, or a run
    of digits that does not start with a zero; an optional fraction (a
    dot and digits); an optional exponent ([e] or [E], an optional
    sign, digits). *)
Definition take_sign (s : string) : string * string :=
  match s with
  | String c r => if ascii_eqb c "-" then ("-", r) else (EmptyString, s)
  | EmptyString => (EmptyString, s)
  end.

Definition take_int (s : string) : string * string :=
  match s with
  | String c r => if ascii_eqb c "0" then ("0", r) else span_digits s
  | EmptyString => (EmptyString, s)
  end.

Definition take_frac (s : string) : option (string * string) :=
  match s with
  | String c r =>
      if ascii_eqb c "." then
        let (d, r') := span_digits r in
        if truthy_string d then Some (String c d, r') else None
      else Some (EmptyString, s)
  | EmptyString => Some (EmptyString, s)
  end.

Definition take_exp_sign (s : string) : string * string :=
  match s with
  | String c r =>
      if ascii_eqb c "+" || ascii_eqb c "-" then (String c EmptyString, r)
      else (EmptyString, s)
  | EmptyString => (EmptyString, s)
  end.

Definition take_exp (s : string) : option (string * string) :=
  match s with
  | String e r =>
      if ascii_eqb e "e" || ascii_eqb e "E" then
        let (sg, r1) := take_exp_sign r in
        let (d, r2) := span_digits r1 in
        if truthy_string d then Some (String e (sg +++ d), r2) else None
      else Some (EmptyString, s)
  | EmptyString => Some (EmptyString, s)
  end.

(** A number literal at the head of a string. *)
Definition parse_number (s : string) : option (string * string) :=
  let (sign, s1) := take_sign s in
  let (int, s2) := take_int s1 in
  if negb (truthy_string int) then None else
  match take_frac s2 with
  | None => None
  | Some (fr, s3) =>
      match take_exp s3 with
      | None => None
      | Some (ex, s4) => Some (sign +++ int +++ fr +++ ex, s4)
      end
  end.

(** The number that a literal denotes: the double nearest to the
    decimal value of its digits (of the integer part and of the
    fraction) scaled by its exponent, with the sign of the literal. *)
Definition number_of_literal (literal : string) : SpecFloat.spec_float :=
  let (sign, s1) := take_sign literal in
  let (int, s2) := take_int s1 in
  let (fr, s3) :=
    match take_frac s2 with
    | Some (String _ d, r) => (d, r)
    | _ => (EmptyString, s2)
    end in
  let ex :=
    match take_exp s3 with
    | Some (String _ r, _) =>
        let (sg, d) := take_exp_sign r in
        if String.eqb sg "-" then (- Double.digits_value d 0)%Z
        else Double.digits_value d 0
    | _ => 0%Z
    end in
  Double.of_decimal (String.eqb sign "-") (Double.digits_value (int +++ fr) 0)
                    (ex - Z.of_nat (String.length fr))%Z.

(** Whether a key is an array index: the canonical decimal form of an
    integer (below [2^32 - 1]).  Such keys are enumerated first, in
    ascending order. *)
Definition index_of_key (k : string) : option N :=
  match k with
  | EmptyString => None
  | String "0" EmptyString => Some 0%N
  | String "0" _ => None
  | String _ _ =>
      if Subst.all_chars is_digit k && (String.length k <=? 10) then
        match NilEmpty.uint_of_string k with
        | Some u =>
            let n := N.of_uint u in
            if (n <? 4294967295)%N then Some n else None
        | None => None
        end
      else None
  end.

(** The definition of a property by [JSON.parse]: an existing key
    keeps its place and takes the new value; a new array index goes
    among the array indices, in ascending order; any other new key goes
    last. *)
Fixpoint set_member (k : string) (v : json) (members : list (string * json))
    : list (string * json) :=
  match members with
  | [] => [(k, v)]
  | (k', v') :: rest =>
      if String.eqb k' k then (k, v) :: rest
      else
        match index_of_key k, index_of_key k' with
        | Some n, Some n' =>
            if (n <? n')%N && negb (existsb (fun m => String.eqb (fst m) k) rest)
            then (k, v) :: members
            else (k', v') :: set_member k v rest
        | Some _, None =>
            if existsb (fun m => String.eqb (fst m) k) rest
            then (k', v') :: set_member k v rest
            else (k, v) :: members
        | None, _ => (k', v') :: set_member k v rest
        end
  end.

(** The elements of an array after its first one, up to the closing
    bracket; [parse_element] reads one value. *)
Fixpoint parse_items (parse_element : string -> option (json * string))
    (fuel : nat) (acc : list json) (s : string) : option (json * string) :=
  match fuel with
  | 0 => None
  | S fuel' =>
      match skip_ws s with
      | String "]" rest => Some (JArr acc, rest)
      | String "," rest =>
          match parse_element rest with
          | Some (v, rest') => parse_items parse_element fuel' (acc ++ [v]) rest'
          | None => None
          end
      | _ => None
      end
  end.

(** One member of an object: a string, a colon, a value. *)
Definition parse_member (parse_element : string -> option (json * string))
    (s : string) : option ((string * json) * string) :=
  match skip_ws s with
  | String q rest =>
      if ascii_eqb q (ascii_of_nat 34) then
        match parse_string_body rest with
        | Some (k, rest') =>
            match skip_ws rest' with
            | String ":" rest'' =>
                match parse_element rest'' with
                | Some (v, rest3) => Some ((k, v), rest3)
                | None => None
                end
            | _ => None
            end
        | None => None
        end
      else None
  | EmptyString => None
  end.

(** The members of an object after its first one, up to the closing
    brace. *)
Fixpoint parse_members (parse_element : string -> option (json * string))
    (fuel : nat) (acc : list (string * json)) (s : string)
    : option (json * string) :=
  match fuel with
  | 0 => None
  | S fuel' =>
      match skip_ws s with
      | String "}" rest => Some (JObj acc, rest)
      | String "," rest =>
          match parse_member parse_element rest with
          | Some ((k, v), rest') =>
              parse_members parse_element fuel' (set_member k v acc) rest'
          | None => None
          end
      | _ => None
      end
  end.

(** A value at the head of a string, after white space, and the rest
    of the string. *)
Fixpoint parse_value (fuel : nat) (s : string) : option (json * string) :=
  match fuel with
  | 0 => None
  | S fuel' =>
      match skip_ws s with
      | EmptyString => None
      | String c rest =>
          if ascii_eqb c (ascii_of_nat 34) then
            match parse_string_body rest with
            | Some (body, rest') => Some (JStr body, rest')
            | None => None
            end
          else if ascii_eqb c "[" then
            match skip_ws rest with
            | String "]" rest' => Some (JArr [], rest')
            | _ =>
                match parse_value fuel' rest with
                | Some (v, rest') => parse_items (parse_value fuel') fuel' [v] rest'
                | None => None
                end
            end
          else if ascii_eqb c "{" then
            match skip_ws rest with
            | String "}" rest' => Some (JObj [], rest')
            | _ =>
                match parse_member (parse_value fuel') rest with
                | Some ((k, v), rest') =>
                    parse_members (parse_value fuel') fuel' [(k, v)] rest'
                | None => None
                end
            end
          else if starts_with "null" (String c rest)
          then Some (JNull, substring 4 (String.length rest) (String c rest))
          else if starts_with "true" (String c rest)
          then Some (JBool true, substring 4 (String.length rest) (String c rest))
          else if starts_with "false" (String c rest)
          then Some (JBool false, substring 5 (String.length rest) (String c rest))
          else
            match parse_number (String c rest) with
            | Some (lit, rest') => Some (JNum (number_of_literal lit), rest')
            | None => None
            end
      end
  end.

(** [JSON.parse(text)]: a value, or a [SyntaxError].  Two units of
    fuel for each character are enough for every text. *)
Definition JSON_parse (text : string) : completion json :=
  match parse_value (2 * String.length text + 2) text with
  | Some (v, rest) =>
      match skip_ws rest with
      | EmptyString => Normal v
      | String _ _ => Throw (ErrorObj "Unexpected token in JSON")
      end
  | None => Throw (ErrorObj "Unexpected token in JSON")
  end.

Definition hex_digit (n : nat) : ascii :=
  if n <? 10 then ascii_of_nat (48 + n) else ascii_of_nat (87 + n).

(** The escaping of one code unit by [JSON.stringify]. *)
Definition escape_char (c : ascii) : string :=
  let n := nat_of_ascii c in
  if n =? 34 then "\" +++ dquote
  else if n =? 92 then "\\"
  else if n =? 8 then "\b"
  else if n =? 12 then "\f"
  else if n =? 10 then "\n"
  else if n =? 13 then "\r"
  else if n =? 9 then "\t"
  else if n <? 32 then
    "\u00" +++ String (hex_digit (n / 16)) (String (hex_digit (n mod 16)) EmptyString)
  else String c EmptyString.

Fixpoint escape_string (s : string) : string :=
  match s with
  | EmptyString => EmptyString
  | String c s' => escape_char c +++ escape_string s'
  end.

Definition quote (s : string) : string := dquote +++ escape_string s +++ dquote.

Fixpoint join (sep : string) (l : list string) : string :=
  match l with
  | [] => EmptyString
  | [x] => x
  | x :: l' => x +++ sep +++ join sep l'
  end.

(** [JSON.stringify(value)] without indentation.  A finite number is
    printed as [String(x)], another number as [null]. *)
Fixpoint JSON_stringify (v : json) : string :=
  match v with
  | JNull => "null"
  | JBool true => "true"
  | JBool false => "false"
  | JNum x => if Double.is_finite x then Double.toString x else "null"
  | JStr s => quote s
  | JArr items => "[" +++ join "," (map JSON_stringify items) +++ "]"
  | JObj members =>
      "{" +++ join ","
                (map (fun m : string * json =>
                        quote (fst m) +++ ":" +++ JSON_stringify (snd m)) members)
      +++ "}"
  end.

(** [Boolean(value)]. *)
Definition truthy (v : json) : bool :=
  match v with
  | JNull => false
  | JBool b => b
  | JNum x => negb (Double.is_falsy x)
  | JStr s => truthy_string s
  | JArr _ => true
  | JObj _ => true
  end.

(** [Array.prototype.flat()]: the elements of the elements that are
    arrays, and the other elements themselves. *)
Definition flat (l : list json) : list json :=
  flat_map (fun v => match v with JArr items => items | _ => [v] end) l.

(** The object that [JSON.parse] builds from members given in order. *)
Definition build_members (members acc : list (string * json))
    : list (string * json) :=
  fold_left (fun acc m => set_member (fst m) (snd m) acc) members acc.

(** A value that [JSON.parse] can return: the members of its objects
    are in the order in which the object would list them. *)
Fixpoint parsed_form (v : json) : Prop :=
  match v with
  | JNull | JBool _ | JNum _ | JStr _ => True
  | JArr items =>
      (fix all (l : list json) : Prop :=
         match l with
         | [] => True
         | x :: l' => parsed_form x /\ all l'
         end) items
  | JObj members =>
      build_members members [] = members
      /\ (fix all (l : list (string * json)) : Prop :=
            match l with
            | [] => True
            | m :: l' => parsed_form (snd m) /\ all l'
            end) members
  end.




(** A bound on the fuel that [parse_value] uses on the text of a value. *)
Fixpoint size (v : json) : nat :=
  match v with
  | JArr items =>
      S ((fix sum (l : list json) : nat :=
            match l with
            | [] => 0
            | x :: l' => S (size x + sum l')
            end) items)
  | JObj members =>
      S ((fix sum (l : list (string * json)) : nat :=
            match l with
            | [] => 0
            | m :: l' => S (size (snd m) + sum l')
            end) members)
  | _ => 1
  end.




Definition all_digits (s : string) : bool := Subst.all_chars is_digit s.

(** A text at which a fraction may not go on: no digit and no dot
    first. *)
Definition stops_fraction (t : string) : bool :=
  match t with
  | EmptyString => true
  | String c _ => negb (is_digit c) && negb (ascii_eqb c ".")
  end.

(** Whether a key may come before another in the enumeration of the
    properties of an object: array indices in ascending order, then
    the other keys. *)
Definition key_before (k1 k2 : string) : bool :=
  match index_of_key k1, index_of_key k2 with
  | Some n1, Some n2 => (n1 <=? n2)%N
  | Some _, None => true
  | None, Some _ => false
  | None, None => true
  end.

(** Keys in the order of enumeration, each once. *)
Fixpoint ordered (keys : list string) : Prop :=
  match keys with
  | [] => True
  | k :: keys' =>
      (forall k', In k' keys' -> key_before k k' = true /\ k' <> k)
      /\ ordered keys'
  end.

Definition starts_with_digit (s : string) : bool :=
  match s with
  | String c _ => is_digit c
  | EmptyString => false
  end.



End Json.

(* ================================================================== *)
(** ** Combination: [exportCombinedReport] and its helpers *)

Module Combine.

Import Json.

Section Combined.

Variable env : Env.

(** [generateCombinedContent]. *)
Definition combined_section (report : ReportData) (index : nat) : string :=
  "## Report " +++ string_of_nat (index + 1) +++ ": " +++ title report +++ nl
  +++ nl
  +++ "**Type:** " +++ report_type report +++ nl
  +++ "**Generated:** " +++ toLocaleDateString env (generated_at report) +++ nl
  +++ nl
  +++ "### Summary" +++ nl
  +++ summary report +++ nl
  +++ nl
  +++ "### Key Highlights" +++ nl
  +++ highlights report +++ nl
  +++ nl
  +++ "### Content" +++ nl
  +++ content report +++ nl
  +++ nl
  +++ "### Suggestions" +++ nl
  +++ suggestions report +++ nl
  +++ nl
  +++ "---" +++ nl
  +++ nl.

Definition generateCombinedContent (reports : list ReportData) : string :=
  join nl (mapi combined_section reports).

(** [generateCombinedSummary]. *)
Definition generateCombinedSummary (reports : list ReportData) : string :=
  "This combined report includes " +++ string_of_nat (List.length reports)
  +++ " individual reports covering various periods and activities. Each report has been analyzed and compiled with AI-generated insights and recommendations.".

(** The callback of the [map] in [generateCombinedHighlights]: the
    parsed field, or an array holding the field itself when
    [JSON.parse] throws. *)
Definition parse_highlights (report : ReportData) : json :=
  match JSON_parse (highlights report) with
  | Normal v => v
  | Throw _ => JArr [JStr (highlights report)]
  end.

(** [reports.map(...).flat().filter(Boolean)]. *)
Definition allHighlights (reports : list ReportData) : list json :=
  filter truthy (flat (map parse_highlights reports)).

(** [generateCombinedHighlights]. *)
Definition generateCombinedHighlights (reports : list ReportData) : string :=
  JSON_stringify (JArr (slice (allHighlights reports) 0 10)).

(** [generateCombinedSuggestions]. *)
Definition generateCombinedSuggestions (reports : list ReportData) : string :=
  let suggestions :=
    join (nl +++ nl) (filter truthy_string (map suggestions reports)) in
  "Based on analysis of " +++ string_of_nat (List.length reports)
  +++ " reports:" +++ nl +++ nl +++ suggestions.

(** The time values of [dates.map(d => d.getTime())]: [None] is [NaN]. *)
Definition time_values (pick : ReportData -> option string)
    (reports : list ReportData) : list (option Z) :=
  map (Date_parse env)
      (filter truthy_string
         (map (fun report => or_else (pick report) (generated_at report)) reports)).

(** [Math.min(...xs)] and [Math.max(...xs)] followed by
    [new Date(x).toISOString()]: the extremum of no number is an
    infinity and the extremum of a list with a [NaN] is [NaN], and then
    [toISOString] throws a [RangeError]. *)
Fixpoint extremum (pick : Z -> Z -> Z) (xs : list (option Z)) : option Z :=
  match xs with
  | [] => None
  | [x] => x
  | x :: xs' =>
      match x, extremum pick xs' with
      | Some a, Some b => Some (pick a b)
      | _, _ => None
      end
  end.

Definition iso_of (x : option Z) : completion string :=
  match x with
  | Some t => Normal (format_iso env t)
  | None => Throw (ErrorObj "Invalid time value")
  end.

(** [getEarliestDate]. *)
Definition getEarliestDate (reports : list ReportData) : completion string :=
  iso_of (extremum Z.min (time_values period_start reports)).

(** [getLatestDate]. *)
Definition getLatestDate (reports : list ReportData) : completion string :=
  iso_of (extremum Z.max (time_values period_end reports)).

(** [reports.length > 0 ? f(reports) : undefined]. *)
Definition when_nonempty (reports : list ReportData)
    (f : list ReportData -> completion string) : completion (option string) :=
  if 0 <? List.length reports
  then bind (f reports) (fun s => Normal (Some s))
  else Normal None.

(** [String(n)] for an integer. *)
Definition string_of_Z (z : Z) : string :=
  NilEmpty.string_of_int (Z.to_int z).

(** The object literal [combinedReport] of [exportCombinedReport]:
    its fields are evaluated in order, and the first one that throws
    ends the construction. *)
Definition combinedReport (reports : list ReportData) (title : option string)
    : completion ReportData :=
  let _id := "combined-" +++ string_of_Z (now env) in
  let title := match title with Some t => t | None => "Combined Report" end in
  let content := generateCombinedContent reports in
  let summary := generateCombinedSummary reports in
  let highlights := generateCombinedHighlights reports in
  let suggestions := generateCombinedSuggestions reports in
  let generated_at := format_iso env (now env) in
  bind (when_nonempty reports getEarliestDate) (fun period_start =>
  bind (when_nonempty reports getLatestDate) (fun period_end =>
  Normal (mkReport _id title "combined" content summary highlights suggestions
            generated_at period_start period_end None))).

(** [exportCombinedReport]: the record, then the exporter of the format. *)
Definition exportCombinedReport
    (renders : Format -> option ExportTemplate -> ReportData -> bool)
    (reports : list ReportData) (fmt : Format) (title : option string)
    (template : option ExportTemplate) : completion unit :=
  bind (combinedReport reports title)
       (fun report => Batch.exportSingle renders fmt template report).

End Combined.

End Combine.

(* ================================================================== *)
(** ** Sample data *)

Module Samples.

Definition report (rid ttl body : string) : ReportData :=
  mkReport rid ttl "weekly" body "summary" "[]" "next steps"
           "2024-01-01T00:00:00.000Z" None None None.

Definition numbered (n : nat) : ReportData :=
  report ("r" +++ string_of_nat n) ("Report " +++ string_of_nat n) "body".

Definition reports (n : nat) : list ReportData := map numbered (seq 0 n).

Definition blank_report : ReportData := report "r0" "  " EmptyString.

(** The texts ["a","b"] (with its brackets) and "c" (with its quotes). *)
Definition highlights_ab : string :=
  "[" +++ dquote +++ "a" +++ dquote +++ "," +++ dquote +++ "b" +++ dquote +++ "]".

Definition highlights_c : string := dquote +++ "c" +++ dquote.



Definition with_highlights (h : string) : ReportData :=
  mkReport "r" "Report" "weekly" "body" "summary" h "next steps"
           "2024-01-01T00:00:00.000Z" None None None.

(** A clock at a given instant, in a locale that prints a date as the
    number of its day. *)
Definition env_at (t : Z) : Env :=
  mkEnv t (fun _ => Some 0%Z)
        (fun t => Combine.string_of_Z (t / 86400000))
        (fun t => Combine.string_of_Z t).


(** A template with every block on; [dated] is [header.showDate]. *)
Definition template_with (dated : bool) (customs : list CustomSection.t)
    : ExportTemplate :=
  mkTemplate "t1" "Template" "a template" [pdf; word; markdown]
    (Header.mk true "{companyName} - Professional Report" 80%Q "#2563eb" "#ffffff"
       18%Q AlignCenter false None dated false)
    (Footer.mk true "Confidential" 60%Q "#f8fafc" "#64748b" 12%Q AlignCenter
       true (Some "Smart Report Generator") true true)
    (Styling.mk "#2563eb" "#059669" "Inter" 14%Q (16 # 10)%Q
       (Styling.mkMargins 40%Q 40%Q 40%Q 40%Q) (Styling.mkSpacing 32%Q 16%Q))
    (Sections.mk true true true true customs)
    [TemplateVariable.mk "companyName" "Your Company" "Company name"]
    "2024-01-01" "2024-01-01" false.

(** Callbacks that return, and callbacks that throw. *)
Definition quiet_progress : nat -> nat -> string -> completion unit :=
  fun _ _ _ => Normal tt.

Definition quiet_error : string -> thrown -> completion unit :=
  fun _ _ => Normal tt.

Definition progress_throws_when_done : nat -> nat -> string -> completion unit :=
  fun completed _ _ =>
    if completed =? 1 then Throw (ErrorObj "progress handler failed") else Normal tt.

Definition error_throws : string -> thrown -> completion unit :=
  fun _ _ => Throw (ErrorObj "error handler failed").

Definition options_with (size : option nat) : Batch.BatchExportOptions :=
  Batch.mkOptions markdown None (Some quiet_progress) (Some quiet_error) size None.

(** An exporter that fails on the report of a given identifier, and
    one that never fails. *)
Definition fails_on (rid : string)
    : Format -> option ExportTemplate -> ReportData -> bool :=
  fun _ _ r => negb (String.eqb (_id r) rid).

Definition always_renders : Format -> option ExportTemplate -> ReportData -> bool :=
  fun _ _ _ => true.

(** Two schedules: the tasks of a chunk end in their order, or in the
    reverse order. *)
Definition in_order (tasks : list (nat * ReportData)) : list (nat * ReportData) :=
  tasks.

Definition reversed (tasks : list (nat * ReportData)) : list (nat * ReportData) :=
  rev tasks.

End Samples.

(* ================================================================== *)
(** ** The Word document: [ReportExporter.exportToWord] *)

Module Word.

(** The objects of the document library, as the records of the options
    they are built from.  An option that the source leaves out is
    [None], or [false] for a flag. *)
Inductive HeadingLevel : Type := TITLE | HEADING_1.

Inductive AlignmentType : Type := LEFT | CENTER | RIGHT.

Record TextRun : Type := mkRun {
  text : string;
  size : Q;
  color : option string;
  bold : bool;
  italics : bool
}.

Record Spacing : Type := mkSpacing {
  before : option Q;
  after : option Q
}.

Record Paragraph : Type := mkParagraph {
  children : list TextRun;
  heading : option HeadingLevel;
  alignment : option AlignmentType;
  spacing : Spacing
}.

Record Margin : Type := mkMargin {
  margin_top : Q;
  margin_bottom : Q;
  margin_left : Q;
  margin_right : Q
}.

(** The one section of the document. *)
Record Document : Type := mkDocument {
  page_margin : option Margin;
  headers : option Paragraph;
  footers : option Paragraph;
  section_children : list Paragraph
}.

(** [s.replace('#', '')]: the first number sign is dropped. *)
Fixpoint remove_first (c : ascii) (s : string) : string :=
  match s with
  | EmptyString => EmptyString
  | String d s' => if Ascii.eqb d c then s' else String d (remove_first c s')
  end.

(** [a || d] for a string [a] and for a number [x]: the empty string
    and 0 are falsy. *)
Definition or_string (a d : string) : string :=
  if truthy_string a then a else d.

Definition or_number (x d : Q) : Q :=
  if Qeq_bool x 0 then d else x.

Definition alignment_of (a : Alignment) : AlignmentType :=
  match a with
  | AlignCenter => CENTER
  | AlignRight => RIGHT
  | AlignLeft => LEFT
  end.

Section Build.

Variable env : Env.
Variable report : ReportData.
Variable template : option ExportTemplate.

(** [template?.styling.spacing.sectionGap * 10 || d]: without a
    template the product is [NaN], which is falsy. *)
Definition sectionGap_or (d : Q) : Q :=
  match template with
  | Some t => or_number (Styling.sectionGap (Styling.spacing (styling t)) * 10)%Q d
  | None => d
  end.

Definition paragraphGap_or (d : Q) : Q :=
  match template with
  | Some t => or_number (Styling.paragraphGap (Styling.spacing (styling t)) * 10)%Q d
  | None => d
  end.

(** [template ? template.styling.fontSize * 2 : 24]. *)
Definition body_size : Q :=
  match template with
  | Some t => (Styling.fontSize (styling t) * 2)%Q
  | None => 24%Q
  end.

(** [template?.styling.fontSize ? template.styling.fontSize * 2 + 10 : 28]. *)
Definition heading_size : Q :=
  match template with
  | Some t =>
      if Qeq_bool (Styling.fontSize (styling t)) 0 then 28%Q
      else (Styling.fontSize (styling t) * 2 + 10)%Q
  | None => 28%Q
  end.

(** [template?.styling.primaryColor.replace('#', '') || "2563eb"]. *)
Definition primary_color : string :=
  match template with
  | Some t => or_string (remove_first "#" (Styling.primaryColor (styling t))) "2563eb"
  | None => "2563eb"
  end.

Definition secondary_color : string :=
  match template with
  | Some t => or_string (remove_first "#" (Styling.secondaryColor (styling t))) "059669"
  | None => "059669"
  end.

(** The header of the document, when the template has one. *)
Definition header_paragraph : option Paragraph :=
  match template with
  | Some t =>
      let h := header t in
      if Header.enabled h then
        let headerContent := Subst.replaceVariables (Header.content h) (variables t) in
        Some (mkParagraph
                (mkRun headerContent (Header.fontSize h * 2)%Q
                       (Some (remove_first "#" (Header.textColor h))) true false
                 :: (if Header.showDate h
                     then [mkRun (" | " +++ today env) (Header.fontSize h * 2)%Q
                                 (Some (remove_first "#" (Header.textColor h)))
                                 false false]
                     else []))
                None (Some (alignment_of (Header.alignment h)))
                (mkSpacing None None))
      else None
  | None => None
  end.

Definition footer_paragraph : option Paragraph :=
  match template with
  | Some t =>
      let f := footer t in
      if Footer.enabled f then
        let footerContent := Subst.replaceVariables (Footer.content f) (variables t) in
        Some (mkParagraph
                ([mkRun footerContent (Footer.fontSize f * 2)%Q
                        (Some (remove_first "#" (Footer.textColor f))) false false]
                 ++ (if Footer.showPageNumbers f
                     then [mkRun " | Page " (Footer.fontSize f * 2)%Q
                                 (Some (remove_first "#" (Footer.textColor f)))
                                 false false]
                     else [])
                 ++ (if Footer.showGeneratedBy f
                     then [mkRun (" | Generated by "
                                  +++ or_else (Footer.companyName f) "Smart Report Generator")
                                 (Footer.fontSize f * 2)%Q
                                 (Some (remove_first "#" (Footer.textColor f)))
                                 false false]
                     else []))
                None (Some (alignment_of (Footer.alignment f)))
                (mkSpacing None None))
      else None
  | None => None
  end.

Definition title_paragraph : Paragraph :=
  mkParagraph [mkRun (title report) 32%Q (Some primary_color) true false]
              (Some TITLE) (Some CENTER)
              (mkSpacing None (Some (sectionGap_or 400%Q))).

Definition metadata_paragraph : Paragraph :=
  mkParagraph
    [mkRun ("Report Type: " +++ report_type report) body_size None true false;
     mkRun (nl +++ "Generated: " +++ toLocaleDateString env (generated_at report))
           body_size None false false]
    None None (mkSpacing None (Some (sectionGap_or 300%Q))).

Definition period_paragraphs : list Paragraph :=
  if truthy_opt (period_start report) && truthy_opt (period_end report)
  then [mkParagraph
          [mkRun ("Period: "
                  +++ toLocaleDateString env (or_else (period_start report) EmptyString)
                  +++ " - "
                  +++ toLocaleDateString env (or_else (period_end report) EmptyString))
                 body_size None false true]
          None None (mkSpacing None (Some (sectionGap_or 300%Q)))]
  else [].

(** The two paragraphs of a section: its heading and its text. *)
Definition section_paragraphs (heading_text heading_color body : string)
    : list Paragraph :=
  [mkParagraph [mkRun heading_text heading_size (Some heading_color) true false]
               (Some HEADING_1) None
               (mkSpacing (Some (sectionGap_or 400%Q)) (Some (paragraphGap_or 200%Q)));
   mkParagraph [mkRun body body_size None false false]
               None None (mkSpacing None (Some (sectionGap_or 300%Q)))].

(** [!template || template.sections.show...]. *)
Definition shown (toggle : Sections.t -> bool) : bool :=
  match template with
  | Some t => toggle (sections t)
  | None => true
  end.

Definition section_children_of : list Paragraph :=
  [title_paragraph; metadata_paragraph]
  ++ period_paragraphs
  ++ (if shown Sections.showExecutiveSummary
      then section_paragraphs "Executive Summary" secondary_color (summary report)
      else [])
  ++ (if shown Sections.showHighlights
      then section_paragraphs "Key Highlights" secondary_color (highlights report)
      else [])
  ++ (if shown Sections.showDetailedContent
      then section_paragraphs "Detailed Report" secondary_color (content report)
      else [])
  ++ (if shown Sections.showRecommendations
      then section_paragraphs "Recommendations & Next Steps" "dc2626"
             (suggestions report)
      else []).

(** [template.styling.margins.top * 56.7] and the like. *)
Definition margin_of : option Margin :=
  match template with
  | Some t =>
      let m := Styling.margins (styling t) in
      Some (mkMargin (Styling.top m * (567 # 10))%Q (Styling.bottom m * (567 # 10))%Q
                     (Styling.left m * (567 # 10))%Q (Styling.right m * (567 # 10))%Q)
  | None => None
  end.

(** The document that [exportToWord] builds. *)
Definition document : Document :=
  mkDocument margin_of header_paragraph footer_paragraph section_children_of.

End Build.

(** The text of a paragraph: the texts of its runs, one after the other. *)
Definition paragraph_text (p : Paragraph) : string :=
  fold_right (fun run rest => text run +++ rest) EmptyString (children p).

(** A template with other custom sections. *)
Definition with_customSections (template : ExportTemplate)
    (customs : list CustomSection.t) : ExportTemplate :=
  let s := sections template in
  mkTemplate (id template) (name template) (description template)
    (formats template) (header template) (footer template) (styling template)
    (Sections.mk (Sections.showExecutiveSummary s) (Sections.showHighlights s)
       (Sections.showDetailedContent s) (Sections.showRecommendations s) customs)
    (variables template) (createdAt template) (updatedAt template)
    (isDefault template).

(** The texts of paragraphs taken two by two, a heading and its text,
    as the sections of a markdown document. *)
Fixpoint sections_markdown (texts : list string) : string :=
  match texts with
  | heading_text :: body :: rest =>
      Markdown.section_text heading_text body +++ sections_markdown rest
  | _ => EmptyString
  end.

End Word.

(* ================================================================== *)
(** ** The markup of the PDF export: [generateReportHTML] and
    [generateTemplatedReportHTML] *)

Module Html.

Import Markdown.



Section Render.

Variable env : Env.

(** The text of a number in a template literal. *)
Variable Number_toString : Q -> string.

















End Render.

End Html.

(* ================================================================== *)
(** ** The exporters and their arguments *)

Module Exporters.

Import Markdown.

Section Run.

Variable env : Env.



End Run.

End Exporters.

(* ================================================================== *)
(** ** The estimate of a batch: [ReportExporter.getEstimatedBatchTime] *)

Module Estimate.

(** Milliseconds for one report of a format. *)
Definition baseTimePerReport (fmt : Format) : nat :=
  match fmt with
  | pdf => 3000
  | word => 1500
  | markdown => 100
  end.

Definition delayTime : nat := 500.

Definition getEstimatedBatchTime (reportCount : nat) (fmt : Format) : nat :=
  (baseTimePerReport fmt + delayTime) * reportCount.

End Estimate.

(* ================================================================== *)
(** ** The batch dialog (BatchExportDialog.tsx): selection and progress *)

Module Dialog.

(** The [status] of an entry of the progress list. *)
Inductive Status : Type := Pending | Processing | Completed | Error.

(** [interface ExportProgress]. *)
Record ExportProgress : Type := mkProgress {
  p_id : string;
  p_title : string;
  p_status : Status;
  p_error : option string;
  p_estimatedTime : option nat
}.

(** [handleSelectAll]. *)
Definition handleSelectAll (filteredReports : list ReportData) (checked : bool)
    : list string :=
  if checked then map _id filteredReports else [].

(** [handleSelectReport], as a function of the previous selection. *)
Definition handleSelectReport (reportId : string) (checked : bool)
    (prev : list string) : list string :=
  if checked then prev ++ [reportId]
  else filter (fun id => negb (String.eqb id reportId)) prev.

(** [filteredReports.filter(report => selectedReports.includes(report._id))]. *)
Definition reportsToExport (filteredReports : list ReportData)
    (selectedReports : list string) : list ReportData :=
  filter (fun report => existsb (String.eqb (_id report)) selectedReports)
         filteredReports.

(** The progress list with which an export starts. *)
Definition progressList (fmt : Format) (reportsToExport : list ReportData)
    : list ExportProgress :=
  let estimatedTimePerReport := Estimate.getEstimatedBatchTime 1 fmt in
  map (fun report =>
         mkProgress (_id report) (title report) Pending None
                    (Some estimatedTimePerReport))
      reportsToExport.

(** The final update of the progress list after [batchExport] has
    returned its result. *)
Definition final_update (result : Batch.BatchExportResult)
    (prev : list ExportProgress) : list ExportProgress :=
  map (fun p =>
         let wasSuccessful :=
           negb (existsb (fun err => String.eqb (Batch.reportId err) (p_id p))
                         (Batch.errors result)) in
         mkProgress (p_id p) (p_title p)
                    (if wasSuccessful then Completed else Error)
                    (if wasSuccessful then None else Some "Export failed")
                    (p_estimatedTime p))
      prev.

(** Two entries for the same report: the callbacks of a run change the
    status and the error text of an entry, and nothing else. *)
Definition same_entry (p q : ExportProgress) : Prop :=
  p_id p = p_id q /\ p_title p = p_title q /\ p_estimatedTime p = p_estimatedTime q.

(** The entry of a report as it is to be shown after a run: completed
    when its export succeeds, an error when it fails. *)
Definition shown_entry
    (renders : Format -> option ExportTemplate -> ReportData -> bool)
    (options : Batch.BatchExportOptions) (report : ReportData) : ExportProgress :=
  mkProgress (_id report) (title report)
    (if Batch.outcome_of renders options report then Completed else Error)
    (if Batch.outcome_of renders options report then None else Some "Export failed")
    (Some (Estimate.getEstimatedBatchTime 1 (Batch.format options))).

Definition is_completed (p : ExportProgress) : bool :=
  match p_status p with Completed => true | _ => false end.

Definition is_error (p : ExportProgress) : bool :=
  match p_status p with Error => true | _ => false end.

Definition completedCount (exportProgress : list ExportProgress) : nat :=
  List.length (filter is_completed exportProgress).

Definition errorCount (exportProgress : list ExportProgress) : nat :=
  List.length (filter is_error exportProgress).

(** The value of the progress bar, a percentage. *)
Definition progressPercentage (exportProgress : list ExportProgress) : Q :=
  if 0 <? List.length exportProgress
  then ((inject_Z (Z.of_nat (completedCount exportProgress + errorCount exportProgress))
         / inject_Z (Z.of_nat (List.length exportProgress))) * 100)%Q
  else 0%Q.

(** The estimated times of the entries, added up. *)
Definition total_estimate (exportProgress : list ExportProgress) : nat :=
  list_sum (map (fun p => match p_estimatedTime p with Some t => t | None => 0 end)
                exportProgress).

End Dialog.

(* ================================================================== *)
(** ** Values with dollar signs, and the tokens of a substituted text *)

Module SubstValues.

Import Subst TemplateVariable.

(** A value in which no dollar sign starts a replacement pattern: each
    one is the last character, or is followed by a character other
    than a dollar sign, an ampersand, a backtick and a single quote. *)
Fixpoint plain_dollars (v : string) : bool :=
  match v with
  | EmptyString => true
  | String c rest =>
      (if ascii_eqb c "$" then
         match rest with
         | EmptyString => true
         | String d _ =>
             negb (ascii_eqb d "$" || ascii_eqb d "&" || ascii_eqb d "`"
                   || ascii_eqb d "'")
         end
       else true)
      && plain_dollars rest
  end.

(** A token after the substitution: the placeholder of a listed
    variable has become a piece, the value of the variable. *)
Definition substituted_token (variables : list TemplateVariable.t) (t : token) : token :=
  match t with
  | Lit piece => Lit piece
  | Ph n =>
      match lookup n variables with
      | Some v => Lit (defaultValue v)
      | None => Ph n
      end
  end.

Definition substituted (variables : list TemplateVariable.t) (ts : list token)
    : list token :=
  map (substituted_token variables) ts.

End SubstValues.

(* ================================================================== *)
(** ** Sample data with dates *)

Module DatedSamples.

(** A parser of dates that knows two instants. *)
Definition parse (s : string) : option Z :=
  if String.eqb s "2024-01-01T00:00:00.000Z" then Some 1704067200000%Z
  else if String.eqb s "2024-03-01T00:00:00.000Z" then Some 1709251200000%Z
  else None.

Definition env : Env :=
  mkEnv 1711929600000%Z parse
        (fun t => Combine.string_of_Z (t / 86400000))
        (fun t => Combine.string_of_Z t).

Definition report (rid generated : string) (start stop : option string) : ReportData :=
  mkReport rid "Report" "weekly" "body" "summary" "[]" "next steps"
           generated start stop None.

(** A report of March without a period, a report of March about
    January, and a report whose date is not a date. *)
Definition march : ReportData :=
  report "r1" "2024-03-01T00:00:00.000Z" None None.

Definition about_january : ReportData :=
  report "r2" "2024-03-01T00:00:00.000Z"
         (Some "2024-01-01T00:00:00.000Z") (Some "2024-01-01T00:00:00.000Z").

Definition undated : ReportData := report "r3" "soon" None None.

End DatedSamples.

(* ================================================================== *)
(** ** Sample templates *)

Module TemplateSamples.

(** A template without header and footer that shows the sections
    asked for, and no custom section. *)
Definition showing (s h c r : bool) : ExportTemplate :=
  mkTemplate "t2" "Plain" "a plain template" [pdf; word; markdown]
    (Header.mk false EmptyString 80%Q "#2563eb" "#ffffff"
       18%Q AlignCenter false None false false)
    (Footer.mk false EmptyString 60%Q "#f8fafc" "#64748b" 12%Q AlignCenter
       false None false false)
    (Styling.mk "#2563eb" "#059669" "Inter" 14%Q (16 # 10)%Q
       (Styling.mkMargins 40%Q 40%Q 40%Q 40%Q) (Styling.mkSpacing 32%Q 16%Q))
    (Sections.mk s h c r [])
    [] "2024-01-01" "2024-01-01" false.

Definition plain : ExportTemplate := showing true true true true.

End TemplateSamples.

(* ================================================================== *)
(** ** The events of one task of a batch *)

Module BatchTrace.

Import Batch.

Section Expected.

Variable renders : Format -> option ExportTemplate -> ReportData -> bool.
Variable reports : list ReportData.
Variable options : BatchExportOptions.

(** [if (globalIndex > 0 && delayBetweenExports > 0) await new Promise(...)]. *)
Definition delay_events (globalIndex : nat) : list event :=
  if (0 <? globalIndex) && (0 <? delay_or_default options)
  then [EvDelay (delay_or_default options)] else [].

(** [onProgress?.(completed, reports.length, report.title)]. *)
Definition progress_events (completed : nat) (report : ReportData) : list event :=
  match onProgress options with
  | Some _ => [EvProgress completed (List.length reports) (title report)]
  | None => []
  end.

(** [onError?.(report._id, error)] for the error of an exporter. *)
Definition error_events (report : ReportData) : list event :=
  match onError options with
  | Some _ => [EvError (_id report) (ErrorObj (export_failed_msg (format options)))]
  | None => []
  end.

(** What one task does, from its first line to its last, when the
    callbacks return: the wait, the first progress call, the export,
    and then the second progress call or the error call. *)
Definition task_events (t : nat * ReportData) : list event :=
  let (globalIndex, report) := t in
  delay_events globalIndex
  ++ progress_events globalIndex report
  ++ (if outcome_of renders options report
      then EvExport report true :: progress_events (globalIndex + 1) report
      else EvExport report false :: error_events report).

(** The progress calls of one task. *)
Definition progress_of (t : nat * ReportData) : list (nat * nat * string) :=
  let (globalIndex, report) := t in
  (globalIndex, List.length reports, title report)
  :: (if outcome_of renders options report
      then [(globalIndex + 1, List.length reports, title report)] else []).

End Expected.

(** Whether an event belongs to a task: all but the marks of the chunks. *)
Definition is_task_event (ev : event) : bool :=
  match ev with
  | EvBatch _ => false
  | _ => true
  end.

(** The timers a trace records, in order. *)
Definition delays_of (tr : list event) : list nat :=
  flat_map (fun ev => match ev with EvDelay ms => [ms] | _ => [] end) tr.

(** Each report with its index in the list, the [globalIndex] of its task. *)
Definition indexed (reports : list ReportData) : list (nat * ReportData) :=
  mapi (fun report index => (index, report)) reports.

(** The tasks of the chunk of index [k], in the order in which they
    end. *)
Definition chunk_tasks (schedule : list (nat * ReportData) -> list (nat * ReportData))
    (size : nat) (reports : list ReportData) (k : nat) : list (nat * ReportData) :=
  schedule (mapi (fun report batchIndex => (k * size + batchIndex, report))
                 (slice reports (k * size) (k * size + size))).

End BatchTrace.

(* ================================================================== *)
(** ** File names: the last lines of the three exporters *)

Module Filename.

(** Whether [/[a-z0-9]/i] matches a code unit: a digit or a letter of
    either case.  No code unit from 128 to 255 has an upper case
    among these. *)
Definition is_alnum (c : ascii) : bool :=
  let n := nat_of_ascii c in
  ((48 <=? n) && (n <=? 57)) || ((65 <=? n) && (n <=? 90))
  || ((97 <=? n) && (n <=? 122)).

(** [toLowerCase] on one code unit below 256: the capital letters of
    ASCII and of Latin-1 (the multiplication sign is not a letter). *)
Definition to_lower (c : ascii) : ascii :=
  let n := nat_of_ascii c in
  if ((65 <=? n) && (n <=? 90))
     || ((192 <=? n) && (n <=? 222) && negb (n =? 215))
  then ascii_of_nat (n + 32) else c.

Fixpoint map_chars (f : ascii -> ascii) (s : string) : string :=
  match s with
  | EmptyString => EmptyString
  | String c s' => String (f c) (map_chars f s')
  end.

(** [s.replace(/[^a-z0-9]/gi, '_')]. *)
Definition replace_unsafe (s : string) : string :=
  map_chars (fun c => if is_alnum c then c else "_"%char) s.

Definition toLowerCase (s : string) : string := map_chars to_lower s.

(** [report.title.replace(/[^a-z0-9]/gi, '_').toLowerCase()]. *)
Definition slug (title : string) : string := toLowerCase (replace_unsafe title).

Definition extension (fmt : Format) : string :=
  match fmt with
  | pdf => ".pdf"
  | word => ".docx"
  | markdown => ".md"
  end.

(** The name under which an exporter saves a report. *)
Definition filename (fmt : Format) (report : ReportData) : string :=
  slug (title report) +++ extension fmt.

(** A character of a slug: a digit, a small letter or the underscore. *)
Definition is_slug_char (c : ascii) : bool :=
  let n := nat_of_ascii c in
  ((48 <=? n) && (n <=? 57)) || ((97 <=? n) && (n <=? 122)) || (n =? 95).

End Filename.

(* ================================================================== *)
(** * Properties *)

(** ** Validation *)

Section ValidationFacts.

Import Validation.

Lemma truthy_string_nonempty (s : string) :
  s <> EmptyString -> truthy_string s = true.
Proof. destruct s; [congruence | reflexivity]. Qed.

Lemma check_report_well_formed (report : ReportData) (index : nat) :
  well_formed report -> check_report report index = [].
Proof.
  intros [Ht Hc]. unfold check_report.
  rewrite (truthy_string_nonempty Ht), (truthy_string_nonempty Hc).
  reflexivity.
Qed.

Lemma checks_well_formed (reports : list ReportData) :
  Forall well_formed reports ->
  forall i, List.concat (mapi_from i check_report reports) = [].
Proof.
  induction 1 as [| r rs Hr _ IH]; intro i; simpl.
  - reflexivity.
  - rewrite (check_report_well_formed i Hr), IH. reflexivity.
Qed.

(** C9.  [validateReportsForExport] is a total function (it cannot
    throw) and returns exactly the applicable problems: one error for
    an empty selection; one error, about the limit of 50, for 51
    reports with non-blank titles and contents; the two errors of a
    single report whose title and content are both blank; no error for
    1 to 50 reports with non-blank titles and contents. *)
Theorem validate_contract :
  validateReportsForExport [] = [no_reports_msg]
  /\ (forall reports,
        List.length reports = 51 -> Forall well_formed reports ->
        validateReportsForExport reports = [too_many_msg])
  /\ (forall report,
        blank (title report) -> blank (content report) ->
        validateReportsForExport [report]
        = [no_title_msg 0; no_content_msg report])
  /\ (forall reports,
        1 <= List.length reports <= 50 -> Forall well_formed reports ->
        validateReportsForExport reports = []).
Proof.
  repeat split.
  - intros reports Hlen Hwf. unfold validateReportsForExport, mapi.
    rewrite Hlen, (checks_well_formed Hwf). reflexivity.
  - intros report Ht Hc. unfold validateReportsForExport, mapi, check_report.
    unfold blank in Ht, Hc. simpl. rewrite Ht, Hc. reflexivity.
  - intros reports [Hlo Hhi] Hwf. unfold validateReportsForExport, mapi.
    rewrite (checks_well_formed Hwf).
    destruct (Nat.eqb_spec (List.length reports) 0) as [E | _]; [lia |].
    destruct (Nat.ltb_spec 50 (List.length reports)) as [L | _]; [lia |].
    reflexivity.
Qed.

Lemma trim_head_not_blank (c : ascii) (s : string) :
  is_white_space c = false -> trim (String c s) <> EmptyString.
Proof.
  intro Hc. unfold trim. simpl trimStart. rewrite Hc. simpl.
  destruct (trimEnd s); [rewrite Hc |]; discriminate.
Qed.

Lemma samples_well_formed (n : nat) : Forall well_formed (Samples.reports n).
Proof.
  unfold Samples.reports. apply Forall_forall. intros r Hin.
  apply in_map_iff in Hin. destruct Hin as (k & <- & _).
  split; apply trim_head_not_blank; reflexivity.
Qed.

Lemma validate_contract_witness :
  validateReportsForExport (Samples.reports 51) = [too_many_msg]
  /\ validateReportsForExport [Samples.blank_report]
     = [no_title_msg 0; no_content_msg Samples.blank_report]
  /\ validateReportsForExport (Samples.reports 3) = [].
Proof.
  destruct validate_contract as (_ & H51 & Hblank & Hok).
  split; [| split].
  - apply H51; [reflexivity | apply samples_well_formed].
  - apply Hblank; reflexivity.
  - apply Hok; [simpl; lia | apply samples_well_formed].
Defined.

End ValidationFacts.

(** ** Pagination *)

Section PdfFacts.

Import Pdf.

Local Open Scope Q_scope.

Lemma Qfloor_unique (y : Q) (z : Z) :
  inject_Z z <= y -> y < inject_Z (z + 1) -> Qfloor y = z.
Proof.
  intros Hlo Hhi.
  assert (H1 : (Qfloor y < z + 1)%Z).
  { rewrite Zlt_Qlt. eapply Qle_lt_trans; [apply Qfloor_le | exact Hhi]. }
  assert (H2 : (z < Qfloor y + 1)%Z).
  { rewrite Zlt_Qlt. eapply Qle_lt_trans; [exact Hlo | apply Qlt_floor]. }
  lia.
Qed.

Lemma bands_step (heightLeft : Q) :
  bands (heightLeft - pageHeight) = (bands heightLeft - 1)%Z.
Proof.
  unfold bands.
  assert (E : (heightLeft - pageHeight) / pageHeight
              == heightLeft / pageHeight - 1) by (unfold pageHeight; field).
  rewrite E. apply Qfloor_unique.
  - unfold Z.sub. rewrite inject_Z_plus. unfold Qminus.
    apply Qplus_le_l. apply Qfloor_le.
  - replace (Qfloor (heightLeft / pageHeight) - 1 + 1)%Z
      with (Qfloor (heightLeft / pageHeight) + 1 + -1)%Z by lia.
    rewrite inject_Z_plus. unfold Qminus.
    apply Qplus_lt_l. apply Qlt_floor.
Qed.

Lemma bands_nonneg (heightLeft : Q) :
  0 <= heightLeft <-> (0 <= bands heightLeft)%Z.
Proof.
  unfold bands, pageHeight. split; intro H.
  - change 0%Z with (Qfloor 0). apply Qfloor_resp_le.
    apply Qle_shift_div_l; [reflexivity |]. rewrite Qmult_0_l. exact H.
  - assert (Hq : 0 <= heightLeft / 295).
    { eapply Qle_trans; [| apply Qfloor_le].
      change 0 with (inject_Z 0). rewrite <- Zle_Qle. exact H. }
    setoid_replace heightLeft with (heightLeft / 295 * 295) by field.
    apply Qmult_le_0_compat; [exact Hq | discriminate].
Qed.

(** The loop runs once for each band and stops: with at least
    [k] units of fuel it adds [k] pages, where [k] counts the bands. *)
Lemma page_loop_count (imgHeight : Q) (k : nat) :
  forall heightLeft pages fuel,
    Z.to_nat (bands heightLeft + 1) = k -> (k <= fuel)%nat ->
    exists pages',
      page_loop fuel imgHeight heightLeft pages = Some pages'
      /\ List.length pages' = (List.length pages + k)%nat.
Proof.
  induction k as [| k IH]; intros heightLeft pages fuel Hk Hfuel.
  - assert (Hneg : Qle_bool 0 heightLeft = false).
    { destruct (Qle_bool 0 heightLeft) eqn:E; [| reflexivity].
      apply Qle_bool_iff, bands_nonneg in E. lia. }
    exists pages. split; [| lia].
    destruct fuel; simpl; rewrite Hneg; reflexivity.
  - assert (Hpos : Qle_bool 0 heightLeft = true).
    { apply Qle_bool_iff, bands_nonneg. lia. }
    destruct fuel as [| fuel]; [lia |].
    simpl. rewrite Hpos.
    destruct (IH (heightLeft - pageHeight)
                 (pages ++ [mkPage (heightLeft - imgHeight)]) fuel)
      as (pages' & Hrun & Hlen).
    + rewrite bands_step. lia.
    + lia.
    + exists pages'. split; [exact Hrun |].
      rewrite Hlen, length_app. simpl. lia.
Qed.

Lemma canvas_bands (canvas_height canvas_width : positive) :
  Qfloor (imgHeight_of_canvas canvas_height canvas_width / 295)
  = (Zpos canvas_height * 210 / (Zpos canvas_width * 295))%Z.
Proof.
  assert (E : imgHeight_of_canvas canvas_height canvas_width / 295
              == (Zpos canvas_height * 210) # (canvas_width * 295)).
  { unfold imgHeight_of_canvas, imgWidth, Qeq, Qdiv, Qmult, Qinv. simpl. lia. }
  rewrite E. reflexivity.
Qed.

Lemma canvas_height_nonneg (canvas_height canvas_width : positive) :
  0 <= imgHeight_of_canvas canvas_height canvas_width.
Proof.
  unfold imgHeight_of_canvas, imgWidth, Qle, Qdiv, Qmult, Qinv. simpl. lia.
Qed.

(** C3.  For every bitmap height [h >= 0] the page loop terminates
    (some amount of fuel is enough, and any larger amount gives the
    same count) and the document has [1 + floor (h / 295)] pages; when
    [h] is [N * 295] it has [N + 1] pages.  For the height that
    [exportToPDF] computes from a canvas the count is
    [1 + (height * 210) / (width * 295)], with the division of
    integers. *)
Theorem paginate_page_count :
  (forall h : Q, 0 <= h ->
     forall fuel, (Z.to_nat (Qfloor (h / 295)) <= fuel)%nat ->
     exists pages,
       paginate fuel h = Some pages
       /\ List.length pages = (1 + Z.to_nat (Qfloor (h / 295)))%nat)
  /\ (forall (N : nat) (h : Q), h == inject_Z (Z.of_nat N) * 295 ->
      exists pages,
        paginate N h = Some pages /\ List.length pages = (N + 1)%nat)
  /\ (forall canvas_height canvas_width : positive,
      exists pages,
        paginate (Z.to_nat (Zpos canvas_height * 210 / (Zpos canvas_width * 295)))
                 (imgHeight_of_canvas canvas_height canvas_width) = Some pages
        /\ List.length pages
           = (1 + Z.to_nat (Zpos canvas_height * 210 / (Zpos canvas_width * 295)))%nat).
Proof.
  assert (Hmain : forall h : Q, 0 <= h ->
     forall fuel, (Z.to_nat (Qfloor (h / 295)) <= fuel)%nat ->
     exists pages,
       paginate fuel h = Some pages
       /\ List.length pages = (1 + Z.to_nat (Qfloor (h / 295)))%nat).
  { intros h Hh fuel Hfuel. unfold paginate.
    pose proof (proj1 (bands_nonneg h) Hh) as Hb.
    destruct (@page_loop_count h (Z.to_nat (bands h)) (h - pageHeight)
                [mkPage 0] fuel) as (pages & Hrun & Hlen).
    - rewrite bands_step. f_equal. lia.
    - exact Hfuel.
    - exists pages. split; [exact Hrun |]. rewrite Hlen. reflexivity. }
  split; [exact Hmain |].
  split.
  2:{ intros canvas_height canvas_width.
      rewrite <- canvas_bands. apply Hmain; [apply canvas_height_nonneg | lia]. }
  intros N h HN.
  assert (Hfloor : Qfloor (h / 295) = Z.of_nat N).
  { rewrite HN.
    setoid_replace (inject_Z (Z.of_nat N) * 295 / 295) with (inject_Z (Z.of_nat N))
      by field.
    apply Qfloor_Z. }
  destruct (Hmain h) with (fuel := N) as (pages & Hrun & Hlen).
  - rewrite HN. apply Qmult_le_0_compat; [| discriminate].
    rewrite <- (Qfloor_Z (Z.of_nat N)) at 1.
    change 0 with (inject_Z 0). rewrite <- Zle_Qle. rewrite Qfloor_Z. lia.
  - rewrite Hfloor. lia.
  - exists pages. split; [exact Hrun |]. rewrite Hlen, Hfloor. lia.
Qed.

Lemma paginate_page_count_witness :
  (exists pages, paginate 2 (590 # 1) = Some pages /\ List.length pages = 3%nat)
  /\ (exists pages, paginate 1 (1475 # 5) = Some pages /\ List.length pages = 2%nat).
Proof.
  destruct paginate_page_count as (Hall & Hexact & _).
  split.
  - destruct (Hall (590 # 1)) with (fuel := 2%nat) as (pages & Hrun & Hlen).
    + discriminate.
    + vm_compute. lia.
    + exists pages. split; [exact Hrun | exact Hlen].
  - apply (Hexact 1%nat (1475 # 5)). reflexivity.
Defined.

End PdfFacts.


(** ** Strings *)

Section StringFacts.

Lemma append_assoc (a b c : string) : (a +++ b) +++ c = a +++ (b +++ c).
Proof. induction a as [| x a IH]; simpl; [reflexivity | now rewrite IH]. Qed.

Lemma append_empty_r (a : string) : a +++ EmptyString = a.
Proof. induction a as [| x a IH]; simpl; [reflexivity | now rewrite IH]. Qed.

Lemma length_append (a b : string) :
  String.length (a +++ b) = String.length a + String.length b.
Proof. induction a as [| x a IH]; simpl; [reflexivity | now rewrite IH]. Qed.

End StringFacts.

(** ** The sort of the custom sections *)

Section SortFacts.

Import Markdown.



Lemma insert_by_order_sorted (x : CustomSection.t) (l : list CustomSection.t) :
  Sorted le_order l -> Sorted le_order (insert_by_order x l).
Proof.
  induction 1 as [| y l Hs IH Hhd]; simpl.
  - repeat constructor.
  - destruct (Z.ltb_spec (CustomSection.order y) (CustomSection.order x)) as [Hlt | Hge].
    + constructor; [exact IH |].
      destruct l as [| z l]; simpl.
      * constructor. unfold le_order. lia.
      * destruct (Z.ltb_spec (CustomSection.order z) (CustomSection.order x)).
        -- constructor. inversion Hhd; assumption.
        -- constructor. unfold le_order. lia.
    + constructor; [constructor; assumption |].
      constructor. exact Hge.
Qed.

Lemma sort_by_order_sorted (l : list CustomSection.t) :
  Sorted le_order (sort_by_order l).
Proof.
  induction l as [| x l IH]; simpl.
  - constructor.
  - apply insert_by_order_sorted, IH.
Qed.

(** The sort does nothing to an array that is in order. *)
Lemma sort_by_order_of_sorted (l : list CustomSection.t) :
  Sorted le_order l -> sort_by_order l = l.
Proof.
  induction 1 as [| x l Hs IH Hhd]; simpl; [reflexivity |].
  fold (sort_by_order l). rewrite IH.
  destruct Hhd as [| y l Hxy]; simpl; [reflexivity |].
  destruct (Z.ltb_spec (CustomSection.order y) (CustomSection.order x)) as [Hlt | _].
  - unfold le_order in Hxy. lia.
  - reflexivity.
Qed.

Lemma sort_by_order_idempotent (l : list CustomSection.t) :
  sort_by_order (sort_by_order l) = sort_by_order l.
Proof. apply sort_by_order_of_sorted, sort_by_order_sorted. Qed.



End SortFacts.

(** ** Markdown rendering *)

Section MarkdownFacts.

Import Markdown.






Lemma with_sorted_sections_idempotent (template : ExportTemplate) :
  with_sorted_sections (with_sorted_sections template) = with_sorted_sections template.
Proof.
  unfold with_sorted_sections. simpl. now rewrite sort_by_order_idempotent.
Qed.

(** C7, as the code has it.  The markdown renderer reads the clock
    when the header is enabled and shows the date, so its output is a
    function of the report, the template and the environment.  Two
    invocations in the same environment give the same string, also
    when the second one finds the template as the first one left it;
    with the header disabled or its date off the string does not depend
    on the clock; the renderer without a template never reads it. *)
Theorem markdown_deterministic_given_clock :
  (forall env h,
     fst (generateTemplatedMarkdown env (snd (generateTemplatedMarkdown env h)))
     = fst (generateTemplatedMarkdown env h))
  /\ (forall env1 env2 h,
        Date_parse env1 = Date_parse env2 ->
        format_locale_date env1 = format_locale_date env2 ->
        Header.enabled (header (h_template h)) && Header.showDate (header (h_template h))
        = false ->
        fst (generateTemplatedMarkdown env1 h) = fst (generateTemplatedMarkdown env2 h))
  /\ (forall env1 env2 report,
        Date_parse env1 = Date_parse env2 ->
        format_locale_date env1 = format_locale_date env2 ->
        generateMarkdown env1 report = generateMarkdown env2 report).
Proof.
  split; [| split].
  - intros env [report template]. unfold generateTemplatedMarkdown.
    cbn [fst snd h_report h_template].
    rewrite with_sorted_sections_idempotent. reflexivity.
  - intros env1 env2 [report template] Hp Hf Hdate.
    cbn [h_template] in Hdate.
    unfold generateTemplatedMarkdown. cbn [fst h_report h_template].
    assert (Hh : header_block env1 template = header_block env2 template).
    { unfold header_block.
      destruct (Header.enabled (header template)); [| reflexivity].
      destruct (Header.showDate (header template)); [discriminate | reflexivity]. }
    assert (Ht : title_block env1 report = title_block env2 report).
    { unfold title_block, periodInfo, toLocaleDateString. rewrite Hp, Hf. reflexivity. }
    rewrite Hh, Ht. reflexivity.
  - intros env1 env2 report Hp Hf.
    unfold generateMarkdown, periodInfo, toLocaleDateString. rewrite Hp, Hf. reflexivity.
Qed.

Lemma markdown_deterministic_given_clock_witness :
  fst (generateTemplatedMarkdown (Samples.env_at 0)
         (mkHeap (Samples.numbered 1) (Samples.template_with false [])))
  = fst (generateTemplatedMarkdown (Samples.env_at 86400000)
           (mkHeap (Samples.numbered 1) (Samples.template_with false [])))
  /\ generateMarkdown (Samples.env_at 0) (Samples.numbered 1)
     = generateMarkdown (Samples.env_at 86400000) (Samples.numbered 1).
Proof.
  destruct markdown_deterministic_given_clock as (_ & Hoff & Hplain).
  split.
  - apply Hoff; reflexivity.
  - apply Hplain; reflexivity.
Defined.

(** C7, as stated, fails: with a header that shows the date, the same
    report and template rendered on two different days give two
    different strings. *)
Lemma markdown_not_deterministic_with_date :
  fst (generateTemplatedMarkdown (Samples.env_at 0)
         (mkHeap (Samples.numbered 1) (Samples.template_with true [])))
  <> fst (generateTemplatedMarkdown (Samples.env_at 86400000)
            (mkHeap (Samples.numbered 1) (Samples.template_with true []))).
Proof. vm_compute. discriminate. Qed.

End MarkdownFacts.

(** ** Variable substitution *)

Section SubstFacts.

Import Subst TemplateVariable.

Lemma placeholder_unfold (n : string) :
  placeholder_of n = String "{" (n +++ "}").
Proof. reflexivity. Qed.

Lemma placeholder_length (n : string) :
  String.length (placeholder_of n) = S (S (String.length n)).
Proof.
  rewrite placeholder_unfold. simpl. rewrite length_append. simpl. lia.
Qed.

Lemma getSubstitution_no_dollar (matched before after value : string) :
  no_dollar value = true ->
  getSubstitution matched before after value = value.
Proof.
  unfold no_dollar. induction value as [| c value IH]; simpl; [reflexivity |].
  intro H. apply andb_true_iff in H. destruct H as [Hc Hrest].
  apply negb_true_iff in Hc. rewrite Hc, (IH Hrest). reflexivity.
Qed.

(** The characters of a match that remain to be passed are passed. *)
Lemma replace_scan_skip (pat value whole a s : string) :
  forall pos,
    replace_scan pat value whole pos (String.length a) (a +++ s)
    = replace_scan pat value whole (pos + String.length a) 0 s.
Proof.
  induction a as [| c a IH]; intro pos; simpl.
  - rewrite Nat.add_0_r. destruct s; reflexivity.
  - rewrite IH. replace (pos + S (String.length a)) with (S pos + String.length a) by lia.
    reflexivity.
Qed.

(** A piece without an opening brace is copied. *)
Lemma replace_scan_piece (n value whole a s : string) :
  no_open_brace a = true ->
  forall pos,
    replace_scan (placeholder_of n) value whole pos 0 (a +++ s)
    = a +++ replace_scan (placeholder_of n) value whole (pos + String.length a) 0 s.
Proof.
  unfold no_open_brace. induction a as [| c a IH]; intros H pos.
  - simpl. rewrite Nat.add_0_r. reflexivity.
  - simpl in H. apply andb_true_iff in H. destruct H as [Hc Ha].
    apply negb_true_iff in Hc. unfold ascii_eqb in Hc. apply Ascii.eqb_neq in Hc.
    cbn [String.append replace_scan]. rewrite placeholder_unfold.
    cbn [String.prefix].
    destruct (ascii_dec "{" c) as [E | _]; [congruence |].
    rewrite <- placeholder_unfold. rewrite (IH Ha). simpl String.length.
    replace (pos + S (String.length a)) with (S pos + String.length a) by lia.
    reflexivity.
Qed.

Lemma prefix_append (a s : string) : String.prefix a (a +++ s) = true.
Proof.
  induction a as [| c a IH]; simpl; [destruct s; reflexivity |].
  destruct (ascii_dec c c); [exact IH | congruence].
Qed.

(** A placeholder of the variable is replaced by the value. *)
Lemma replace_scan_match (n value whole s : string) :
  no_dollar value = true ->
  forall pos,
    replace_scan (placeholder_of n) value whole pos 0 (placeholder_of n +++ s)
    = value
      +++ replace_scan (placeholder_of n) value whole
            (pos + String.length (placeholder_of n)) 0 s.
Proof.
  intros Hv pos.
  pose proof (prefix_append (placeholder_of n) s) as Hp.
  rewrite placeholder_unfold in *. cbn [String.append replace_scan].
  cbn [String.append] in Hp. rewrite Hp.
  rewrite getSubstitution_no_dollar by exact Hv. f_equal.
  replace (String.length (String "{" (n +++ "}")) - 1)
    with (String.length (n +++ "}")) by (simpl; lia).
  rewrite replace_scan_skip.
  replace (pos + String.length (String "{" (n +++ "}")))
    with (S pos + String.length (n +++ "}")) by (simpl; lia).
  reflexivity.
Qed.

Lemma literal_name_no_brace (n : string) :
  literal_name n = true -> all_chars no_brace n = true.
Proof.
  destruct n as [| c0 n0]; [reflexivity |].
  unfold literal_name. intro H. apply andb_true_iff in H. destruct H as [_ H].
  revert H. generalize (String c0 n0). clear. intro n.
  induction n as [| c n IH]; simpl; [reflexivity |].
  intro H. apply andb_true_iff in H. destruct H as [Hc Hn].
  rewrite (IH Hn), andb_true_r.
  apply negb_true_iff in Hc. unfold no_brace, ascii_eqb.
  destruct (Ascii.eqb_spec c "{") as [-> | _]; [discriminate Hc |].
  destruct (Ascii.eqb_spec c "}") as [-> | _]; [discriminate Hc |].
  reflexivity.
Qed.

Lemma no_brace_no_open (n : string) :
  all_chars no_brace n = true -> no_open_brace n = true.
Proof.
  unfold no_open_brace. induction n as [| c n IH]; simpl; [reflexivity |].
  intro H. apply andb_true_iff in H. destruct H as [Hc Hn].
  unfold no_brace in Hc. apply andb_true_iff in Hc. destruct Hc as [Hc _].
  rewrite Hc, (IH Hn). reflexivity.
Qed.

(** Two names without braces, each followed by a closing brace: one
    text starts with the other only when the names are the same. *)
Lemma prefix_closed_names (n m s : string) :
  all_chars no_brace n = true -> all_chars no_brace m = true ->
  String.prefix (n +++ "}") (m +++ "}" +++ s) = true -> n = m.
Proof.
  revert m. induction n as [| c n IH]; intros m Hn Hm Hp.
  - destruct m as [| d m]; [reflexivity |].
    cbn [String.prefix String.append] in Hp.
    cbn [all_chars] in Hm. apply andb_true_iff in Hm. destruct Hm as [Hd _].
    destruct (ascii_dec "}" d) as [E | _]; [| discriminate Hp].
    subst d. vm_compute in Hd. discriminate Hd.
  - cbn [all_chars] in Hn. apply andb_true_iff in Hn. destruct Hn as [Hc Hn].
    destruct m as [| d m].
    + cbn [String.prefix String.append] in Hp.
      destruct (ascii_dec c "}") as [E | _]; [| discriminate Hp].
      subst c. vm_compute in Hc. discriminate Hc.
    + cbn [String.prefix String.append] in Hp.
      cbn [all_chars] in Hm. apply andb_true_iff in Hm. destruct Hm as [_ Hm].
      destruct (ascii_dec c d) as [E | _]; [| discriminate Hp].
      subst d. f_equal. eapply IH; eassumption.
Qed.

(** A placeholder of another name is copied. *)
Lemma replace_scan_other (n m value whole s : string) :
  literal_name n = true -> literal_name m = true -> n <> m ->
  forall pos,
    replace_scan (placeholder_of n) value whole pos 0 (placeholder_of m +++ s)
    = placeholder_of m
      +++ replace_scan (placeholder_of n) value whole
            (pos + String.length (placeholder_of m)) 0 s.
Proof.
  intros Hn Hm Hneq pos.
  apply literal_name_no_brace in Hn, Hm.
  rewrite (placeholder_unfold m). cbn [String.append replace_scan].
  rewrite append_assoc.
  assert (Hp : String.prefix (placeholder_of n) (String "{" (m +++ "}" +++ s)) = false).
  { rewrite placeholder_unfold. cbn [String.prefix].
    destruct (ascii_dec "{" "{") as [_ | C]; [| congruence].
    destruct (String.prefix (n +++ "}") (m +++ "}" +++ s)) eqn:E; [| reflexivity].
    exfalso. apply Hneq. eapply prefix_closed_names; eassumption. }
  rewrite Hp. f_equal.
  rewrite <- append_assoc.
  rewrite replace_scan_piece.
  - replace (pos + String.length (String "{" (m +++ "}")))
      with (S pos + String.length (m +++ "}")) by (simpl; lia).
    reflexivity.
  - unfold no_open_brace. clear -Hm.
    induction m as [| d m IH]; [reflexivity |].
    simpl in *. apply andb_true_iff in Hm. destruct Hm as [Hd Hm].
    unfold no_brace in Hd. apply andb_true_iff in Hd. destruct Hd as [Hd _].
    rewrite Hd. exact (IH Hm).
Qed.

Lemma render_app (a b : list token) : render (a ++ b) = render a +++ render b.
Proof.
  induction a as [| t a IH]; simpl; [reflexivity |].
  rewrite IH, append_assoc. reflexivity.
Qed.

(** One replacement, seen on the tokens of the text. *)
Lemma replace_scan_tokens (n whole : string) (tv ts : list token) :
  literal_name n = true -> no_dollar (render tv) = true ->
  forallb wf_token ts = true ->
  forall pos,
    replace_scan (placeholder_of n) (render tv) whole pos 0 (render ts)
    = render (expand n tv ts).
Proof.
  intros Hn Hv. induction ts as [| t ts IH]; intros Hts pos.
  - reflexivity.
  - cbn [forallb] in Hts. apply andb_true_iff in Hts. destruct Hts as [Ht Hts].
    unfold expand. cbn [flat_map render]. rewrite render_app. fold (expand n tv ts).
    destruct t as [piece | m]; cbn [render_token expand_token wf_token] in *.
    + rewrite replace_scan_piece by exact Ht. rewrite (IH Hts).
      simpl. rewrite append_empty_r. reflexivity.
    + destruct (String.eqb_spec m n) as [-> | Hneq].
      * rewrite replace_scan_match by exact Hv. rewrite (IH Hts). reflexivity.
      * rewrite replace_scan_other; [| assumption | assumption | congruence].
        rewrite (IH Hts). simpl. rewrite append_empty_r. reflexivity.
Qed.

Lemma replace_global_tokens (n : string) (tv ts : list token) :
  literal_name n = true -> no_dollar (render tv) = true ->
  forallb wf_token ts = true ->
  replace_global (placeholder_of n) (render tv) (render ts)
  = render (expand n tv ts).
Proof. intros. unfold replace_global. now apply replace_scan_tokens. Qed.

Lemma expand_wf (n : string) (tv ts : list token) :
  forallb wf_token tv = true -> forallb wf_token ts = true ->
  forallb wf_token (expand n tv ts) = true.
Proof.
  intros Htv. induction ts as [| t ts IH]; intro Hts; [reflexivity |].
  cbn [forallb] in Hts. apply andb_true_iff in Hts. destruct Hts as [Ht Hts].
  unfold expand. cbn [flat_map]. rewrite forallb_app. fold (expand n tv ts).
  rewrite (IH Hts), andb_true_r.
  destruct t as [piece | m]; cbn [expand_token].
  - cbn [forallb]. now rewrite Ht.
  - destruct (String.eqb m n); [exact Htv |]. cbn [forallb]. now rewrite Ht.
Qed.

Lemma substitute_tokens_app (vars : list TemplateVariable.t) (a b : list token) :
  substitute_tokens vars (a ++ b)
  = substitute_tokens vars a +++ substitute_tokens vars b.
Proof.
  induction a as [| t a IH]; simpl; [reflexivity |].
  rewrite IH, append_assoc. reflexivity.
Qed.

(** Tokens that name no listed variable stay as they are. *)
Lemma substitute_tokens_unlisted (vars : list TemplateVariable.t) (ts : list token) :
  (forall n, In (Ph n) ts -> lookup n vars = None) ->
  substitute_tokens vars ts = render ts.
Proof.
  induction ts as [| t ts IH]; intro H; [reflexivity |].
  cbn [substitute_tokens render]. rewrite IH by (intros n Hin; apply H; now right).
  f_equal. destruct t as [piece | m]; [reflexivity |].
  cbn [substitute_token render_token]. rewrite (H m) by now left. reflexivity.
Qed.

Lemma substitute_tokens_expand (v : TemplateVariable.t) (vs : list TemplateVariable.t)
    (tv ts : list token) :
  defaultValue v = render tv ->
  (forall n, In (Ph n) tv -> lookup n vs = None) ->
  substitute_tokens vs (expand (name v) tv ts) = substitute_tokens (v :: vs) ts.
Proof.
  intros Hv Hfree. induction ts as [| t ts IH]; [reflexivity |].
  unfold expand. cbn [flat_map]. rewrite substitute_tokens_app.
  fold (expand (name v) tv ts). rewrite IH. cbn [substitute_tokens]. f_equal.
  destruct t as [piece | m]; cbn [expand_token substitute_token lookup].
  - simpl. apply append_empty_r.
  - rewrite (String.eqb_sym (name v) m).
    destruct (String.eqb m (name v)).
    + rewrite substitute_tokens_unlisted by exact Hfree. now rewrite Hv.
    + simpl. apply append_empty_r.
Qed.

Lemma replaceVariables_tokens (vars : list TemplateVariable.t) :
  Forall (fun v => literal_name (name v) = true) vars ->
  Forall (fun v => no_dollar (defaultValue v) = true) vars ->
  settled vars ->
  forall ts, forallb wf_token ts = true ->
    replaceVariables (render ts) vars = substitute_tokens vars ts.
Proof.
  induction vars as [| v vs IH]; intros Hnames Hvalues Hsettled ts Hts.
  - unfold replaceVariables. simpl. symmetry.
    apply substitute_tokens_unlisted. reflexivity.
  - inversion Hnames as [| ? ? Hn Hnames']; subst.
    inversion Hvalues as [| ? ? Hd Hvalues']; subst.
    destruct Hsettled as [(tv & Hv & Htv & Hfree) Hsettled'].
    unfold replaceVariables. cbn [fold_left]. fold (replaceVariables).
    rewrite Hv in Hd |- *. rewrite replace_global_tokens by assumption.
    change (replaceVariables (render (expand (name v) tv ts)) vs
            = substitute_tokens (v :: vs) ts).
    rewrite IH; try assumption.
    + apply substitute_tokens_expand; assumption.
    + now apply expand_wf.
Qed.

Lemma render_single (t : token) : render [t] = render_token t.
Proof. simpl. apply append_empty_r. Qed.

Lemma all_chars_append (p : ascii -> bool) (a b : string) :
  all_chars p (a +++ b) = all_chars p a && all_chars p b.
Proof.
  induction a as [| c a IH]; simpl; [reflexivity |].
  rewrite IH, andb_assoc. reflexivity.
Qed.

Lemma literal_name_no_dollar (n : string) :
  literal_name n = true -> no_dollar (placeholder_of n) = true.
Proof.
  intro H. unfold no_dollar. rewrite placeholder_unfold.
  cbn [all_chars]. rewrite all_chars_append. simpl.
  rewrite andb_true_r.
  destruct n as [| c0 n0]; [reflexivity |].
  unfold literal_name in H. apply andb_true_iff in H. destruct H as [_ H].
  revert H. generalize (String c0 n0). clear. intro n.
  induction n as [| c n IH]; simpl; [reflexivity |].
  intro H. apply andb_true_iff in H. destruct H as [Hc Hn].
  rewrite (IH Hn), andb_true_r.
  apply negb_true_iff in Hc. unfold ascii_eqb.
  destruct (Ascii.eqb_spec c "$") as [-> | _]; [discriminate Hc | reflexivity].
Qed.

(** A text that is one placeholder becomes the value. *)
Lemma replace_global_single (n value : string) :
  literal_name n = true -> no_dollar value = true ->
  replace_global (placeholder_of n) value (placeholder_of n) = value.
Proof.
  intros Hn Hv.
  assert (H : replace_global (placeholder_of n) (render [Lit value]) (render [Ph n])
              = render (expand n [Lit value] [Ph n])).
  { apply replace_global_tokens.
    - exact Hn.
    - rewrite render_single. exact Hv.
    - simpl. now rewrite Hn. }
  unfold expand in H. cbn [flat_map expand_token] in H.
  rewrite String.eqb_refl in H. cbn [app] in H.
  rewrite !render_single in H. exact H.
Qed.

(** C4, as the code has it.  For variables whose names are matched
    literally and whose values hold no dollar sign, on a text made of
    pieces and placeholders: when no value holds the placeholder of a
    variable listed after it, every placeholder of a listed variable
    is replaced by the value of the first variable of that name, as
    it is, and every other placeholder stays as it is.  The variables
    are applied one after the other to the whole text, values already
    inserted included: a value [{b}] of [a] is replaced in its turn
    when [b] is listed after [a], and is kept when [b] is listed
    before [a]. *)
Theorem replaceVariables_in_list_order :
  (forall vars ts,
     Forall (fun v => literal_name (name v) = true) vars ->
     Forall (fun v => no_dollar (defaultValue v) = true) vars ->
     settled vars ->
     forallb wf_token ts = true ->
     replaceVariables (render ts) vars = substitute_tokens vars ts)
  /\ (forall text vs1 vs2,
        replaceVariables text (vs1 ++ vs2)
        = replaceVariables (replaceVariables text vs1) vs2)
  /\ (forall a b x,
        literal_name a = true -> literal_name b = true -> a <> b ->
        no_dollar x = true -> no_open_brace x = true ->
        replaceVariables (placeholder_of a)
          [variable a (placeholder_of b); variable b x] = x
        /\ replaceVariables (placeholder_of a)
             [variable b x; variable a (placeholder_of b)] = placeholder_of b).
Proof.
  split; [| split].
  - intros vars ts Hn Hv Hs Hts. now apply replaceVariables_tokens.
  - intros text vs1 vs2. unfold replaceVariables. apply fold_left_app.
  - intros a b x Ha Hb Hab Hx Hxb. split.
    + unfold replaceVariables, variable. cbn [fold_left name defaultValue].
      rewrite replace_global_single by (try apply literal_name_no_dollar; assumption).
      apply replace_global_single; assumption.
    + change (placeholder_of a) with (render_token (Ph a)) at 1.
      rewrite <- (render_single (Ph a)).
      rewrite replaceVariables_tokens.
      * cbn [substitute_tokens substitute_token lookup variable name defaultValue].
        destruct (String.eqb_spec b a) as [E | _]; [congruence |].
        rewrite String.eqb_refl. apply append_empty_r.
      * repeat constructor; assumption.
      * repeat constructor; cbn [variable defaultValue];
          [exact Hx | now apply literal_name_no_dollar].
      * cbn [settled variable defaultValue]. repeat split.
        -- exists [Lit x]. rewrite render_single. repeat split.
           ++ simpl. now rewrite Hxb.
           ++ intros n [Hin | []]. discriminate Hin.
        -- exists [Ph b]. rewrite render_single. repeat split.
           ++ simpl. now rewrite Hb.
      * simpl. now rewrite Ha.
Qed.

Lemma replaceVariables_in_list_order_witness :
  replaceVariables (placeholder_of "a") [variable "a" (placeholder_of "b"); variable "b" "x"]
  = "x"
  /\ replaceVariables (placeholder_of "a") [variable "b" "x"; variable "a" (placeholder_of "b")]
     = placeholder_of "b"
  /\ replaceVariables
       (render [Lit "Dear "; Ph "name"; Lit ", "; Ph "Name"; Ph "name"])
       [variable "name" "Ada"]
     = "Dear Ada, {Name}Ada".
Proof.
  destruct replaceVariables_in_list_order as (Htok & _ & Hord).
  destruct (Hord "a" "b" "x") as [H1 H2];
    [reflexivity | reflexivity | discriminate | reflexivity | reflexivity |].
  split; [exact H1 | split; [exact H2 |]].
  rewrite Htok.
  - reflexivity.
  - repeat constructor.
  - repeat constructor.
  - cbn [settled]. split; [| exact I].
    exists [Lit "Ada"]. split; [reflexivity | split; [reflexivity |]].
    intros n [Hin | []]. discriminate Hin.
  - reflexivity.
Defined.

(** C4, as stated, fails.  The replacement is not a single pass over
    the text: the value [{b}] of [a] is replaced by the value of [b]
    when [b] is listed after [a], so that the result differs from the
    text with each placeholder replaced by the value of its variable.
    Nor is a value always inserted as it is: [$$] in a value comes out
    as a single dollar sign. *)
Lemma replaceVariables_not_single_pass :
  replaceVariables (placeholder_of "a") [variable "a" (placeholder_of "b"); variable "b" "x"]
  = "x"
  /\ substitute_tokens [variable "a" (placeholder_of "b"); variable "b" "x"] [Ph "a"]
     = placeholder_of "b"
  /\ replaceVariables (render [Ph "a"]) [variable "a" (placeholder_of "b"); variable "b" "x"]
     <> substitute_tokens [variable "a" (placeholder_of "b"); variable "b" "x"] [Ph "a"]
  /\ replaceVariables (placeholder_of "a") [variable "a" "$$"] = "$".
Proof. vm_compute. repeat split. discriminate. Qed.

End SubstFacts.

(** ** Batch orchestration *)

Section BatchFacts.

Import Batch.

Variable renders : Format -> option ExportTemplate -> ReportData -> bool.
Variable schedule : list (nat * ReportData) -> list (nat * ReportData).
Variable reports : list ReportData.
Variable options : BatchExportOptions.

Hypothesis schedule_perm : forall tasks, Permutation tasks (schedule tasks).
Hypothesis onProgress_returns : progress_returns options.
Hypothesis onError_returns : error_returns options.

Lemma batches_of_app (a b : list event) :
  batches_of (a ++ b) = batches_of a ++ batches_of b.
Proof. apply flat_map_app. Qed.

Lemma exports_of_app (a b : list event) :
  exports_of (a ++ b) = exports_of a ++ exports_of b.
Proof. apply flat_map_app. Qed.

Lemma error_calls_of_app (a b : list event) :
  error_calls_of (a ++ b) = error_calls_of a ++ error_calls_of b.
Proof. apply flat_map_app. Qed.

(** A task whose callbacks return settles: it counts its report once,
    exports it once, and calls [onError] when the export failed. *)
Lemma task_effect (globalIndex : nat) (report : ReportData) (st : state) :
  exists evs,
    task renders reports options globalIndex report st
    = Normal (mkState (settle (outcome_of renders options report)
                              (entry_of options report) (result st))
                      (trace st ++ evs))
    /\ batches_of evs = []
    /\ exports_of evs = [(report, outcome_of renders options report)]
    /\ error_calls_of evs = error_call_of renders options report.
Proof.
  unfold task, task_try, call_onProgress, call_onError, exportSingle,
    error_call_of, outcome_of, entry_of, settle.
  destruct (onProgress options) as [f |] eqn:Ep;
    destruct (renders (format options) (template options) report) eqn:Er;
    destruct (onError options) as [g |] eqn:Ee;
    destruct ((0 <? globalIndex) && (0 <? delay_or_default options));
    rewrite ?(onProgress_returns Ep), ?(onError_returns Ee);
    unfold emit, incr_successful, record_failure; simpl;
    rewrite ?(onProgress_returns Ep), ?(onError_returns Ee); simpl;
    rewrite <- ?app_assoc;
    (eexists; split; [reflexivity | repeat split; reflexivity]).
Qed.

Lemma settle_all_app (a b : list ReportData) (r : BatchExportResult) :
  settle_all renders options (a ++ b) r
  = settle_all renders options b (settle_all renders options a r).
Proof. apply fold_left_app. Qed.

(** The tasks of a chunk, in any order, all settle. *)
Lemma run_tasks_effect (tasks : list (nat * ReportData)) :
  forall st,
  exists evs,
    run_tasks renders reports options tasks st
    = Normal (mkState (settle_all renders options (map snd tasks) (result st))
                      (trace st ++ evs))
    /\ batches_of evs = []
    /\ exports_of evs
       = map (fun r => (r, outcome_of renders options r)) (map snd tasks)
    /\ error_calls_of evs
       = flat_map (error_call_of renders options) (map snd tasks).
Proof.
  induction tasks as [| [i r] tasks IH]; intro st.
  - exists []. rewrite app_nil_r. destruct st. repeat split.
  - destruct (task_effect i r st) as (evs1 & Ht & Hb1 & Hx1 & He1).
    cbn [run_tasks]. rewrite Ht. cbn [bind].
    destruct (IH (mkState (settle (outcome_of renders options r)
                                  (entry_of options r) (result st))
                          (trace st ++ evs1)))
      as (evs2 & Hr & Hb2 & Hx2 & He2).
    exists (evs1 ++ evs2). rewrite Hr. cbn [result trace map snd].
    rewrite app_assoc. split; [reflexivity |].
    rewrite batches_of_app, exports_of_app, error_calls_of_app.
    rewrite Hb1, Hb2, Hx1, Hx2, He1, He2. cbn [flat_map]. repeat split.
Qed.

Lemma mapi_from_snd (i j : nat) (batch : list ReportData) :
  map snd (mapi_from j (fun report batchIndex => (i + batchIndex, report)) batch)
  = batch.
Proof.
  revert j. induction batch as [| r batch IH]; intro j; simpl; [reflexivity |].
  now rewrite IH.
Qed.

(** A chunk settles as a whole: its reports are processed in the
    order of the schedule. *)
Lemma run_batch_effect (i : nat) (batch : list ReportData) (st : state) :
  exists processed evs,
    run_batch renders schedule reports options i batch st
    = Normal (mkState (settle_all renders options processed (result st))
                      (trace st ++ evs))
    /\ Permutation batch processed
    /\ batches_of evs = [batch]
    /\ exports_of evs = map (fun r => (r, outcome_of renders options r)) processed
    /\ error_calls_of evs = flat_map (error_call_of renders options) processed.
Proof.
  unfold run_batch.
  set (tasks := schedule (mapi (fun report batchIndex => (i + batchIndex, report)) batch)).
  destruct (run_tasks_effect tasks (emit (EvBatch batch) st))
    as (evs & Hr & Hb & Hx & He).
  exists (map snd tasks), (EvBatch batch :: evs).
  rewrite Hr. unfold emit. cbn [result trace]. rewrite <- app_assoc.
  split; [reflexivity |]. repeat split.
  - rewrite <- (mapi_from_snd i 0 batch) at 1.
    apply Permutation_map. apply schedule_perm.
  - change (EvBatch batch :: evs) with ([EvBatch batch] ++ evs).
    rewrite batches_of_app, Hb. reflexivity.
  - change (EvBatch batch :: evs) with ([EvBatch batch] ++ evs).
    rewrite exports_of_app, Hx. reflexivity.
  - change (EvBatch batch :: evs) with ([EvBatch batch] ++ evs).
    rewrite error_calls_of_app, He. reflexivity.
Qed.

(** [chunk_count] counts the iterations of the loop. *)
Lemma chunk_count_spec (size n j : nat) :
  1 <= size -> (j * size < n <-> j < chunk_count size n).
Proof.
  intro Hs. unfold chunk_count. split; intro H.
  - apply (Nat.div_le_lower_bound (n + size - 1) size (S j)); lia.
  - destruct (Nat.lt_ge_cases (j * size) n) as [Hlt | Hge]; [exact Hlt |].
    exfalso.
    assert (Hd : (n + size - 1) / size < S j)
      by (apply Nat.Div0.div_lt_upper_bound; lia).
    lia.
Qed.

Lemma skipn_past_end {A} (l : list A) (i : nat) :
  List.length l <= i -> skipn i l = [].
Proof. intro H. apply skipn_all2. exact H. Qed.

Lemma slice_skipn {A} (l : list A) (i size : nat) :
  slice l i (i + size) = firstn size (skipn i l).
Proof. unfold slice. f_equal. lia. Qed.

(** The loop from the chunk of index [j] on: with a unit of fuel for
    each remaining chunk it ends, having cut the remaining reports into
    the remaining chunks and settled each of them once. *)
Lemma batch_loop_effect (size : nat) :
  size = batchSize_or_default options -> 1 <= size ->
  forall remaining j fuel st,
    remaining = chunk_count size (List.length reports) - j ->
    j <= chunk_count size (List.length reports) ->
    remaining <= fuel ->
    exists processed evs,
      batch_loop renders schedule reports options fuel (j * size) st
      = Some (Normal (mkState (settle_all renders options processed (result st))
                              (trace st ++ evs)))
      /\ Permutation (skipn (j * size) reports) processed
      /\ batches_of evs
         = map (fun k => slice reports (k * size) (k * size + size)) (seq j remaining)
      /\ exports_of evs = map (fun r => (r, outcome_of renders options r)) processed
      /\ error_calls_of evs = flat_map (error_call_of renders options) processed.
Proof.
  intros Hsize Hpos.
  induction remaining as [| remaining IH]; intros j fuel st Hrem Hj Hfuel.
  - assert (Hend : List.length reports <= j * size).
    { destruct (Nat.lt_ge_cases (j * size) (List.length reports)) as [Hlt | Hge];
        [| exact Hge].
      apply (chunk_count_spec _ _ Hpos) in Hlt. lia. }
    exists [], []. rewrite app_nil_r.
    assert (Hexit : (j * size <? List.length reports) = false)
      by (apply Nat.ltb_ge; exact Hend).
    destruct fuel; cbn [batch_loop]; rewrite Hexit;
      (split; [destruct st; reflexivity |]);
      rewrite (skipn_past_end _ Hend); repeat split; constructor.
  - assert (Hlt : j * size < List.length reports)
      by (apply (chunk_count_spec _ _ Hpos); lia).
    destruct fuel as [| fuel]; [lia |].
    cbn [batch_loop].
    assert (Hgo : (j * size <? List.length reports) = true)
      by (apply Nat.ltb_lt; exact Hlt).
    rewrite Hgo, <- Hsize.
    destruct (run_batch_effect (j * size)
                (slice reports (j * size) (j * size + size)) st)
      as (processed1 & evs1 & Hrun & Hperm1 & Hb1 & Hx1 & He1).
    rewrite Hrun.
    replace (j * size + size) with (S j * size) by (simpl; lia).
    destruct (IH (S j) fuel
                (mkState (settle_all renders options processed1 (result st))
                         (trace st ++ evs1)))
      as (processed2 & evs2 & Hloop & Hperm2 & Hb2 & Hx2 & He2); try lia.
    exists (processed1 ++ processed2), (evs1 ++ evs2).
    rewrite Hloop. cbn [result trace].
    rewrite settle_all_app, app_assoc. split; [reflexivity |].
    rewrite batches_of_app, exports_of_app, error_calls_of_app.
    rewrite Hb1, Hb2, Hx1, Hx2, He1, He2.
    rewrite map_app, flat_map_app. repeat split.
    rewrite <- (firstn_skipn size (skipn (j * size) reports)).
    apply Permutation_app.
    + rewrite <- slice_skipn. exact Hperm1.
    + rewrite skipn_skipn.
      replace (size + j * size) with (S j * size) by (simpl; lia).
      exact Hperm2.
Qed.

Lemma Permutation_filter {A} (p : A -> bool) (l l' : list A) :
  Permutation l l' -> Permutation (filter p l) (filter p l').
Proof.
  induction 1 as [| x l l' _ IH | x y l | l l' l'' _ IH1 _ IH2]; simpl.
  - constructor.
  - destruct (p x); [constructor |]; exact IH.
  - destruct (p x), (p y); try apply Permutation_refl. apply perm_swap.
  - eapply perm_trans; eassumption.
Qed.

(** The result after a list of reports has settled: the successes
    counted, the failures counted and listed in order. *)
Lemma settle_all_result (processed : list ReportData) :
  forall r,
    successful (settle_all renders options processed r)
    = successful r + List.length (filter (outcome_of renders options) processed)
    /\ failed (settle_all renders options processed r)
       = failed r
         + List.length
             (filter (fun x => negb (outcome_of renders options x)) processed)
    /\ errors (settle_all renders options processed r)
       = errors r
         ++ map (entry_of options)
              (filter (fun x => negb (outcome_of renders options x)) processed).
Proof.
  induction processed as [| x processed IH]; intro r.
  - simpl. rewrite app_nil_r. split; [lia | split; [lia | reflexivity]].
  - change (settle_all renders options (x :: processed) r)
      with (settle_all renders options processed
              (settle (outcome_of renders options x) (entry_of options x) r)).
    destruct (IH (settle (outcome_of renders options x) (entry_of options x) r))
      as (Hs & Hf & He).
    rewrite Hs, Hf, He. unfold settle. cbn [filter].
    destruct (outcome_of renders options x); cbn [negb successful failed errors];
      cbn [List.length map]; rewrite <- ?app_assoc; cbn [app];
      (split; [lia | split; [lia | reflexivity]]).
Qed.

Lemma error_calls_of_failures (l : list ReportData) :
  flat_map (error_call_of renders options) l
  = flat_map (fun r => match onError options with
                       | Some _ => [(_id r, ErrorObj (export_failed_msg (format options)))]
                       | None => []
                       end)
      (filter (fun x => negb (outcome_of renders options x)) l).
Proof.
  induction l as [| x l IH]; [reflexivity |].
  cbn [flat_map filter]. unfold error_call_of at 1.
  destruct (outcome_of renders options x); cbn [negb].
  - exact IH.
  - cbn [flat_map]. now rewrite IH.
Qed.

Lemma chunk_count_le (size n : nat) : 1 <= size -> chunk_count size n <= n.
Proof.
  intro Hs. unfold chunk_count.
  assert (H : (n + size - 1) / size < S n)
    by (apply Nat.Div0.div_lt_upper_bound; nia).
  lia.
Qed.

Lemma chunks_concat_from (size : nat) (l : list ReportData) :
  1 <= size ->
  forall remaining j,
    remaining = chunk_count size (List.length l) - j ->
    j <= chunk_count size (List.length l) ->
    List.concat (map (fun k => slice l (k * size) (k * size + size)) (seq j remaining))
    = skipn (j * size) l.
Proof.
  intro Hs. induction remaining as [| remaining IH]; intros j Hrem Hj.
  - simpl. symmetry. apply skipn_past_end.
    destruct (Nat.lt_ge_cases (j * size) (List.length l)) as [Hlt | Hge];
      [| exact Hge].
    apply (chunk_count_spec _ _ Hs) in Hlt. lia.
  - cbn [seq map List.concat]. rewrite IH by lia.
    rewrite slice_skipn.
    replace (S j * size) with (size + j * size) by (simpl; lia).
    rewrite <- skipn_skipn. apply firstn_skipn.
Qed.

Lemma chunks_concat (size : nat) (l : list ReportData) :
  1 <= size -> List.concat (chunks_of size l) = l.
Proof.
  intro Hs. unfold chunks_of.
  rewrite (chunks_concat_from l Hs) with (j := 0); [reflexivity | lia | lia].
Qed.

Lemma slice_length (l : list ReportData) (i size : nat) :
  List.length (slice l i (i + size)) = Nat.min size (List.length l - i).
Proof. rewrite slice_skipn, length_firstn, length_skipn. reflexivity. Qed.

Lemma chunks_lengths (size : nat) (l : list ReportData) :
  map (@List.length ReportData) (chunks_of size l)
  = map (fun k => Nat.min size (List.length l - k * size))
        (seq 0 (chunk_count size (List.length l))).
Proof.
  unfold chunks_of. rewrite map_map. apply map_ext.
  intro k. apply slice_length.
Qed.

(** Every chunk holds between 1 and [size] reports, and [size] of
    them unless it is the last. *)
Lemma chunks_shape (size : nat) (l : list ReportData) :
  1 <= size ->
  forall k b, nth_error (chunks_of size l) k = Some b ->
    b = slice l (k * size) (k * size + size)
    /\ 1 <= List.length b <= size
    /\ (S k < List.length (chunks_of size l) -> List.length b = size).
Proof.
  intros Hs k b Hk.
  assert (Hlen : List.length (chunks_of size l) = chunk_count size (List.length l))
    by (unfold chunks_of; now rewrite length_map, length_seq).
  assert (Hlt : k < chunk_count size (List.length l)).
  { rewrite <- Hlen. apply nth_error_Some. congruence. }
  unfold chunks_of in Hk.
  rewrite nth_error_map, nth_error_seq in Hk.
  destruct (Nat.ltb_spec k (chunk_count size (List.length l))) as [_ | C]; [| lia].
  cbn [Nat.add] in Hk. injection Hk as <-.
  split; [reflexivity |].
  rewrite slice_length.
  apply (chunk_count_spec _ _ Hs) in Hlt.
  split; [lia |].
  rewrite Hlen. intro Hnext.
  apply (chunk_count_spec _ _ Hs) in Hnext. simpl in Hnext. lia.
Qed.

(** The whole run, when the callbacks return. *)
Lemma batchExport_effect (size : nat) :
  size = batchSize_or_default options -> 1 <= size ->
  forall fuel, List.length reports <= fuel ->
    exists processed st,
      batchExport renders schedule reports options fuel = Some (Normal st)
      /\ result st = settle_all renders options processed (mkResult 0 0 [])
      /\ Permutation reports processed
      /\ batches_of (trace st) = chunks_of size reports
      /\ exports_of (trace st)
         = map (fun r => (r, outcome_of renders options r)) processed
      /\ error_calls_of (trace st)
         = flat_map (error_call_of renders options) processed.
Proof.
  intros Hsize Hpos fuel Hfuel.
  pose proof (chunk_count_le (List.length reports) Hpos) as Hcount.
  destruct (@batch_loop_effect size Hsize Hpos
              (chunk_count size (List.length reports)) 0 fuel initial_state)
    as (processed & evs & Hloop & Hperm & Hb & Hx & He); try lia.
  exists processed. eexists. unfold batchExport.
  change 0 with (0 * size) at 1. rewrite Hloop.
  split; [reflexivity |]. cbn [result trace initial_state app].
  repeat split; assumption.
Qed.

(** C1, as the code has it.  When the two callbacks return on every
    call and [batchSize >= 1], [batchExport] ends (a unit of fuel for
    each report is enough) and returns a result; the chunks it formed
    are the consecutive pieces of [batchSize] reports, the last one
    possibly shorter, none empty (5, 5 and 2 for 12 reports in chunks
    of 5); [successful + failed] is the number of reports and the
    error list has [failed] entries. *)
Theorem batchExport_chunks_and_counts (size : nat) :
  size = batchSize_or_default options -> 1 <= size ->
  forall fuel, List.length reports <= fuel ->
    exists st,
      batchExport renders schedule reports options fuel = Some (Normal st)
      /\ successful (result st) + failed (result st) = List.length reports
      /\ List.length (errors (result st)) = failed (result st)
      /\ batches_of (trace st) = chunks_of size reports
      /\ List.concat (batches_of (trace st)) = reports
      /\ (forall k b, nth_error (batches_of (trace st)) k = Some b ->
            b = slice reports (k * size) (k * size + size)
            /\ 1 <= List.length b <= size
            /\ (S k < List.length (batches_of (trace st)) -> List.length b = size))
      /\ (List.length reports = 12 -> size = 5 ->
          map (@List.length ReportData) (batches_of (trace st)) = [5; 5; 2]).
Proof.
  intros Hsize Hpos fuel Hfuel.
  destruct (batchExport_effect Hsize Hpos Hfuel)
    as (processed & st & Hrun & Hres & Hperm & Hb & _ & _).
  exists st. split; [exact Hrun |].
  destruct (settle_all_result processed (mkResult 0 0 [])) as (Hs & Hf & He).
  rewrite Hres, Hs, Hf, He, Hb. cbn [successful failed errors app Nat.add].
  repeat split.
  - rewrite filter_length. symmetry. apply Permutation_length. exact Hperm.
  - apply length_map.
  - apply chunks_concat. exact Hpos.
  - eapply chunks_shape; eassumption.
  - eapply chunks_shape; eassumption.
  - eapply chunks_shape; eassumption.
  - eapply chunks_shape; eassumption.
  - intros H12 H5. rewrite chunks_lengths, H12, H5. reflexivity.
Qed.

Lemma filter_none {A} (p : A -> bool) (l : list A) :
  (forall j x, nth_error l j = Some x -> p x = false) -> filter p l = [].
Proof.
  induction l as [| y l IH]; intro H; [reflexivity |].
  simpl. rewrite (H 0 y eq_refl). apply IH.
  intros j x Hj. exact (H (S j) x Hj).
Qed.

(** The one element of a list that satisfies a test which holds at
    one index only. *)
Lemma filter_single {A} (p : A -> bool) (l : list A) :
  forall k x,
    nth_error l k = Some x ->
    (forall j y, nth_error l j = Some y -> (p y = true <-> j = k)) ->
    filter p l = [x].
Proof.
  induction l as [| y l IH]; intros k x Hk Honly.
  - destruct k; discriminate Hk.
  - destruct k as [| k].
    + injection Hk as ->. simpl.
      rewrite (proj2 (Honly 0 x eq_refl) eq_refl). f_equal.
      apply filter_none. intros j z Hj.
      destruct (p z) eqn:E; [| reflexivity].
      apply (Honly (S j) z Hj) in E. discriminate E.
    + simpl. destruct (p y) eqn:E.
      * apply (Honly 0 y eq_refl) in E. discriminate E.
      * apply (IH k x Hk). intros j z Hj. split; intro H.
        -- apply (Honly (S j) z Hj) in H. now injection H.
        -- apply (Honly (S j) z Hj). now f_equal.
Qed.

(** C2, as the code has it.  When the two callbacks return on every
    call, [batchSize >= 1], and the export of the report at one index
    [k] fails while the export of every other report succeeds:
    [batchExport] returns a result (it does not throw) with
    [failed = 1], [successful = n - 1] and one entry in [errors], with
    the identifier of that report and the message of the error;
    [onError], when there is one, is called once, with that
    identifier; every report is exported once, and every chunk is
    processed. *)
Theorem batchExport_contains_failure (size k : nat) (failing : ReportData) :
  size = batchSize_or_default options -> 1 <= size ->
  nth_error reports k = Some failing ->
  (forall j r, nth_error reports j = Some r ->
     (outcome_of renders options r = false <-> j = k)) ->
  forall fuel, List.length reports <= fuel ->
    exists st,
      batchExport renders schedule reports options fuel = Some (Normal st)
      /\ failed (result st) = 1
      /\ successful (result st) = List.length reports - 1
      /\ errors (result st)
         = [mkEntry (_id failing) (export_failed_msg (format options))]
      /\ error_calls_of (trace st)
         = match onError options with
           | Some _ => [(_id failing, ErrorObj (export_failed_msg (format options)))]
           | None => []
           end
      /\ Permutation (exports_of (trace st))
           (map (fun r => (r, outcome_of renders options r)) reports)
      /\ (forall j r, nth_error reports j = Some r -> j <> k ->
            In (r, true) (exports_of (trace st)))
      /\ batches_of (trace st) = chunks_of size reports.
Proof.
  intros Hsize Hpos Hk Honly fuel Hfuel.
  destruct (batchExport_effect Hsize Hpos Hfuel)
    as (processed & st & Hrun & Hres & Hperm & Hb & Hx & He).
  exists st. split; [exact Hrun |].
  destruct (settle_all_result processed (mkResult 0 0 [])) as (Hs & Hf & Herrs).
  assert (Hfail : filter (fun x => negb (outcome_of renders options x)) processed
                  = [failing]).
  { apply Permutation_length_1_inv.
    rewrite <- (@filter_single _ (fun x => negb (outcome_of renders options x))
                  reports k failing Hk).
    - apply Permutation_filter. exact Hperm.
    - intros j y Hj. rewrite negb_true_iff. apply Honly. exact Hj. }
  pose proof (filter_length (outcome_of renders options) processed) as Hpart.
  rewrite Hfail in Hpart, Hf, Herrs. cbn [List.length map] in Hpart, Hf, Herrs.
  rewrite (Permutation_length Hperm).
  rewrite Hres, Hs, Hf, Herrs, He, Hx, Hb.
  rewrite error_calls_of_failures, Hfail.
  cbn [successful failed errors app Nat.add flat_map].
  repeat split.
  - lia.
  - destruct (onError options); reflexivity.
  - apply Permutation_map. apply Permutation_sym. exact Hperm.
  - intros j r Hj Hne.
    assert (Hok : outcome_of renders options r = true).
    { destruct (outcome_of renders options r) eqn:E; [reflexivity |].
      apply (Honly j r Hj) in E. contradiction. }
    rewrite <- Hok. apply in_map_iff. exists r. split; [reflexivity |].
    eapply Permutation_in; [exact Hperm |]. eapply nth_error_In; exact Hj.
Qed.

End BatchFacts.

Section BatchExamples.

Import Batch.

Lemma options_with_progress_returns (size : option nat) :
  progress_returns (Samples.options_with size).
Proof. intros f H. injection H as <-. reflexivity. Qed.

Lemma options_with_error_returns (size : option nat) :
  error_returns (Samples.options_with size).
Proof. intros f H. injection H as <-. reflexivity. Qed.

Lemma reversed_perm (tasks : list (nat * ReportData)) :
  Permutation tasks (Samples.reversed tasks).
Proof. apply Permutation_rev. Qed.

Lemma batchExport_chunks_and_counts_witness :
  exists st,
    batchExport Samples.always_renders Samples.reversed (Samples.reports 12)
      (Samples.options_with (Some 5)) 12 = Some (Normal st)
    /\ successful (result st) + failed (result st) = 12
    /\ List.length (errors (result st)) = failed (result st)
    /\ map (@List.length ReportData) (batches_of (trace st)) = [5; 5; 2].
Proof.
  destruct (@batchExport_chunks_and_counts Samples.always_renders Samples.reversed
              (Samples.reports 12) (Samples.options_with (Some 5))
              reversed_perm (@options_with_progress_returns (Some 5))
              (@options_with_error_returns (Some 5)) 5 eq_refl)
    with (fuel := 12) as (st & Hrun & Hsum & Herrs & _ & _ & _ & H12).
  - lia.
  - simpl. lia.
  - exists st. repeat split; try assumption. apply H12; reflexivity.
Defined.

(** C1, as stated, fails.  A progress callback that throws on the
    notification that follows a successful export has its report
    counted twice, as a success and as a failure: for one report the
    result has [successful + failed = 2].  And with an error callback
    that throws there is no result: [batchExport] throws. *)
Lemma batchExport_counts_twice_when_progress_throws :
  (exists st,
     batchExport Samples.always_renders Samples.in_order [Samples.numbered 0]
       (mkOptions markdown None (Some Samples.progress_throws_when_done) None None None)
       1 = Some (Normal st)
     /\ successful (result st) = 1
     /\ failed (result st) = 1
     /\ successful (result st) + failed (result st) <> List.length [Samples.numbered 0])
  /\ batchExport (Samples.fails_on "r0") Samples.in_order [Samples.numbered 0]
       (mkOptions markdown None None (Some Samples.error_throws) None None) 1
     = Some (Throw (ErrorObj "error handler failed")).
Proof.
  split; [| vm_compute; reflexivity].
  eexists. split; [vm_compute; reflexivity |].
  simpl. repeat split. discriminate.
Qed.

Lemma sample_only_failure :
  forall j r, nth_error (Samples.reports 10) j = Some r ->
    (outcome_of (Samples.fails_on "r3") (Samples.options_with None) r = false
     <-> j = 3).
Proof.
  intros j r H.
  do 10 (destruct j as [| j];
         [injection H as <-; vm_compute;
          split; intro X; first [discriminate X | reflexivity] |]).
  destruct j; discriminate H.
Qed.

Lemma batchExport_contains_failure_witness :
  exists st,
    batchExport (Samples.fails_on "r3") Samples.reversed (Samples.reports 10)
      (Samples.options_with None) 10 = Some (Normal st)
    /\ failed (result st) = 1
    /\ successful (result st) = 9
    /\ errors (result st) = [mkEntry "r3" "Failed to export Markdown. Please try again."]
    /\ error_calls_of (trace st)
       = [("r3", ErrorObj "Failed to export Markdown. Please try again.")].
Proof.
  destruct (@batchExport_contains_failure (Samples.fails_on "r3") Samples.reversed
              (Samples.reports 10) (Samples.options_with None)
              reversed_perm (@options_with_progress_returns None)
              (@options_with_error_returns None) 5 3 (Samples.numbered 3) eq_refl)
    with (fuel := 10) as (st & Hrun & Hf & Hs & He & Hc & _).
  - lia.
  - reflexivity.
  - exact sample_only_failure.
  - simpl. lia.
  - exists st. repeat split; assumption.
Defined.

(** C2, as stated, fails.  An [onError] callback that throws rejects
    the task from inside its [catch] block: [batchExport] throws
    instead of returning a result, and the reports of the following
    chunks are not exported.  And a progress callback that throws on
    the notification that precedes the export of another report makes
    that report fail too, without an export: of two reports of which
    only the first fails to export, both are counted as failed. *)
Lemma batchExport_throws_when_onError_throws :
  batchExport (Samples.fails_on "r0") Samples.in_order (Samples.reports 2)
    (mkOptions markdown None None (Some Samples.error_throws) (Some 1) None) 2
  = Some (Throw (ErrorObj "error handler failed"))
  /\ (exists st,
        batchExport (Samples.fails_on "r0") Samples.in_order (Samples.reports 2)
          (mkOptions markdown None (Some Samples.progress_throws_when_done) None
             None None) 2
        = Some (Normal st)
        /\ failed (result st) = 2
        /\ successful (result st) = 0
        /\ exports_of (trace st) = [(Samples.numbered 0, false)]).
Proof.
  split; [vm_compute; reflexivity |].
  eexists. split; [vm_compute; reflexivity |].
  repeat split.
Qed.

End BatchExamples.

(** ** JSON: reading back what was written *)

Section JsonFacts.

Import Json.














Lemma is_digit_cases (c : ascii) :
  is_digit c = true ->
  c = "0"%char \/ c = "1"%char \/ c = "2"%char \/ c = "3"%char \/ c = "4"%char
  \/ c = "5"%char \/ c = "6"%char \/ c = "7"%char \/ c = "8"%char \/ c = "9"%char.
Proof.
  destruct c as [[] [] [] [] [] [] [] []]; intro H; try discriminate H; tauto.
Qed.



Lemma span_digits_spec (s : string) :
  forall d r, span_digits s = (d, r) ->
    s = d +++ r /\ all_digits d = true /\ starts_with_digit r = false.
Proof.
  induction s as [| c s IH]; intros d r H.
  - injection H as <- <-. repeat split.
  - cbn [span_digits] in H. destruct (is_digit c) eqn:Ec.
    + destruct (span_digits s) as [d' r'] eqn:E. injection H as <- <-.
      destruct (IH d' r' eq_refl) as (-> & Hd & Hr).
      repeat split; [| exact Hr]. unfold all_digits. cbn. rewrite Ec. exact Hd.
    + injection H as <- <-. repeat split. exact Ec.
Qed.

Lemma span_digits_exact (d t : string) :
  all_digits d = true -> starts_with_digit t = false ->
  span_digits (d +++ t) = (d, t).
Proof.
  unfold all_digits. induction d as [| c d IH]; intros Hd Ht.
  - destruct t as [| c t]; [reflexivity |]. cbn in *. now rewrite Ht.
  - cbn in Hd. apply andb_true_iff in Hd. destruct Hd as [Hc Hd].
    cbn [String.append span_digits]. rewrite Hc, (IH Hd Ht). reflexivity.
Qed.

Lemma digit_is_not (c : ascii) :
  is_digit c = true ->
  ascii_eqb c "-" = false /\ ascii_eqb c "." = false /\ ascii_eqb c "+" = false
  /\ (ascii_eqb c "e" || ascii_eqb c "E") = false.
Proof.
  intro H. apply is_digit_cases in H.
  repeat (destruct H as [-> | H]; [repeat split |]). subst c. repeat split.
Qed.

(** *** The text of a number is a number literal *)















(** Numbers as they are read and printed: a literal is rounded to the
    nearest double and printed in the shortest form that is read back
    as that double; a literal that is too large is an infinity, printed
    as [null], and one that is too small is zero. *)
Lemma number_examples :
  map (fun text =>
         match JSON_parse text with
         | Normal v => JSON_stringify v
         | Throw _ => "throws"
         end)
      ["1.0"; "100"; "1e21"; "1E5"; "-0"; "0.1"; "0.30000000000000004";
       "123456789012345678901234567890"; "9007199254740993"; "1e23";
       "0.000001"; "0.0000001"; "5e-324"; "2.4e-324"; "1.7976931348623158e308";
       "1e400"; "-1e400"; "1e-400"; "01"; "1."; ".5"; "+1"; "1e"; "-"]
  = ["1"; "100"; "1e+21"; "100000"; "0"; "0.1"; "0.30000000000000004";
     "1.2345678901234568e+29"; "9007199254740992"; "1e+23";
     "0.000001"; "1e-7"; "5e-324"; "0"; "1.7976931348623157e+308";
     "null"; "null"; "0"; "throws"; "throws"; "throws"; "throws"; "throws"; "throws"].
Proof. vm_compute. reflexivity. Qed.







Lemma parsed_form_items (items : list json) :
  parsed_form (JArr items) -> forall x, In x items -> parsed_form x.
Proof.
  induction items as [| y items IH]; intros H x Hin; [destruct Hin |].
  cbn in H. destruct H as [Hy Hrest].
  destruct Hin as [<- | Hin]; [exact Hy | exact (IH Hrest x Hin)].
Qed.








(** The parts of a literal are read back from the literal. *)
Lemma take_sign_out (s sign s1 t : string) :
  take_sign s = (sign, s1) -> starts_with_digit t = true ->
  take_sign (sign +++ t) = (sign, t).
Proof.
  intros H Ht. destruct s as [| c s].
  - injection H as <- <-. destruct t as [| c t]; [discriminate Ht |].
    cbn in *. now rewrite (proj1 (@digit_is_not c Ht)).
  - cbn [take_sign] in H. destruct (ascii_eqb c "-").
    + injection H as <- <-. reflexivity.
    + injection H as <- <-. destruct t as [| d t]; [discriminate Ht |].
      cbn in *. now rewrite (proj1 (@digit_is_not d Ht)).
Qed.

Lemma take_int_out (s int s2 : string) :
  take_int s = (int, s2) -> truthy_string int = true ->
  (forall t, starts_with_digit (int +++ t) = true)
  /\ (forall t, starts_with_digit t = false -> take_int (int +++ t) = (int, t)).
Proof.
  intros H Hint. destruct s as [| c s].
  - injection H as <- <-. discriminate Hint.
  - cbn [take_int] in H. destruct (ascii_eqb c "0") eqn:E0.
    + injection H as <- <-. split; reflexivity.
    + destruct (@span_digits_spec (String c s) int s2 H) as (Hs & Hd & _).
      destruct int as [| c' int']; [discriminate Hint |].
      cbn [String.append] in Hs. injection Hs as <- _.
      split.
      * intro t. unfold all_digits in Hd. cbn in Hd.
        apply andb_true_iff in Hd. cbn. tauto.
      * intros t Ht. cbn [String.append take_int]. rewrite E0.
        apply (span_digits_exact (String c int') t Hd Ht).
Qed.

Lemma take_frac_out (s fr s3 : string) :
  take_frac s = Some (fr, s3) ->
  (forall t, stops_fraction t = true -> starts_with_digit (fr +++ t) = false)
  /\ (forall t, stops_fraction t = true -> take_frac (fr +++ t) = Some (fr, t)).
Proof.
  intro H. destruct s as [| c s].
  - injection H as <- <-. split; intros t Ht.
    + destruct t as [| d t]; [reflexivity |]. cbn in *.
      apply andb_true_iff in Ht. destruct Ht as [Ht _]. now apply negb_true_iff.
    + destruct t as [| d t]; [reflexivity |]. cbn in *.
      apply andb_true_iff in Ht. destruct Ht as [_ Ht].
      apply negb_true_iff in Ht. now rewrite Ht.
  - cbn [take_frac] in H. destruct (ascii_eqb c ".") eqn:Edot.
    + destruct (span_digits s) as [d r] eqn:E.
      destruct (truthy_string d) eqn:Ed; [| discriminate H].
      injection H as <- <-.
      destruct (@span_digits_spec s d r E) as (_ & Hd & _).
      unfold ascii_eqb in Edot. apply Ascii.eqb_eq in Edot. subst c.
      split; intros t Ht; [reflexivity |].
      cbn [String.append take_frac]. change (ascii_eqb "." ".") with true. cbv iota.
      rewrite span_digits_exact; [now rewrite Ed | exact Hd |].
      destruct t as [| e t]; [reflexivity |]. cbn in *.
      apply andb_true_iff in Ht. destruct Ht as [Ht _]. now apply negb_true_iff.
    + injection H as <- <-. split; intros t Ht.
      * destruct t as [| d t]; [reflexivity |]. cbn in *.
        apply andb_true_iff in Ht. destruct Ht as [Ht _]. now apply negb_true_iff.
      * destruct t as [| d t]; [reflexivity |]. cbn in *.
        apply andb_true_iff in Ht. destruct Ht as [_ Ht].
        apply negb_true_iff in Ht. now rewrite Ht.
Qed.

Lemma take_exp_sign_out (s sg r1 d : string) :
  take_exp_sign s = (sg, r1) -> truthy_string d = true -> all_digits d = true ->
  take_exp_sign (sg +++ d) = (sg, d).
Proof.
  intros H Hd Hall.
  assert (Hplain : take_exp_sign d = (EmptyString, d)).
  { destruct d as [| c d]; [reflexivity |]. unfold all_digits in Hall. cbn in Hall.
    apply andb_true_iff in Hall. destruct Hall as [Hc _].
    destruct (@digit_is_not c Hc) as (Hm & _ & Hp & _).
    cbn. now rewrite Hp, Hm. }
  destruct s as [| c s].
  - injection H as <- <-. exact Hplain.
  - cbn [take_exp_sign] in H.
    destruct (ascii_eqb c "+" || ascii_eqb c "-") eqn:E.
    + injection H as <- <-. cbn [String.append take_exp_sign]. now rewrite E.
    + injection H as <- <-. exact Hplain.
Qed.

Lemma take_exp_out (s ex s4 : string) :
  take_exp s = Some (ex, s4) ->
  stops_fraction ex = true /\ take_exp ex = Some (ex, EmptyString).
Proof.
  intro H. destruct s as [| c s].
  - injection H as <- <-. split; reflexivity.
  - cbn [take_exp] in H. destruct (ascii_eqb c "e" || ascii_eqb c "E") eqn:Ee.
    + destruct (take_exp_sign s) as [sg r1] eqn:Es.
      destruct (span_digits r1) as [d r2] eqn:Ed.
      destruct (truthy_string d) eqn:Et; [| discriminate H].
      injection H as <- <-.
      destruct (@span_digits_spec r1 d r2 Ed) as (_ & Hd & _).
      split.
      * cbn. unfold ascii_eqb in *.
        destruct (Ascii.eqb_spec c "e") as [-> | _]; [reflexivity |].
        destruct (Ascii.eqb_spec c "E") as [-> | _]; [reflexivity | discriminate Ee].
      * cbn [take_exp]. rewrite Ee.
        rewrite (@take_exp_sign_out s sg r1 d Es Et Hd).
        rewrite <- (append_empty_r d) at 1.
        rewrite span_digits_exact by (exact Hd || reflexivity).
        now rewrite Et.
    + injection H as <- <-. split; reflexivity.
Qed.

(** A literal that [parse_number] returns is read back as itself. *)
Lemma parse_number_literal (s lit r : string) :
  parse_number s = Some (lit, r) -> parse_number lit = Some (lit, EmptyString).
Proof.
  unfold parse_number. intro H.
  destruct (take_sign s) as [sign s1] eqn:Es.
  destruct (take_int s1) as [int s2] eqn:Ei.
  destruct (truthy_string int) eqn:Et; [| discriminate H]. cbn [negb] in H.
  destruct (take_frac s2) as [[fr s3] |] eqn:Ef; [| discriminate H].
  destruct (take_exp s3) as [[ex s4] |] eqn:Ee; [| discriminate H].
  injection H as <- <-.
  destruct (@take_int_out s1 int s2 Ei Et) as [Hint_head Hint].
  destruct (@take_frac_out s2 fr s3 Ef) as [Hfr_head Hfr].
  destruct (@take_exp_out s3 ex s4 Ee) as [Hex_stop Hex].
  rewrite (@take_sign_out s sign s1 (int +++ fr +++ ex) Es (Hint_head (fr +++ ex))).
  rewrite (Hint (fr +++ ex) (Hfr_head ex Hex_stop)), Et. cbn [negb].
  rewrite (Hfr ex Hex_stop), Hex. reflexivity.
Qed.

Lemma set_member_keys (k : string) (v : json) (l : list (string * json)) :
  forall x, In x (map fst (set_member k v l)) -> x = k \/ In x (map fst l).
Proof.
  induction l as [| [k' v'] l IH]; intros x Hin.
  - destruct Hin as [<- | []]. now left.
  - cbn [set_member] in Hin. cbn [map fst].
    destruct (String.eqb_spec k' k) as [-> | Hne].
    + destruct Hin as [<- | Hin]; [now left | right; now right].
    + assert (Hcont : In x (map fst ((k', v') :: set_member k v l)) ->
                      x = k \/ k' = x \/ In x (map fst l)).
      { intros [<- | H]; [right; now left |].
        destruct (IH x H); [now left | right; now right]. }
      assert (Hins : In x (map fst ((k, v) :: (k', v') :: l)) ->
                     x = k \/ k' = x \/ In x (map fst l)).
      { intros [<- | H]; [now left | right; exact H]. }
      destruct (index_of_key k) as [n |]; [| now apply Hcont].
      destruct (index_of_key k') as [n' |].
      * destruct ((n <? n')%N && negb (existsb (fun m => String.eqb (fst m) k) l));
          [now apply Hins | now apply Hcont].
      * destruct (existsb (fun m => String.eqb (fst m) k) l);
          [now apply Hcont | now apply Hins].
Qed.

Lemma set_member_values (k : string) (v : json) (l : list (string * json)) :
  forall m, In m (set_member k v l) -> m = (k, v) \/ In m l.
Proof.
  induction l as [| [k' v'] l IH]; intros m Hin.
  - destruct Hin as [<- | []]. now left.
  - cbn [set_member] in Hin.
    assert (Hcont : In m ((k', v') :: set_member k v l) ->
                    m = (k, v) \/ In m ((k', v') :: l)).
    { intros [<- | H]; [right; now left |].
      destruct (IH m H); [now left | right; now right]. }
    assert (Hins : In m ((k, v) :: (k', v') :: l) ->
                   m = (k, v) \/ In m ((k', v') :: l)).
    { intros [<- | H]; [now left | now right]. }
    destruct (String.eqb k' k).
    + destruct Hin as [<- | Hin]; [now left | right; now right].
    + destruct (index_of_key k) as [n |]; [| now apply Hcont].
      destruct (index_of_key k') as [n' |].
      * destruct ((n <? n')%N && negb (existsb (fun m => String.eqb (fst m) k) l));
          [now apply Hins | now apply Hcont].
      * destruct (existsb (fun m => String.eqb (fst m) k) l);
          [now apply Hcont | now apply Hins].
Qed.

Lemma existsb_key (k : string) (l : list (string * json)) :
  existsb (fun m => String.eqb (fst m) k) l = true <-> In k (map fst l).
Proof.
  rewrite existsb_exists, in_map_iff. split.
  - intros (m & Hin & E). apply String.eqb_eq in E. now exists m.
  - intros (m & E & Hin). exists m. split; [exact Hin |]. now apply String.eqb_eq.
Qed.

(** The definition of a property keeps the keys in order. *)
Lemma set_member_ordered (k : string) (v : json) (l : list (string * json)) :
  ordered (map fst l) -> ordered (map fst (set_member k v l)).
Proof.
  induction l as [| [k' v'] l IH]; intro Hord.
  - cbn. split; [intros x [] | exact I].
  - cbn [map fst ordered] in Hord. destruct Hord as [Hhead Hrest].
    cbn [set_member].
    destruct (String.eqb_spec k' k) as [-> | Hne].
    { cbn [map fst ordered]. split; assumption. }
    assert (Hcont : key_before k' k = true ->
                    ordered (map fst ((k', v') :: set_member k v l))).
    { intro Hb. cbn [map fst ordered]. split; [| exact (IH Hrest)].
      intros x Hx. apply set_member_keys in Hx.
      destruct Hx as [-> | Hx]; [split; [exact Hb | congruence] | exact (Hhead x Hx)]. }
    assert (Hins : key_before k k' = true ->
                   (forall x, In x (map fst l) -> key_before k x = true) ->
                   ~ In k (map fst l) ->
                   ordered (map fst ((k, v) :: (k', v') :: l))).
    { intros Hb Hall Hnotin. cbn [map fst ordered]. split; [| split; assumption].
      intros x [<- | Hx]; [split; [exact Hb | exact Hne] |].
      split; [exact (Hall x Hx) | intros ->; contradiction]. }
    unfold key_before in Hcont, Hins, Hhead.
    destruct (index_of_key k) as [n |] eqn:En.
    + destruct (index_of_key k') as [n' |] eqn:En'.
      * destruct (N.ltb_spec n n') as [Hlt | Hge]; cbn [andb].
        -- destruct (existsb (fun m => String.eqb (fst m) k) l) eqn:Ex; cbn [negb].
           ++ apply Hcont. apply existsb_key in Ex.
              destruct (Hhead k Ex) as [Hb _]. rewrite En in Hb. exact Hb.
           ++ apply Hins.
              ** apply N.leb_le. lia.
              ** intros x Hx. destruct (Hhead x Hx) as [Hb _].
                 destruct (index_of_key x) as [nx |]; [| reflexivity].
                 apply N.leb_le in Hb. apply N.leb_le. lia.
              ** intro Hin. apply existsb_key in Hin. congruence.
        -- apply Hcont. apply N.leb_le. lia.
      * destruct (existsb (fun m => String.eqb (fst m) k) l) eqn:Ex.
        -- apply Hcont. apply existsb_key in Ex.
           destruct (Hhead k Ex) as [Hb _]. rewrite En in Hb. exact Hb.
        -- apply Hins.
           ++ reflexivity.
           ++ intros x Hx. destruct (Hhead x Hx) as [Hb _].
              destruct (index_of_key x) as [nx |]; [discriminate Hb | reflexivity].
           ++ intro Hin. apply existsb_key in Hin. congruence.
    + apply Hcont. destruct (index_of_key k'); reflexivity.
Qed.

(** A key that belongs after all the keys of an object is added last. *)
Lemma set_member_last (k : string) (v : json) (acc : list (string * json)) :
  (forall a, In a (map fst acc) -> key_before a k = true /\ k <> a) ->
  set_member k v acc = acc ++ [(k, v)].
Proof.
  induction acc as [| [k' v'] acc IH]; intro H; [reflexivity |].
  cbn [set_member app].
  destruct (H k' (or_introl eq_refl)) as [Hb Hne].
  destruct (String.eqb_spec k' k) as [E | _]; [congruence |].
  assert (Hrec : set_member k v acc = acc ++ [(k, v)])
    by (apply IH; intros a Ha; apply H; now right).
  unfold key_before in Hb.
  destruct (index_of_key k) as [n |]; [| now rewrite Hrec].
  destruct (index_of_key k') as [n' |]; [| discriminate Hb].
  apply N.leb_le in Hb.
  destruct (N.ltb_spec n n') as [Hlt | _]; [lia |]. cbn [andb]. now rewrite Hrec.
Qed.

Lemma ordered_app_last (keys : list string) (k : string) :
  ordered (keys ++ [k]) ->
  forall a, In a keys -> key_before a k = true /\ k <> a.
Proof.
  induction keys as [| x keys IH]; intros Hord a Ha; [destruct Ha |].
  cbn [app ordered] in Hord. destruct Hord as [Hhead Hrest].
  destruct Ha as [<- | Ha].
  - apply Hhead. apply in_or_app. right. now left.
  - apply IH; assumption.
Qed.

Lemma ordered_prefix (keys more : list string) :
  ordered (keys ++ more) -> ordered keys.
Proof.
  induction keys as [| x keys IH]; intro H; [exact I |].
  cbn [app ordered] in *. destruct H as [Hhead Hrest]. split; [| exact (IH Hrest)].
  intros k Hk. apply Hhead. apply in_or_app. now left.
Qed.

(** Members in order are built into themselves. *)
Lemma build_members_ordered (l : list (string * json)) :
  forall acc, ordered (map fst (acc ++ l)) -> build_members l acc = acc ++ l.
Proof.
  induction l as [| [k v] l IH]; intros acc Hord.
  - now rewrite app_nil_r.
  - cbn [build_members fold_left fst snd].
    change (fold_left (fun acc0 m => set_member (fst m) (snd m) acc0) l
              (set_member k v acc))
      with (build_members l (set_member k v acc)).
    assert (Hsplit : acc ++ (k, v) :: l = (acc ++ [(k, v)]) ++ l)
      by (rewrite <- app_assoc; reflexivity).
    rewrite Hsplit in Hord |- *.
    rewrite set_member_last.
    + apply IH. exact Hord.
    + rewrite map_app in Hord. apply ordered_prefix in Hord.
      rewrite map_app in Hord. cbn [map fst] in Hord.
      apply ordered_app_last. exact Hord.
Qed.

Lemma parsed_form_array (items : list json) :
  (forall x, In x items -> parsed_form x) -> parsed_form (JArr items).
Proof.
  induction items as [| x items IH]; intro H; [exact I |].
  cbn. split; [apply H; now left |].
  apply IH. intros y Hy. apply H. now right.
Qed.

Lemma parsed_form_object (members : list (string * json)) :
  ordered (map fst members) ->
  (forall m, In m members -> parsed_form (snd m)) ->
  parsed_form (JObj members).
Proof.
  intros Hord H. split.
  - apply (build_members_ordered members []). exact Hord.
  - clear Hord. induction members as [| m members IH]; [exact I |].
    split; [apply H; now left |].
    apply IH. intros y Hy. apply H. now right.
Qed.

(** The two shapes of the tests on a closing character. *)
Lemma match_close (close : ascii) (T : Type) (s : string)
    (A : string -> T) (B : T) :
  (close = "]"%char ->
   match s with String "]" r => A r | _ => B end
   = match s with
     | EmptyString => B
     | String c r => if ascii_eqb c "]" then A r else B
     end)
  /\ (close = "}"%char ->
      match s with String "}" r => A r | _ => B end
      = match s with
        | EmptyString => B
        | String c r => if ascii_eqb c "}" then A r else B
        end).
Proof.
  split; intros _; destruct s as [| c r]; try reflexivity;
    destruct c as [[] [] [] [] [] [] [] []]; reflexivity.
Qed.

Lemma match_close_or_comma (T : Type) (s : string)
    (A B : string -> T) (C : T) :
  match s with String "]" r => A r | String "," r => B r | _ => C end
  = match s with
    | EmptyString => C
    | String c r =>
        if ascii_eqb c "]" then A r else if ascii_eqb c "," then B r else C
    end
  /\ match s with String "}" r => A r | String "," r => B r | _ => C end
     = match s with
       | EmptyString => C
       | String c r =>
           if ascii_eqb c "}" then A r else if ascii_eqb c "," then B r else C
       end.
Proof.
  split; destruct s as [| c r]; try reflexivity;
    destruct c as [[] [] [] [] [] [] [] []]; reflexivity.
Qed.

Lemma parse_items_form (P : string -> option (json * string)) :
  (forall s v r, P s = Some (v, r) -> parsed_form v) ->
  forall fuel acc s v r,
    (forall x, In x acc -> parsed_form x) ->
    parse_items P fuel acc s = Some (v, r) -> parsed_form v.
Proof.
  intro HP. induction fuel as [| fuel IH]; intros acc s v r Hacc H; [discriminate H |].
  cbn [parse_items] in H.
  rewrite (proj1 (match_close_or_comma (skip_ws s) _ _ _)) in H.
  destruct (skip_ws s) as [| c rest]; [discriminate H |].
  destruct (ascii_eqb c "]").
  - injection H as <- _. now apply parsed_form_array.
  - destruct (ascii_eqb c ","); [| discriminate H].
    destruct (P rest) as [[x rest'] |] eqn:Ex; [| discriminate H].
    apply (IH _ _ _ _) with (2 := H).
    intros y Hy. apply in_app_or in Hy. destruct Hy as [Hy | [<- | []]].
    + now apply Hacc.
    + exact (HP _ _ _ Ex).
Qed.

Lemma parse_member_form (P : string -> option (json * string)) :
  (forall s v r, P s = Some (v, r) -> parsed_form v) ->
  forall s k v r, parse_member P s = Some ((k, v), r) -> parsed_form v.
Proof.
  intros HP s k v r H. unfold parse_member in H.
  destruct (skip_ws s) as [| q rest]; [discriminate H |].
  destruct (ascii_eqb q (ascii_of_nat 34)); [| discriminate H].
  destruct (parse_string_body rest) as [[k' rest'] |]; [| discriminate H].
  destruct (skip_ws rest') as [| c rest'']; [discriminate H |].
  destruct c as [[] [] [] [] [] [] [] []]; try discriminate H.
  destruct (P rest'') as [[x rest3] |] eqn:Ex; [| discriminate H].
  injection H as _ <- _. exact (HP _ _ _ Ex).
Qed.

Lemma parse_members_form (P : string -> option (json * string)) :
  (forall s v r, P s = Some (v, r) -> parsed_form v) ->
  forall fuel acc s v r,
    ordered (map fst acc) ->
    (forall m, In m acc -> parsed_form (snd m)) ->
    parse_members P fuel acc s = Some (v, r) -> parsed_form v.
Proof.
  intro HP. induction fuel as [| fuel IH]; intros acc s v r Hord Hacc H;
    [discriminate H |].
  cbn [parse_members] in H.
  rewrite (proj2 (match_close_or_comma (skip_ws s) _ _ _)) in H.
  destruct (skip_ws s) as [| c rest]; [discriminate H |].
  destruct (ascii_eqb c "}").
  - injection H as <- _. now apply parsed_form_object.
  - destruct (ascii_eqb c ","); [| discriminate H].
    destruct (parse_member P rest) as [[[k x] rest'] |] eqn:Em; [| discriminate H].
    apply (IH _ _ _ _) with (3 := H).
    + now apply set_member_ordered.
    + intros m Hm. apply set_member_values in Hm. destruct Hm as [-> | Hm].
      * cbn [snd]. eapply parse_member_form; eassumption.
      * now apply Hacc.
Qed.

(** What [parse_value] returns is in parsed form. *)
Lemma parse_value_form (fuel : nat) :
  forall s v r, parse_value fuel s = Some (v, r) -> parsed_form v.
Proof.
  induction fuel as [| fuel IH]; intros s v r H; [discriminate H |].
  cbn [parse_value] in H.
  destruct (skip_ws s) as [| c rest]; [discriminate H |].
  destruct (ascii_eqb c (ascii_of_nat 34)).
  { destruct (parse_string_body rest) as [[body rest'] |]; [| discriminate H].
    injection H as <- _. exact I. }
  destruct (ascii_eqb c "[").
  { rewrite (proj1 (match_close "]" (skip_ws rest) _ _) eq_refl) in H.
    destruct (skip_ws rest) as [| c2 rest2].
    - destruct (parse_value fuel rest) as [[x rest'] |] eqn:Ex; [| discriminate H].
      eapply parse_items_form; [exact IH | | exact H].
      intros y [<- | []]. exact (IH _ _ _ Ex).
    - destruct (ascii_eqb c2 "]"); [injection H as <- _; exact I |].
      destruct (parse_value fuel rest) as [[x rest'] |] eqn:Ex; [| discriminate H].
      eapply parse_items_form; [exact IH | | exact H].
      intros y [<- | []]. exact (IH _ _ _ Ex). }
  destruct (ascii_eqb c "{").
  { assert (Hfirst :
      match parse_member (parse_value fuel) rest with
      | Some (k, v0, rest') => parse_members (parse_value fuel) fuel [(k, v0)] rest'
      | None => None
      end = Some (v, r) -> parsed_form v).
    { intro H'.
      destruct (parse_member (parse_value fuel) rest) as [[[k x] rest'] |] eqn:Em;
        [| discriminate H'].
      eapply parse_members_form; [exact IH | | | exact H'].
      - cbn. split; [intros k' [] | exact I].
      - intros m [<- | []]. cbn [snd]. eapply parse_member_form; eassumption. }
    rewrite (proj2 (match_close "}" (skip_ws rest) _ _) eq_refl) in H.
    destruct (skip_ws rest) as [| c2 rest2]; [now apply Hfirst |].
    destruct (ascii_eqb c2 "}");
      [injection H as <- _; split; [reflexivity | exact I] | now apply Hfirst]. }
  destruct (starts_with "null" (String c rest)); [injection H as <- _; exact I |].
  destruct (starts_with "true" (String c rest)); [injection H as <- _; exact I |].
  destruct (starts_with "false" (String c rest)); [injection H as <- _; exact I |].
  destruct (parse_number (String c rest)) as [[lit rest'] |] eqn:En; [| discriminate H].
  injection H as <- _. exact I.
Qed.

Lemma JSON_parse_form (text : string) (v : json) :
  JSON_parse text = Normal v -> parsed_form v.
Proof.
  unfold JSON_parse.
  destruct (parse_value (2 * String.length text + 2) text) as [[x rest] |] eqn:E;
    [| discriminate].
  destruct (skip_ws rest); [| discriminate].
  intro H. injection H as <-. eapply parse_value_form; exact E.
Qed.







End JsonFacts.

(** ** Combination *)

Section CombineFacts.

Import Json Combine.



Lemma parse_highlights_form (report : ReportData) :
  parsed_form (parse_highlights report).
Proof.
  unfold parse_highlights.
  destruct (JSON_parse (highlights report)) as [v | e] eqn:E.
  - eapply JSON_parse_form. exact E.
  - cbn. tauto.
Qed.

Lemma allHighlights_form (reports : list ReportData) :
  forall entry, In entry (allHighlights reports) -> parsed_form entry.
Proof.
  intros entry Hin. unfold allHighlights in Hin.
  apply filter_In in Hin. destruct Hin as [Hin _].
  unfold flat in Hin. apply in_flat_map in Hin.
  destruct Hin as (v & Hv & Hentry).
  apply in_map_iff in Hv. destruct Hv as (report & <- & _).
  pose proof (parse_highlights_form report) as Hform.
  destruct (parse_highlights report) as [| b | lit | s | items | members];
    try (destruct Hentry as [<- | []]; exact Hform).
  eapply parsed_form_items; eassumption.
Qed.




(** C6.  The construction of the combined record of no report does not
    throw: the summary and the suggestions state the count 0, and the
    period bounds are left undefined, the computation of the earliest
    and latest dates (which would throw on no report) being skipped. *)
Theorem combine_empty (env : Env) (title : option string) :
  exists combined,
    combinedReport env [] title = Normal combined
    /\ summary combined
       = "This combined report includes 0 individual reports covering various periods and activities. Each report has been analyzed and compiled with AI-generated insights and recommendations."
    /\ suggestions combined = "Based on analysis of 0 reports:" +++ nl +++ nl
    /\ content combined = EmptyString
    /\ highlights combined = "[]"
    /\ period_start combined = None
    /\ period_end combined = None
    /\ getEarliestDate env [] = Throw (ErrorObj "Invalid time value")
    /\ getLatestDate env [] = Throw (ErrorObj "Invalid time value").
Proof.
  unfold combinedReport. simpl.
  eexists. split; [reflexivity |]. simpl. repeat split; reflexivity.
Qed.

End CombineFacts.

(* ================================================================== *)
(** ** File names *)

Section FilenameFacts.

Import Filename.

Lemma slug_char_safe (c : ascii) :
  is_slug_char (to_lower (if is_alnum c then c else "_"%char)) = true.
Proof. destruct c as [[] [] [] [] [] [] [] []]; reflexivity. Qed.

Lemma slug_char_fixed (c : ascii) :
  is_slug_char c = true -> to_lower (if is_alnum c then c else "_"%char) = c.
Proof. destruct c as [[] [] [] [] [] [] [] []]; intro H; try reflexivity; discriminate H. Qed.

Lemma slug_char_fold (c : ascii) :
  to_lower (if is_alnum (to_lower c) then to_lower c else "_"%char)
  = to_lower (if is_alnum c then c else "_"%char).
Proof. destruct c as [[] [] [] [] [] [] [] []]; reflexivity. Qed.

Lemma slug_cons (c : ascii) (s : string) :
  slug (String c s) = String (to_lower (if is_alnum c then c else "_"%char)) (slug s).
Proof. reflexivity. Qed.

Lemma slug_safe (t : string) : Subst.all_chars is_slug_char (slug t) = true.
Proof.
  induction t as [|c t IH]; [reflexivity|].
  rewrite slug_cons. cbn [Subst.all_chars].
  rewrite slug_char_safe, IH. reflexivity.
Qed.

Lemma slug_length (t : string) : String.length (slug t) = String.length t.
Proof.
  induction t as [|c t IH]; [reflexivity|].
  rewrite slug_cons. cbn [String.length]. now rewrite IH.
Qed.

Lemma slug_fixed (t : string) :
  Subst.all_chars is_slug_char t = true -> slug t = t.
Proof.
  induction t as [|c t IH]; [reflexivity|].
  cbn [Subst.all_chars]. intro H. apply andb_true_iff in H. destruct H as [Hc Ht].
  rewrite slug_cons, (slug_char_fixed c Hc), (IH Ht). reflexivity.
Qed.

(** X1.  The name under which an exporter saves a report is the slug
    of the title followed by the extension of the format; the slug has
    as many characters as the title, and each of them is a digit, a
    small letter or an underscore, whatever the title holds. *)
Theorem filename_safe (fmt : Format) (report : ReportData) :
  filename fmt report = slug (title report) +++ extension fmt
  /\ String.length (slug (title report)) = String.length (title report)
  /\ Subst.all_chars is_slug_char (slug (title report)) = true
  /\ String.length (filename fmt report)
     = String.length (title report) + String.length (extension fmt).
Proof.
  split; [reflexivity|]. split; [apply slug_length|]. split; [apply slug_safe|].
  unfold filename. rewrite length_append, slug_length. reflexivity.
Qed.

(** X2.  A title made of digits, small letters and underscores is its
    own slug; so the slug of a slug is that slug, and the slug of a
    title is the slug of the title in small letters: titles that differ
    by case only are saved under one name. *)
Theorem slug_fixed_points (t : string) :
  (Subst.all_chars is_slug_char t = true -> slug t = t)
  /\ slug (slug t) = slug t
  /\ slug (toLowerCase t) = slug t.
Proof.
  split; [apply slug_fixed|]. split; [apply slug_fixed, slug_safe|].
  induction t as [|c t IH]; [reflexivity|].
  change (toLowerCase (String c t)) with (String (to_lower c) (toLowerCase t)).
  rewrite !slug_cons, IH, slug_char_fold. reflexivity.
Qed.

Lemma slug_fixed_points_witness :
  slug "q1_review_" = "q1_review_"
  /\ slug (slug "Q1 Review!") = slug "Q1 Review!"
  /\ slug (toLowerCase "Q1 Review!") = slug "Q1 Review!".
Proof.
  destruct (slug_fixed_points "q1_review_") as (Hfix & _).
  destruct (slug_fixed_points "Q1 Review!") as (_ & Hidem & Hcase).
  split; [apply Hfix; reflexivity |]. split; [exact Hidem | exact Hcase].
Defined.

End FilenameFacts.

(* ================================================================== *)
(** ** Pagination: where each page puts the bitmap *)

Section PdfPositions.

Import Pdf.

Local Open Scope Q_scope.

(** The pages the loop adds show the bitmap shifted up by one page
    height more each time. *)
Lemma page_loop_positions (imgHeight : Q) :
  forall fuel heightLeft pages pages',
    page_loop fuel imgHeight heightLeft pages = Some pages' ->
    exists added,
      pages' = (pages ++ added)%list
      /\ forall j p, nth_error added j = Some p ->
           position p == heightLeft - inject_Z (Z.of_nat j) * pageHeight - imgHeight.
Proof.
  induction fuel as [| fuel IH]; intros heightLeft pages pages' Hrun.
  - simpl in Hrun. destruct (Qle_bool 0 heightLeft); [discriminate |].
    injection Hrun as <-. exists []. split; [now rewrite app_nil_r |].
    intros [| j] p Hp; discriminate Hp.
  - simpl in Hrun. destruct (Qle_bool 0 heightLeft).
    + apply IH in Hrun. destruct Hrun as (added & -> & Hpos).
      exists (mkPage (heightLeft - imgHeight) :: added).
      split; [now rewrite <- app_assoc |].
      intros [| j] p Hp.
      * injection Hp as <-. simpl. ring.
      * simpl in Hp. rewrite (Hpos j p Hp).
        rewrite Nat2Z.inj_succ. unfold Z.succ. rewrite inject_Z_plus.
        unfold pageHeight. ring.
    + injection Hrun as <-. exists []. split; [now rewrite app_nil_r |].
      intros [| j] p Hp; discriminate Hp.
Qed.

Lemma paginate_positions (fuel : nat) (h : Q) (pages : list page) :
  paginate fuel h = Some pages ->
  forall k p, nth_error pages k = Some p ->
    position p == - (inject_Z (Z.of_nat k) * pageHeight).
Proof.
  unfold paginate. intros Hrun k p Hp.
  apply page_loop_positions in Hrun. destruct Hrun as (added & -> & Hpos).
  destruct k as [| k].
  - injection Hp as <-. simpl. ring.
  - simpl in Hp. rewrite (Hpos k p Hp).
    rewrite Nat2Z.inj_succ. unfold Z.succ. rewrite inject_Z_plus.
    unfold pageHeight. ring.
Qed.

Lemma paginate_runs (h : Q) (fuel : nat) :
  0 <= h -> (Z.to_nat (Qfloor (h / 295)) <= fuel)%nat ->
  exists pages,
    paginate fuel h = Some pages
    /\ List.length pages = (1 + Z.to_nat (Qfloor (h / 295)))%nat.
Proof.
  intros Hh Hfuel. unfold paginate.
  pose proof (proj1 (bands_nonneg h) Hh) as Hb.
  destruct (@page_loop_count h (Z.to_nat (bands h)) (h - pageHeight)
              [mkPage 0] fuel) as (pages & Hrun & Hlen).
  - rewrite bands_step. f_equal. lia.
  - exact Hfuel.
  - exists pages. split; [exact Hrun |]. rewrite Hlen. reflexivity.
Qed.

(** X3.  The pages of the document tile the bitmap from its top: for a
    bitmap of height [h >= 0], page [k] (from 0) shows the bitmap
    shifted up by [k * 295], every page starts at or above the lower
    edge of the bitmap, and the pages together are higher than the
    bitmap, so no part of it is left out. *)
Theorem paginate_tiles_bitmap (h : Q) (fuel : nat) :
  0 <= h -> (Z.to_nat (Qfloor (h / 295)) <= fuel)%nat ->
  exists pages,
    paginate fuel h = Some pages
    /\ (forall k p, nth_error pages k = Some p ->
          position p == - (inject_Z (Z.of_nat k) * 295)
          /\ inject_Z (Z.of_nat k) * 295 <= h)
    /\ h < inject_Z (Z.of_nat (List.length pages)) * 295.
Proof.
  intros Hh Hfuel.
  destruct (paginate_runs Hh Hfuel) as (pages & Hrun & Hlen).
  pose proof (proj1 (bands_nonneg h) Hh) as Hb. unfold bands, pageHeight in Hb.
  exists pages. split; [exact Hrun |]. split.
  - intros k p Hp. split; [exact (paginate_positions _ _ Hrun _ Hp) |].
    assert (Hk : (k < List.length pages)%nat).
    { apply nth_error_Some. rewrite Hp. discriminate. }
    assert (Hle : inject_Z (Z.of_nat k) <= h / 295).
    { eapply Qle_trans; [| apply Qfloor_le]. rewrite <- Zle_Qle. lia. }
    eapply Qle_trans; [apply Qmult_le_compat_r; [exact Hle | discriminate] |].
    setoid_replace (h / 295 * 295) with h by field. apply Qle_refl.
  - rewrite Hlen.
    assert (Hlt : h / 295 < inject_Z (Z.of_nat (1 + Z.to_nat (Qfloor (h / 295))))).
    { replace (Z.of_nat (1 + Z.to_nat (Qfloor (h / 295))))
        with (Qfloor (h / 295) + 1)%Z by lia.
      apply Qlt_floor. }
    eapply Qle_lt_trans; [| apply Qmult_lt_compat_r; [reflexivity | exact Hlt]].
    setoid_replace (h / 295 * 295) with h by field. apply Qle_refl.
Qed.

Lemma paginate_tiles_bitmap_witness :
  exists pages,
    paginate 2 (600 # 1) = Some pages
    /\ (forall k p, nth_error pages k = Some p ->
          position p == - (inject_Z (Z.of_nat k) * 295)
          /\ inject_Z (Z.of_nat k) * 295 <= 600 # 1)
    /\ 600 # 1 < inject_Z (Z.of_nat (List.length pages)) * 295.
Proof.
  apply (@paginate_tiles_bitmap (600 # 1) 2%nat); [discriminate | vm_compute; lia].
Defined.

(** X4.  When the height of the bitmap is a whole number [N] of page
    heights, the last of the [N + 1] pages puts the bitmap wholly above
    its upper edge: the lower edge of the bitmap is at offset 0 of
    that page, and the page shows nothing of it. *)
Theorem paginate_last_page_blank (N : nat) (h : Q) :
  h == inject_Z (Z.of_nat N) * 295 ->
  exists pages p,
    paginate N h = Some pages
    /\ List.length pages = (N + 1)%nat
    /\ nth_error pages N = Some p
    /\ position p + h == 0.
Proof.
  intro HN.
  assert (Hfloor : Qfloor (h / 295) = Z.of_nat N).
  { rewrite HN.
    setoid_replace (inject_Z (Z.of_nat N) * 295 / 295) with (inject_Z (Z.of_nat N))
      by field.
    apply Qfloor_Z. }
  assert (Hh : 0 <= h).
  { rewrite HN. apply Qmult_le_0_compat; [| discriminate].
    change 0 with (inject_Z 0). rewrite <- Zle_Qle. lia. }
  destruct (@paginate_runs h N Hh) as (pages & Hrun & Hlen).
  { rewrite Hfloor. lia. }
  rewrite Hfloor in Hlen.
  destruct (nth_error pages N) as [p |] eqn:Hp.
  - exists pages, p. split; [exact Hrun |]. split; [lia |]. split; [exact Hp |].
    rewrite (paginate_positions _ _ Hrun _ Hp), HN. unfold pageHeight. ring.
  - apply nth_error_None in Hp. lia.
Qed.

Lemma paginate_last_page_blank_witness :
  exists pages p,
    paginate 2 (590 # 1) = Some pages
    /\ List.length pages = 3%nat
    /\ nth_error pages 2 = Some p
    /\ position p + (590 # 1) == 0.
Proof.
  apply (@paginate_last_page_blank 2%nat (590 # 1)). reflexivity.
Defined.

End PdfPositions.

(* ================================================================== *)
(** ** Validation: when a selection passes, and the error shown first *)

Section ValidationResults.

Import Validation.

Lemma check_report_none (report : ReportData) (index : nat) :
  check_report report index = [] -> well_formed report.
Proof.
  unfold check_report, well_formed. intro H.
  destruct (trim (title report)); [discriminate H |].
  destruct (trim (content report)); [discriminate H |].
  split; discriminate.
Qed.

Lemma checks_none (reports : list ReportData) :
  forall i, List.concat (mapi_from i check_report reports) = [] ->
    Forall well_formed reports.
Proof.
  induction reports as [| r rs IH]; intros i H; [constructor |].
  simpl in H. apply app_eq_nil in H. destruct H as [Hr Hrs].
  constructor; [exact (check_report_none _ _ Hr) | exact (IH _ Hrs)].
Qed.

Lemma mapi_from_app {A B} (f : A -> nat -> B) (a b : list A) :
  forall i, mapi_from i f (a ++ b) = mapi_from i f a ++ mapi_from (i + List.length a) f b.
Proof.
  induction a as [| x a IH]; intro i; simpl.
  - now rewrite Nat.add_0_r.
  - rewrite IH. do 3 f_equal. lia.
Qed.

(** X5.  A selection passes the validation, with no error at all,
    exactly when it holds from 1 to 50 reports and the title and the
    content of each of them are not blank. *)
Theorem validate_passes_iff (reports : list ReportData) :
  validateReportsForExport reports = []
  <-> (1 <= List.length reports <= 50 /\ Forall well_formed reports).
Proof.
  unfold validateReportsForExport, mapi. split.
  - intro H.
    destruct (Nat.eqb_spec (List.length reports) 0) as [E | E].
    { destruct (50 <? List.length reports); discriminate H. }
    destruct (Nat.ltb_spec 50 (List.length reports)) as [L | L]; [discriminate H |].
    cbn [app] in H. split; [lia | exact (checks_none _ _ H)].
  - intros [[Hlo Hhi] Hwf]. rewrite (checks_well_formed Hwf).
    destruct (Nat.eqb_spec (List.length reports) 0) as [E | _]; [lia |].
    destruct (Nat.ltb_spec 50 (List.length reports)) as [L | _]; [lia |].
    reflexivity.
Qed.

(** X6.  The error that comes first, the one the batch dialog shows:
    for more than 50 reports it is the one about the limit, whatever
    the reports hold; for 1 to 50 reports of which the first that fails
    is at index [k], it is the missing title of report [k + 1] when its
    title is blank, and otherwise its missing content. *)
Theorem validate_first_error :
  (forall reports,
     50 < List.length reports ->
     hd_error (validateReportsForExport reports) = Some too_many_msg)
  /\ (forall good bad rest,
        List.length (good ++ bad :: rest) <= 50 ->
        Forall well_formed good -> ~ well_formed bad ->
        hd_error (validateReportsForExport (good ++ bad :: rest))
        = Some (if truthy_string (trim (title bad))
                then no_content_msg bad
                else no_title_msg (List.length good))).
Proof.
  split.
  - intros reports Hlen. unfold validateReportsForExport.
    destruct (Nat.eqb_spec (List.length reports) 0) as [E | _]; [lia |].
    destruct (Nat.ltb_spec 50 (List.length reports)) as [_ | L]; [| lia].
    reflexivity.
  - intros good bad rest Hlen Hgood Hbad. unfold validateReportsForExport, mapi.
    destruct (Nat.eqb_spec (List.length (good ++ bad :: rest)) 0) as [E | _].
    { rewrite length_app in E. simpl in E. lia. }
    destruct (Nat.ltb_spec 50 (List.length (good ++ bad :: rest))) as [L | _]; [lia |].
    rewrite mapi_from_app, concat_app, (checks_well_formed Hgood).
    simpl. unfold check_report.
    destruct (truthy_string (trim (title bad))) eqn:Et; simpl.
    + destruct (truthy_string (trim (content bad))) eqn:Ec; simpl; [| reflexivity].
      exfalso. apply Hbad. split; intro Hb.
      * rewrite Hb in Et. discriminate Et.
      * rewrite Hb in Ec. discriminate Ec.
    + reflexivity.
Qed.

Lemma validate_first_error_witness :
  hd_error (validateReportsForExport (Samples.reports 51)) = Some too_many_msg
  /\ hd_error (validateReportsForExport
                 (Samples.reports 2 ++ Samples.blank_report :: Samples.reports 1))
     = Some (no_title_msg 2).
Proof.
  destruct validate_first_error as (Hmany & Hfirst).
  split.
  - apply Hmany. simpl. lia.
  - apply (Hfirst (Samples.reports 2) Samples.blank_report (Samples.reports 1)).
    + simpl. lia.
    + apply samples_well_formed.
    + intros [Ht _]. apply Ht. reflexivity.
Defined.

Lemma validate_passes_iff_witness :
  validateReportsForExport (Samples.reports 3) = [].
Proof.
  apply (proj2 (validate_passes_iff (Samples.reports 3))).
  split; [simpl; lia | apply samples_well_formed].
Defined.

Lemma checks_same_texts (l l' : list ReportData) :
  map title l = map title l' -> map content l = map content l' ->
  forall i, mapi_from i check_report l = mapi_from i check_report l'.
Proof.
  revert l'. induction l as [| r l IH]; intros [| r' l'] Ht Hc i;
    try reflexivity; try discriminate Ht.
  cbn [map] in Ht, Hc. injection Ht as Ht Hts. injection Hc as Hc Hcs.
  cbn [mapi_from]. rewrite (IH l' Hts Hcs). f_equal.
  unfold check_report, no_content_msg. now rewrite Ht, Hc.
Qed.

(** X30.  The validation reads the number of the reports, their titles
    and their contents, and nothing else: two selections with the same
    titles and the same contents, in the same order, get the same
    errors, whatever their dates, summaries, highlights and
    identifiers are.  In particular a report with an invalid date
    passes. *)
Theorem validate_reads_titles_and_contents (l l' : list ReportData) :
  map title l = map title l' -> map content l = map content l' ->
  validateReportsForExport l = validateReportsForExport l'.
Proof.
  intros Ht Hc. unfold validateReportsForExport, mapi.
  rewrite (checks_same_texts _ _ Ht Hc).
  assert (Hlen : List.length l = List.length l').
  { rewrite <- (length_map title l), Ht. apply length_map. }
  rewrite Hlen. reflexivity.
Qed.

Lemma validate_reads_titles_and_contents_witness :
  validateReportsForExport [DatedSamples.march; DatedSamples.undated]
  = validateReportsForExport [DatedSamples.about_january; DatedSamples.march].
Proof.
  apply validate_reads_titles_and_contents; reflexivity.
Defined.

End ValidationResults.

(* ================================================================== *)
(** ** Batch orchestration: degenerate inputs and the calls of a run *)

Section BatchDegenerate.

Import Batch.

Variable renders : Format -> option ExportTemplate -> ReportData -> bool.
Variable schedule : list (nat * ReportData) -> list (nat * ReportData).
Variable options : BatchExportOptions.

(** X7.  For an empty list of reports [batchExport] returns at once,
    whatever the options: the counts are 0, the list of errors is
    empty, and neither a callback nor an exporter nor a timer was
    used. *)
Theorem batchExport_empty (fuel : nat) :
  batchExport renders schedule [] options fuel
  = Some (Normal (mkState (mkResult 0 0 []) [])).
Proof. destruct fuel; reflexivity. Qed.

Hypothesis schedule_perm : forall tasks, Permutation tasks (schedule tasks).

Lemma batch_loop_stuck (reports : list ReportData) :
  batchSize options = Some 0 -> reports <> [] ->
  forall fuel st, batch_loop renders schedule reports options fuel 0 st = None.
Proof.
  intros Hsize Hne.
  assert (Hgo : (0 <? List.length reports) = true).
  { destruct reports; [congruence | reflexivity]. }
  assert (Hnil : schedule [] = []).
  { apply Permutation_nil. apply schedule_perm. }
  induction fuel as [| fuel IH]; intro st; cbn [batch_loop]; rewrite Hgo;
    [reflexivity |].
  unfold batchSize_or_default. rewrite Hsize.
  unfold slice, run_batch. cbn [Nat.add Nat.sub firstn mapi mapi_from].
  rewrite Hnil. cbn [run_tasks]. apply IH.
Qed.

(** X8.  With [batchSize: 0] and at least one report the loop never
    ends: every chunk is empty and the index does not move, so
    [batchExport] returns no result, however long it runs, and no
    report is exported. *)
Theorem batchExport_zero_batchSize_never_returns (reports : list ReportData) :
  batchSize options = Some 0 -> reports <> [] ->
  forall fuel, batchExport renders schedule reports options fuel = None.
Proof.
  intros Hsize Hne fuel. unfold batchExport. apply batch_loop_stuck; assumption.
Qed.

End BatchDegenerate.

Lemma batchExport_zero_batchSize_never_returns_witness :
  Batch.batchExport Samples.always_renders Samples.in_order (Samples.reports 2)
    (Samples.options_with (Some 0)) 1000 = None.
Proof.
  apply batchExport_zero_batchSize_never_returns.
  - intro tasks. apply Permutation_refl.
  - reflexivity.
  - discriminate.
Defined.

Section BatchTraceFacts.

Import Batch BatchTrace.

Variable renders : Format -> option ExportTemplate -> ReportData -> bool.
Variable schedule : list (nat * ReportData) -> list (nat * ReportData).
Variable reports : list ReportData.
Variable options : BatchExportOptions.

Hypothesis schedule_perm : forall tasks, Permutation tasks (schedule tasks).
Hypothesis onProgress_returns : progress_returns options.
Hypothesis onError_returns : error_returns options.

(** A task whose callbacks return leaves its events, in the order of
    its lines. *)
Lemma task_trace (globalIndex : nat) (report : ReportData) (st : state) :
  task renders reports options globalIndex report st
  = Normal (mkState (settle (outcome_of renders options report)
                            (entry_of options report) (result st))
                    (trace st ++ task_events renders reports options (globalIndex, report))).
Proof.
  unfold task, task_try, call_onProgress, call_onError, exportSingle,
    task_events, delay_events, progress_events, error_events,
    outcome_of, entry_of, settle.
  destruct (onProgress options) as [f |] eqn:Ep;
    destruct (renders (format options) (template options) report) eqn:Er;
    destruct (onError options) as [g |] eqn:Ee;
    destruct ((0 <? globalIndex) && (0 <? delay_or_default options));
    rewrite ?(onProgress_returns Ep), ?(onError_returns Ee);
    unfold emit, incr_successful, record_failure; simpl;
    rewrite ?(onProgress_returns Ep), ?(onError_returns Ee); simpl;
    rewrite <- ?app_assoc; reflexivity.
Qed.

Lemma run_tasks_trace (tasks : list (nat * ReportData)) :
  forall st,
    run_tasks renders reports options tasks st
    = Normal (mkState (settle_all renders options (map snd tasks) (result st))
                      (trace st ++ flat_map (task_events renders reports options) tasks)).
Proof.
  induction tasks as [| [i r] tasks IH]; intro st.
  - cbn [run_tasks flat_map map]. rewrite app_nil_r. destruct st. reflexivity.
  - cbn [run_tasks]. rewrite task_trace. cbn [bind]. rewrite IH.
    cbn [result trace map snd flat_map]. rewrite <- app_assoc. reflexivity.
Qed.

Lemma task_events_are_task_events (t : nat * ReportData) :
  filter is_task_event (task_events renders reports options t)
  = task_events renders reports options t.
Proof.
  destruct t as [i r].
  unfold task_events, delay_events, progress_events, error_events.
  destruct ((0 <? i) && (0 <? delay_or_default options));
    destruct (onProgress options); destruct (outcome_of renders options r);
    destruct (onError options); reflexivity.
Qed.

Lemma tasks_events_are_task_events (tasks : list (nat * ReportData)) :
  filter is_task_event (flat_map (task_events renders reports options) tasks)
  = flat_map (task_events renders reports options) tasks.
Proof.
  induction tasks as [| t tasks IH]; [reflexivity |].
  cbn [flat_map]. rewrite filter_app, task_events_are_task_events, IH. reflexivity.
Qed.

Lemma mapi_from_shift (i : nat) (l : list ReportData) :
  forall b,
    mapi_from b (fun report batchIndex => (i + batchIndex, report)) l
    = mapi_from (i + b) (fun report index => (index, report)) l.
Proof.
  induction l as [| r l IH]; intro b; [reflexivity |].
  cbn [mapi_from]. rewrite IH. do 2 f_equal. lia.
Qed.

Lemma mapi_from_map_snd (i : nat) (l : list ReportData) :
  map snd (mapi_from i (fun report index => (index, report)) l) = l.
Proof.
  revert i. induction l as [| r l IH]; intro i; [reflexivity |].
  cbn [mapi_from map snd]. now rewrite IH.
Qed.

Lemma indexed_split (i size : nat) (l : list ReportData) :
  mapi_from i (fun report index => (index, report)) l
  = mapi_from i (fun report index => (index, report)) (firstn size l)
    ++ mapi_from (i + size) (fun report index => (index, report)) (skipn size l).
Proof.
  revert i l. induction size as [| size IH]; intros i l.
  - cbn [firstn skipn mapi_from app]. now rewrite Nat.add_0_r.
  - destruct l as [| r l]; [reflexivity |].
    cbn [firstn skipn mapi_from app]. rewrite (IH (S i) l).
    do 3 f_equal. lia.
Qed.

(** The loop from the chunk of index [j] on: the tasks of the
    remaining reports run, each once, and the trace is made of their
    events, task after task, between the marks of the chunks. *)
Lemma batch_loop_trace (size : nat) :
  size = batchSize_or_default options -> 1 <= size ->
  forall remaining j fuel st,
    remaining = chunk_count size (List.length reports) - j ->
    j <= chunk_count size (List.length reports) ->
    remaining <= fuel ->
    exists finished evs,
      batch_loop renders schedule reports options fuel (j * size) st
      = Some (Normal (mkState (settle_all renders options (map snd finished) (result st))
                              (trace st ++ evs)))
      /\ Permutation
           (mapi_from (j * size) (fun report index => (index, report))
              (skipn (j * size) reports))
           finished
      /\ filter is_task_event evs
         = flat_map (task_events renders reports options) finished
      /\ finished = flat_map (chunk_tasks schedule size reports) (seq j remaining).
Proof.
  intros Hsize Hpos.
  induction remaining as [| remaining IH]; intros j fuel st Hrem Hj Hfuel.
  - assert (Hend : List.length reports <= j * size).
    { destruct (Nat.lt_ge_cases (j * size) (List.length reports)) as [Hlt | Hge];
        [| exact Hge].
      apply (chunk_count_spec _ _ Hpos) in Hlt. lia. }
    exists [], []. rewrite app_nil_r.
    assert (Hexit : (j * size <? List.length reports) = false)
      by (apply Nat.ltb_ge; exact Hend).
    destruct fuel; cbn [batch_loop]; rewrite Hexit;
      (split; [destruct st; reflexivity |]);
      rewrite (skipn_past_end _ Hend); (split; [constructor | split; reflexivity]).
  - assert (Hlt : j * size < List.length reports)
      by (apply (chunk_count_spec _ _ Hpos); lia).
    destruct fuel as [| fuel]; [lia |].
    cbn [batch_loop].
    assert (Hgo : (j * size <? List.length reports) = true)
      by (apply Nat.ltb_lt; exact Hlt).
    rewrite Hgo, <- Hsize.
    unfold run_batch. rewrite run_tasks_trace.
    set (batch := slice reports (j * size) (j * size + size)).
    set (tasks := schedule (mapi (fun report batchIndex => (j * size + batchIndex, report))
                               batch)).
    replace (j * size + size) with (S j * size) by (simpl; lia).
    destruct (IH (S j) fuel
                (mkState (settle_all renders options (map snd tasks)
                            (result (emit (EvBatch batch) st)))
                   (trace (emit (EvBatch batch) st)
                    ++ flat_map (task_events renders reports options) tasks)))
      as (finished2 & evs2 & Hloop & Hperm2 & Hev2 & Hfin2); try lia.
    exists (tasks ++ finished2),
      (EvBatch batch :: flat_map (task_events renders reports options) tasks ++ evs2).
    rewrite Hloop. unfold emit. cbn [result trace].
    rewrite map_app, settle_all_app, <- !app_assoc. split; [reflexivity |].
    split.
    + rewrite (indexed_split (j * size) size (skipn (j * size) reports)).
      apply Permutation_app.
      * unfold tasks, mapi. rewrite mapi_from_shift, Nat.add_0_r.
        unfold batch. rewrite slice_skipn. apply schedule_perm.
      * rewrite skipn_skipn.
        replace (size + j * size) with (S j * size) by (simpl; lia).
        replace (j * size + size) with (S j * size) by (simpl; lia).
        exact Hperm2.
    + split.
      * cbn [filter is_task_event].
        rewrite filter_app, tasks_events_are_task_events, Hev2, flat_map_app.
        reflexivity.
      * cbn [seq flat_map]. rewrite <- Hfin2. reflexivity.
Qed.

(** The whole run, when the callbacks return and the chunks are not
    empty: every report has a task, with its index in the list as
    [globalIndex]; the tasks end in some order [finished], and the
    trace holds their events in that order. *)
Lemma batchExport_trace (size : nat) :
  size = batchSize_or_default options -> 1 <= size ->
  forall fuel, List.length reports <= fuel ->
    exists finished st,
      batchExport renders schedule reports options fuel = Some (Normal st)
      /\ result st = settle_all renders options (map snd finished) (mkResult 0 0 [])
      /\ Permutation (indexed reports) finished
      /\ filter is_task_event (trace st)
         = flat_map (task_events renders reports options) finished
      /\ finished
         = flat_map (chunk_tasks schedule size reports)
             (seq 0 (chunk_count size (List.length reports))).
Proof.
  intros Hsize Hpos fuel Hfuel.
  destruct (@batch_loop_trace size Hsize Hpos
              (chunk_count size (List.length reports)) 0 fuel initial_state)
    as (finished & evs & Hloop & Hperm & Hev & Hfin).
  - lia.
  - lia.
  - pose proof (chunk_count_le (List.length reports) Hpos). lia.
  - exists finished, (mkState (settle_all renders options (map snd finished) (mkResult 0 0 []))
                       evs).
    split; [exact Hloop |]. split; [reflexivity |]. split; [exact Hperm |].
    split; [exact Hev | exact Hfin].
Qed.

End BatchTraceFacts.

Section BatchCalls.

Import Batch BatchTrace.

Variable renders : Format -> option ExportTemplate -> ReportData -> bool.
Variable schedule : list (nat * ReportData) -> list (nat * ReportData).
Variable reports : list ReportData.
Variable options : BatchExportOptions.

Hypothesis schedule_perm : forall tasks, Permutation tasks (schedule tasks).
Hypothesis onProgress_returns : progress_returns options.
Hypothesis onError_returns : error_returns options.

Lemma progress_calls_of_task_events (tr : list event) :
  progress_calls_of (filter is_task_event tr) = progress_calls_of tr.
Proof.
  induction tr as [| ev tr IH]; [reflexivity |].
  destruct ev; cbn [filter is_task_event progress_calls_of flat_map app];
    fold (progress_calls_of (filter is_task_event tr)); fold (progress_calls_of tr);
    rewrite IH; reflexivity.
Qed.

Lemma delays_of_task_events (tr : list event) :
  delays_of (filter is_task_event tr) = delays_of tr.
Proof.
  induction tr as [| ev tr IH]; [reflexivity |].
  destruct ev; cbn [filter is_task_event delays_of flat_map app];
    fold (delays_of (filter is_task_event tr)); fold (delays_of tr);
    rewrite IH; reflexivity.
Qed.

Lemma progress_calls_of_tasks (f : nat -> nat -> string -> completion unit)
    (tasks : list (nat * ReportData)) :
  onProgress options = Some f ->
  progress_calls_of (flat_map (task_events renders reports options) tasks)
  = flat_map (progress_of renders reports options) tasks.
Proof.
  intro Hf. induction tasks as [| [i r] tasks IH]; [reflexivity |].
  cbn [flat_map]. unfold progress_calls_of in *. rewrite flat_map_app, IH.
  f_equal. unfold task_events, progress_of, delay_events, progress_events, error_events.
  rewrite Hf.
  destruct ((0 <? i) && (0 <? delay_or_default options));
    destruct (outcome_of renders options r); destruct (onError options); reflexivity.
Qed.

Lemma no_progress_calls_of_tasks (tasks : list (nat * ReportData)) :
  onProgress options = None ->
  progress_calls_of (flat_map (task_events renders reports options) tasks) = [].
Proof.
  intro Hf. induction tasks as [| [i r] tasks IH]; [reflexivity |].
  cbn [flat_map]. unfold progress_calls_of in *. rewrite flat_map_app, IH.
  unfold task_events, delay_events, progress_events, error_events.
  rewrite Hf.
  destruct ((0 <? i) && (0 <? delay_or_default options));
    destruct (outcome_of renders options r); destruct (onError options); reflexivity.
Qed.

Lemma progress_of_length (tasks : list (nat * ReportData)) :
  List.length (flat_map (progress_of renders reports options) tasks)
  = List.length tasks
    + List.length (filter (outcome_of renders options) (map snd tasks)).
Proof.
  induction tasks as [| [i r] tasks IH]; [reflexivity |].
  cbn [flat_map map snd filter]. rewrite length_app, IH.
  unfold progress_of. destruct (outcome_of renders options r); simpl; lia.
Qed.

(** X9.  The calls of [onProgress] in a run whose callbacks return:
    the task of the report at index [i] calls it with [(i, n, title)]
    before the export and, only when the export succeeded, with
    [(i + 1, n, title)] after it, [n] being the number of reports; the
    run makes these calls and no other, so their number is [n] plus
    the number of successes.  The first argument is the index of the
    report, not a count of the reports done so far.  Without a
    callback there is no call. *)
Theorem batchExport_progress_calls (size : nat) :
  size = batchSize_or_default options -> 1 <= size ->
  forall fuel, List.length reports <= fuel ->
    exists st,
      batchExport renders schedule reports options fuel = Some (Normal st)
      /\ match onProgress options with
         | Some _ =>
             Permutation (progress_calls_of (trace st))
               (flat_map (progress_of renders reports options) (indexed reports))
             /\ List.length (progress_calls_of (trace st))
                = List.length reports + successful (result st)
         | None => progress_calls_of (trace st) = []
         end.
Proof.
  intros Hsize Hpos fuel Hfuel.
  destruct (@batchExport_trace renders schedule reports options schedule_perm
              onProgress_returns onError_returns size Hsize Hpos fuel Hfuel)
    as (finished & st & Hrun & Hres & Hperm & Hev & _).
  exists st. split; [exact Hrun |].
  rewrite <- progress_calls_of_task_events, Hev.
  destruct (onProgress options) as [f |] eqn:Hf.
  - rewrite (progress_calls_of_tasks finished Hf). split.
    + apply Permutation_flat_map. symmetry. exact Hperm.
    + rewrite progress_of_length, Hres.
      destruct (settle_all_result renders options (map snd finished) (mkResult 0 0 []))
        as (Hs & _).
      rewrite Hs. cbn [successful].
      rewrite <- (Permutation_length Hperm). unfold indexed, mapi.
      rewrite <- (length_map snd), mapi_from_map_snd. lia.
  - apply no_progress_calls_of_tasks. exact Hf.
Qed.

Lemma delays_of_tasks (tasks : list (nat * ReportData)) :
  delays_of (flat_map (task_events renders reports options) tasks)
  = flat_map (fun t : nat * ReportData =>
                if (0 <? fst t) && (0 <? delay_or_default options)
                then [delay_or_default options] else []) tasks.
Proof.
  induction tasks as [| [i r] tasks IH]; [reflexivity |].
  cbn [flat_map]. unfold delays_of in *. rewrite flat_map_app, IH.
  f_equal. unfold task_events, delay_events, progress_events, error_events.
  cbn [fst].
  destruct ((0 <? i) && (0 <? delay_or_default options));
    destruct (onProgress options); destruct (outcome_of renders options r);
    destruct (onError options); reflexivity.
Qed.

Lemma delays_after_first (d : nat) (l : list ReportData) :
  forall i, 1 <= i ->
    flat_map (fun t : nat * ReportData =>
                if (0 <? fst t) && (0 <? d) then [d] else [])
      (mapi_from i (fun report index => (index, report)) l)
    = repeat d (if 0 <? d then List.length l else 0).
Proof.
  induction l as [| r l IH]; intros i Hi.
  - destruct (0 <? d); reflexivity.
  - cbn [mapi_from flat_map fst]. rewrite IH by lia.
    assert (Hgt : (0 <? i) = true) by (apply Nat.ltb_lt; lia).
    rewrite Hgt. destruct (0 <? d); reflexivity.
Qed.

(** X10.  The timers of a run: every task but the one of the first
    report waits once, for [delayBetweenExports] milliseconds, before
    it does anything else; so a run over [n >= 1] reports sets
    [n - 1] timers when the delay is positive, and none when it is 0. *)
Theorem batchExport_delays (size : nat) :
  size = batchSize_or_default options -> 1 <= size ->
  forall fuel, List.length reports <= fuel ->
    exists st,
      batchExport renders schedule reports options fuel = Some (Normal st)
      /\ delays_of (trace st)
         = repeat (delay_or_default options)
             (if 0 <? delay_or_default options then List.length reports - 1 else 0).
Proof.
  intros Hsize Hpos fuel Hfuel.
  destruct (@batchExport_trace renders schedule reports options schedule_perm
              onProgress_returns onError_returns size Hsize Hpos fuel Hfuel)
    as (finished & st & Hrun & Hres & Hperm & Hev & _).
  exists st. split; [exact Hrun |].
  rewrite <- delays_of_task_events, Hev, delays_of_tasks.
  apply Permutation_repeat.
  etransitivity; [apply Permutation_flat_map; symmetry; exact Hperm |].
  unfold indexed, mapi. destruct reports as [| r rs].
  - destruct (0 <? delay_or_default options); reflexivity.
  - cbn [mapi_from flat_map]. rewrite delays_after_first by lia.
    cbn [fst]. change (0 <? 0) with false. cbn [andb app List.length].
    replace (S (List.length rs) - 1) with (List.length rs) by lia.
    reflexivity.
Qed.

End BatchCalls.

Lemma batchExport_progress_calls_witness :
  exists st,
    Batch.batchExport (Samples.fails_on "r1") Samples.reversed (Samples.reports 3)
      (Samples.options_with (Some 2)) 3 = Some (Normal st)
    /\ Permutation (Batch.progress_calls_of (Batch.trace st))
         [(0, 3, "Report 0"); (1, 3, "Report 0"); (1, 3, "Report 1");
          (2, 3, "Report 2"); (3, 3, "Report 2")]
    /\ List.length (Batch.progress_calls_of (Batch.trace st))
       = 3 + Batch.successful (Batch.result st).
Proof.
  destruct (@batchExport_progress_calls (Samples.fails_on "r1") Samples.reversed
              (Samples.reports 3) (Samples.options_with (Some 2)) reversed_perm
              (@options_with_progress_returns (Some 2))
              (@options_with_error_returns (Some 2)) 2 eq_refl (le_S _ _ (le_n 1))
              3 (le_n 3))
    as (st & Hrun & Hcalls).
  exists st. split; [exact Hrun | exact Hcalls].
Defined.

Lemma batchExport_delays_witness :
  exists st,
    Batch.batchExport Samples.always_renders Samples.reversed (Samples.reports 3)
      (Samples.options_with (Some 2)) 3 = Some (Normal st)
    /\ BatchTrace.delays_of (Batch.trace st) = [500; 500].
Proof.
  destruct (@batchExport_delays Samples.always_renders Samples.reversed
              (Samples.reports 3) (Samples.options_with (Some 2)) reversed_perm
              (@options_with_progress_returns (Some 2))
              (@options_with_error_returns (Some 2)) 2 eq_refl (le_S _ _ (le_n 1))
              3 (le_n 3))
    as (st & Hrun & Hdelays).
  exists st. split; [exact Hrun | exact Hdelays].
Defined.

(* ================================================================== *)
(** ** Combination: the period of a combined report, and its highlights *)

Section CombineResults.

Import Json Combine.

Lemma extremum_none (pick : Z -> Z -> Z) (xs : list (option Z)) :
  extremum pick xs = None <-> xs = [] \/ In None xs.
Proof.
  induction xs as [| x xs IH]; [cbn; tauto |].
  destruct xs as [| y ys].
  - cbn. split.
    + intros ->. right. now left.
    + intros [H | [H | []]]; [discriminate H | exact H].
  - change (extremum pick (x :: y :: ys))
      with (match x, extremum pick (y :: ys) with
            | Some a, Some b => Some (pick a b)
            | _, _ => None
            end).
    destruct x as [a |].
    + destruct (extremum pick (y :: ys)) as [b |] eqn:E.
      * split; [discriminate |].
        intros [H | [H | H]]; [discriminate H | discriminate H |].
        assert (Hn : Some b = None) by (apply IH; right; exact H).
        discriminate Hn.
      * split; [| reflexivity]. intros _.
        destruct (proj1 IH eq_refl) as [H | H]; [discriminate H |].
        right. right. exact H.
    + split; [| reflexivity]. intros _. right. now left.
Qed.

Lemma extremum_of_values (pick : Z -> Z -> Z) (zs : list Z) :
  zs <> [] -> exists m, extremum pick (map Some zs) = Some m.
Proof.
  intro Hne. destruct (extremum pick (map Some zs)) as [m |] eqn:E; [now exists m |].
  apply extremum_none in E. destruct E as [E | E].
  - destruct zs; [congruence | discriminate E].
  - apply in_map_iff in E. destruct E as (z & Hz & _). discriminate Hz.
Qed.

Lemma extremum_min (zs : list Z) (m : Z) :
  extremum Z.min (map Some zs) = Some m ->
  In m zs /\ forall t, In t zs -> (m <= t)%Z.
Proof.
  revert m. induction zs as [| z zs IH]; intros m H; [discriminate H |].
  destruct zs as [| y ys].
  - cbn in H. injection H as <-. split; [now left |].
    intros t [<- | []]. lia.
  - change (extremum Z.min (map Some (z :: y :: ys)))
      with (match extremum Z.min (map Some (y :: ys)) with
            | Some b => Some (Z.min z b)
            | None => None
            end) in H.
    destruct (extremum Z.min (map Some (y :: ys))) as [b |] eqn:E; [| discriminate H].
    injection H as <-. destruct (IH b eq_refl) as [Hin Hle]. split.
    + destruct (Z.min_spec z b) as [[_ ->] | [_ ->]]; [now left | now right].
    + intros t [<- | Ht]; [lia |]. specialize (Hle t Ht). lia.
Qed.

Lemma extremum_max (zs : list Z) (m : Z) :
  extremum Z.max (map Some zs) = Some m ->
  In m zs /\ forall t, In t zs -> (t <= m)%Z.
Proof.
  revert m. induction zs as [| z zs IH]; intros m H; [discriminate H |].
  destruct zs as [| y ys].
  - cbn in H. injection H as <-. split; [now left |].
    intros t [<- | []]. lia.
  - change (extremum Z.max (map Some (z :: y :: ys)))
      with (match extremum Z.max (map Some (y :: ys)) with
            | Some b => Some (Z.max z b)
            | None => None
            end) in H.
    destruct (extremum Z.max (map Some (y :: ys))) as [b |] eqn:E; [| discriminate H].
    injection H as <-. destruct (IH b eq_refl) as [Hin Hle]. split.
    + destruct (Z.max_spec z b) as [[_ ->] | [_ ->]]; [now right | now left].
    + intros t [<- | Ht]; [lia |]. specialize (Hle t Ht). lia.
Qed.

Lemma nonempty_length (reports : list ReportData) :
  reports <> [] -> (0 <? List.length reports) = true.
Proof. destruct reports; [congruence | reflexivity]. Qed.

(** X11.  The period of a combined report.  When the reports are not
    empty and every date that is read (the start of the period of a
    report, or the date of its generation when it has none; likewise
    for the end) is a valid date, the combined record is built, its
    period starts at the earliest of the starts and ends at the latest
    of the ends, both in ISO format. *)
Theorem combined_period (env : Env) (reports : list ReportData)
    (title : option string) (starts ends : list Z) :
  reports <> [] ->
  time_values env period_start reports = map Some starts -> starts <> [] ->
  time_values env period_end reports = map Some ends -> ends <> [] ->
  exists combined lo hi,
    combinedReport env reports title = Normal combined
    /\ period_start combined = Some (format_iso env lo)
    /\ period_end combined = Some (format_iso env hi)
    /\ In lo starts /\ (forall t, In t starts -> (lo <= t)%Z)
    /\ In hi ends /\ (forall t, In t ends -> (t <= hi)%Z).
Proof.
  intros Hne Hs Hsne He Hene.
  destruct (extremum_of_values Z.min Hsne) as (lo & Hlo).
  destruct (extremum_of_values Z.max Hene) as (hi & Hhi).
  destruct (extremum_min _ Hlo) as (Hlo_in & Hlo_le).
  destruct (extremum_max _ Hhi) as (Hhi_in & Hhi_le).
  eexists _, lo, hi.
  unfold combinedReport, when_nonempty, getEarliestDate, getLatestDate.
  rewrite (nonempty_length Hne), Hs, He, Hlo, Hhi. cbn [iso_of bind].
  split; [reflexivity |]. cbn [period_start period_end].
  repeat split; assumption.
Qed.

Lemma combinedReport_invalid (env : Env) (reports : list ReportData)
    (title : option string) :
  reports <> [] ->
  (time_values env period_start reports = []
   \/ In None (time_values env period_start reports)
   \/ time_values env period_end reports = []
   \/ In None (time_values env period_end reports)) ->
  combinedReport env reports title = Throw (ErrorObj "Invalid time value").
Proof.
  intros Hne Hbad.
  unfold combinedReport, when_nonempty, getEarliestDate, getLatestDate.
  rewrite (nonempty_length Hne).
  destruct (extremum Z.min (time_values env period_start reports)) as [lo |] eqn:Elo;
    [| reflexivity].
  destruct (extremum Z.max (time_values env period_end reports)) as [hi |] eqn:Ehi;
    [| reflexivity].
  exfalso. destruct Hbad as [H | [H | [H | H]]].
  - assert (Hn : Some lo = None)
      by (rewrite <- Elo; apply extremum_none; left; exact H).
    discriminate Hn.
  - assert (Hn : Some lo = None)
      by (rewrite <- Elo; apply extremum_none; right; exact H).
    discriminate Hn.
  - assert (Hn : Some hi = None)
      by (rewrite <- Ehi; apply extremum_none; left; exact H).
    discriminate Hn.
  - assert (Hn : Some hi = None)
      by (rewrite <- Ehi; apply extremum_none; right; exact H).
    discriminate Hn.
Qed.

(** X12.  A combined report cannot be built from reports with a date
    that does not parse.  When the reports are not empty and, among the
    dates read for the start or for the end of the period, there is an
    invalid one, or there is no date at all (every report has an empty
    date of generation and no period), the construction throws the
    [RangeError] of [toISOString], and [exportCombinedReport] throws
    it before any exporter is called. *)
Theorem combined_invalid_date (env : Env) (reports : list ReportData)
    (title : option string) :
  reports <> [] ->
  (time_values env period_start reports = []
   \/ In None (time_values env period_start reports)
   \/ time_values env period_end reports = []
   \/ In None (time_values env period_end reports)) ->
  combinedReport env reports title = Throw (ErrorObj "Invalid time value")
  /\ forall renders fmt template,
       exportCombinedReport env renders reports fmt title template
       = Throw (ErrorObj "Invalid time value").
Proof.
  intros Hne Hbad.
  pose proof (@combinedReport_invalid env reports title Hne Hbad) as Hthrow.
  split; [exact Hthrow |].
  intros renders fmt template. unfold exportCombinedReport. rewrite Hthrow. reflexivity.
Qed.

End CombineResults.

Section CombinedHighlights.

Import Json Combine.

Lemma allHighlights_app (a b : list ReportData) :
  allHighlights (a ++ b) = allHighlights a ++ allHighlights b.
Proof.
  unfold allHighlights, flat. rewrite map_app, flat_map_app, filter_app. reflexivity.
Qed.


Lemma filter_all {A} (p : A -> bool) (l : list A) :
  (forall x, In x l -> p x = true) -> filter p l = l.
Proof.
  induction l as [| x l IH]; intro H; [reflexivity |].
  cbn [filter]. rewrite (H x (or_introl eq_refl)), IH; [reflexivity |].
  intros y Hy. apply H. now right.
Qed.

Lemma combined_entries_form (reports : list ReportData) :
  parsed_form (JArr (firstn 10 (allHighlights reports))).
Proof.
  apply parsed_form_array. intros entry Hin.
  apply (allHighlights_form reports).
  rewrite <- (firstn_skipn 10). apply in_or_app. now left.
Qed.



(** X14.  Which reports add nothing to the combined highlights: a
    report whose highlights are the empty string, the text [[]] or the
    text [null] can be left out of the list without any change of the
    result. *)
Theorem combined_highlights_skip_empty (before after : list ReportData)
    (report : ReportData) :
  highlights report = EmptyString \/ highlights report = "[]"
  \/ highlights report = "null" ->
  generateCombinedHighlights (before ++ report :: after)
  = generateCombinedHighlights (before ++ after).
Proof.
  intro H.
  assert (Hnone : allHighlights [report] = []).
  { unfold allHighlights, flat, parse_highlights. cbn [map].
    destruct H as [-> | [-> | ->]]; reflexivity. }
  unfold generateCombinedHighlights.
  change (report :: after) with ([report] ++ after).
  rewrite !allHighlights_app, Hnone. reflexivity.
Qed.

Lemma combined_highlights_skip_empty_witness :
  generateCombinedHighlights
    ([Samples.with_highlights Samples.highlights_ab]
     ++ Samples.with_highlights EmptyString :: [Samples.with_highlights Samples.highlights_c])
  = generateCombinedHighlights
      ([Samples.with_highlights Samples.highlights_ab]
       ++ [Samples.with_highlights Samples.highlights_c]).
Proof.
  apply combined_highlights_skip_empty. left. reflexivity.
Defined.


End CombinedHighlights.

Section CombineExamples.

Import Json Combine.

Lemma combined_period_witness :
  exists combined,
    combinedReport DatedSamples.env [DatedSamples.march; DatedSamples.about_january] None
    = Normal combined
    /\ period_start combined = Some "1704067200000"
    /\ period_end combined = Some "1709251200000".
Proof.
  destruct (@combined_period DatedSamples.env
              [DatedSamples.march; DatedSamples.about_january] None
              [1709251200000; 1704067200000]%Z [1709251200000; 1704067200000]%Z)
    as (combined & lo & hi & Hrun & Hlo & Hhi & Hlo_in & Hlo_le & Hhi_in & Hhi_le);
    try reflexivity; try discriminate.
  exists combined. split; [exact Hrun |]. split.
  - destruct Hlo_in as [<- | [<- | []]]; [| exact Hlo].
    specialize (Hlo_le 1704067200000%Z (or_intror (or_introl eq_refl))). lia.
  - destruct Hhi_in as [<- | [<- | []]]; [exact Hhi |].
    specialize (Hhi_le 1709251200000%Z (or_introl eq_refl)). lia.
Defined.

Lemma combined_invalid_date_witness :
  combinedReport DatedSamples.env [DatedSamples.march; DatedSamples.undated] None
  = Throw (ErrorObj "Invalid time value").
Proof.
  apply (@combined_invalid_date DatedSamples.env
           [DatedSamples.march; DatedSamples.undated] None).
  - discriminate.
  - right. left. right. left. reflexivity.
Defined.


End CombineExamples.

(* ================================================================== *)
(** ** Variable substitution: texts left alone, dollar signs, order *)

Section SubstResults.

Import Subst SubstValues TemplateVariable.

Lemma getSubstitution_plain (matched before after value : string) :
  plain_dollars value = true ->
  getSubstitution matched before after value = value.
Proof.
  induction value as [| c value IH]; [reflexivity |].
  cbn [plain_dollars getSubstitution]. intro H.
  apply andb_true_iff in H. destruct H as [Hc Hrest].
  destruct (ascii_eqb c "$").
  - destruct value as [| d value']; [reflexivity |].
    apply negb_true_iff in Hc.
    apply orb_false_iff in Hc. destruct Hc as [Hc H4].
    apply orb_false_iff in Hc. destruct Hc as [Hc H3].
    apply orb_false_iff in Hc. destruct Hc as [H1 H2].
    rewrite H1, H2, H3, H4. rewrite (IH Hrest). reflexivity.
  - rewrite (IH Hrest). reflexivity.
Qed.

(** A placeholder of the variable is replaced by what the value
    stands for, when that does not depend on the place of the match. *)
Lemma replace_scan_match_out (n value out whole s : string) :
  (forall before after,
     getSubstitution (placeholder_of n) before after value = out) ->
  forall pos,
    replace_scan (placeholder_of n) value whole pos 0 (placeholder_of n +++ s)
    = out
      +++ replace_scan (placeholder_of n) value whole
            (pos + String.length (placeholder_of n)) 0 s.
Proof.
  intros Hv pos.
  pose proof (prefix_append (placeholder_of n) s) as Hp.
  specialize (Hv (substring 0 pos whole)
                (substring (pos + String.length (placeholder_of n))
                   (String.length whole - (pos + String.length (placeholder_of n)))
                   whole)).
  rewrite placeholder_unfold in *. cbn [String.append replace_scan].
  cbn [String.append] in Hp. rewrite Hp. rewrite Hv. f_equal.
  replace (String.length (String "{" (n +++ "}")) - 1)
    with (String.length (n +++ "}")) by (simpl; lia).
  rewrite replace_scan_skip.
  replace (pos + String.length (String "{" (n +++ "}")))
    with (S pos + String.length (n +++ "}")) by (simpl; lia).
  reflexivity.
Qed.

Lemma replace_scan_tokens_out (n value out whole : string) (ts : list token) :
  literal_name n = true ->
  (forall before after,
     getSubstitution (placeholder_of n) before after value = out) ->
  forallb wf_token ts = true ->
  forall pos,
    replace_scan (placeholder_of n) value whole pos 0 (render ts)
    = render (expand n [Lit out] ts).
Proof.
  intros Hn Hv. induction ts as [| t ts IH]; intros Hts pos.
  - reflexivity.
  - cbn [forallb] in Hts. apply andb_true_iff in Hts. destruct Hts as [Ht Hts].
    unfold expand. cbn [flat_map render]. rewrite render_app. fold (expand n [Lit out] ts).
    destruct t as [piece | m]; cbn [render_token expand_token wf_token] in *.
    + rewrite replace_scan_piece by exact Ht. rewrite (IH Hts).
      simpl. rewrite append_empty_r. reflexivity.
    + destruct (String.eqb_spec m n) as [-> | Hneq].
      * rewrite (@replace_scan_match_out n value out whole _ Hv). rewrite (IH Hts).
        simpl. rewrite append_empty_r. reflexivity.
      * rewrite replace_scan_other; [| assumption | assumption | congruence].
        rewrite (IH Hts). simpl. rewrite append_empty_r. reflexivity.
Qed.

(** A text without a placeholder of the variable is copied, whatever
    the value. *)
Lemma replace_scan_absent (n value whole : string) (ts : list token) :
  literal_name n = true -> forallb wf_token ts = true -> ~ In (Ph n) ts ->
  forall pos,
    replace_scan (placeholder_of n) value whole pos 0 (render ts) = render ts.
Proof.
  intros Hn. induction ts as [| t ts IH]; intros Hts Hout pos.
  - reflexivity.
  - cbn [forallb] in Hts. apply andb_true_iff in Hts. destruct Hts as [Ht Hts].
    assert (Hout' : ~ In (Ph n) ts) by (intro H; apply Hout; now right).
    cbn [render].
    destruct t as [piece | m]; cbn [render_token wf_token] in *.
    + rewrite replace_scan_piece by exact Ht. now rewrite (IH Hts Hout').
    + rewrite replace_scan_other; [| assumption | assumption |].
      * now rewrite (IH Hts Hout').
      * intros ->. apply Hout. now left.
Qed.

Lemma replaceVariables_absent (vars : list TemplateVariable.t) (ts : list token) :
  Forall (fun v => literal_name (name v) = true) vars ->
  forallb wf_token ts = true ->
  (forall v, In v vars -> ~ In (Ph (name v)) ts) ->
  replaceVariables (render ts) vars = render ts.
Proof.
  intros Hnames Hts. induction vars as [| v vs IH]; intro Hout; [reflexivity |].
  inversion Hnames as [| ? ? Hn Hnames']; subst.
  unfold replaceVariables. cbn [fold_left]. fold replaceVariables.
  unfold replace_global.
  rewrite replace_scan_absent; [| assumption | assumption | apply Hout; now left].
  apply IH; [assumption |]. intros w Hw. apply Hout. now right.
Qed.

(** X16.  A text in which no placeholder of a listed variable occurs
    comes back unchanged, whatever the values of the variables hold
    (dollar signs and braces included); so does a text without any
    brace. *)
Theorem replaceVariables_leaves_other_text (vars : list TemplateVariable.t) :
  Forall (fun v => literal_name (name v) = true) vars ->
  (forall ts,
     forallb wf_token ts = true ->
     (forall v, In v vars -> ~ In (Ph (name v)) ts) ->
     replaceVariables (render ts) vars = render ts)
  /\ (forall text,
        no_open_brace text = true -> replaceVariables text vars = text).
Proof.
  intro Hnames. split.
  - intros ts Hts Hout. now apply replaceVariables_absent.
  - intros text Htext. rewrite <- (append_empty_r text).
    change (text +++ EmptyString) with (render [Lit text]).
    apply replaceVariables_absent; [assumption | |].
    + cbn. now rewrite Htext.
    + intros v _ [H | []]. discriminate H.
Qed.

Lemma replaceVariables_leaves_other_text_witness :
  replaceVariables (render [Lit "Total for "; Ph "year"; Lit ": 100%"])
    [variable "company" "{year} $& Co"; variable "name" "$$"]
  = "Total for {year}: 100%".
Proof.
  assert (Hnames : Forall (fun v => literal_name (name v) = true)
                     [variable "company" "{year} $& Co"; variable "name" "$$"])
    by (repeat constructor).
  apply (proj1 (replaceVariables_leaves_other_text Hnames)
           [Lit "Total for "; Ph "year"; Lit ": 100%"]).
  - reflexivity.
  - intros v [<- | [<- | []]] [H | [H | [H | []]]]; discriminate H.
Defined.

Lemma expand_self (n : string) (ts : list token) :
  render (expand n [Lit (placeholder_of n)] ts) = render ts.
Proof.
  induction ts as [| t ts IH]; [reflexivity |].
  unfold expand. cbn [flat_map]. rewrite render_app.
  fold (expand n [Lit (placeholder_of n)] ts). rewrite IH. cbn [render]. f_equal.
  destruct t as [piece | m]; cbn [expand_token].
  - apply render_single.
  - destruct (String.eqb_spec m n) as [-> | _]; rewrite render_single; reflexivity.
Qed.

Lemma substitute_tokens_single (n value : string) (ts : list token) :
  render (expand n [Lit value] ts) = substitute_tokens [variable n value] ts.
Proof.
  induction ts as [| t ts IH]; [reflexivity |].
  unfold expand. cbn [flat_map]. rewrite render_app.
  fold (expand n [Lit value] ts). rewrite IH. cbn [substitute_tokens]. f_equal.
  destruct t as [piece | m]; cbn [expand_token substitute_token lookup variable name].
  - apply render_single.
  - rewrite (String.eqb_sym n m).
    destruct (String.eqb m n); rewrite render_single; reflexivity.
Qed.

(** X17.  Dollar signs in a value.  The value [$&] stands for the
    placeholder itself, so the text comes back unchanged; a value in
    which no dollar sign starts a pattern (as in [$5]) is inserted as
    it is; and a value that starts with two dollar signs is inserted
    with one of them. *)
Theorem replaceVariables_dollar_values (n : string) (ts : list token) :
  literal_name n = true -> forallb wf_token ts = true ->
  replaceVariables (render ts) [variable n "$&"] = render ts
  /\ (forall value, plain_dollars value = true ->
        replaceVariables (render ts) [variable n value]
        = substitute_tokens [variable n value] ts)
  /\ (forall value, plain_dollars value = true ->
        replaceVariables (render ts) [variable n ("$$" +++ value)]
        = substitute_tokens [variable n ("$" +++ value)] ts).
Proof.
  intros Hn Hts. unfold replaceVariables.
  cbn [fold_left variable name defaultValue]. unfold replace_global.
  split; [| split].
  - rewrite (@replace_scan_tokens_out n "$&" (placeholder_of n)); try assumption.
    + apply expand_self.
    + intros before after.
      change (getSubstitution (placeholder_of n) before after "$&")
        with (placeholder_of n +++ EmptyString).
      apply append_empty_r.
  - intros value Hv.
    rewrite (@replace_scan_tokens_out n value value); try assumption.
    + apply substitute_tokens_single.
    + intros before after. now apply getSubstitution_plain.
  - intros value Hv.
    rewrite (@replace_scan_tokens_out n ("$$" +++ value) ("$" +++ value));
      try assumption.
    + apply substitute_tokens_single.
    + intros before after.
      change (getSubstitution (placeholder_of n) before after ("$$" +++ value))
        with ("$" +++ getSubstitution (placeholder_of n) before after value).
      f_equal. now apply getSubstitution_plain.
Qed.

Lemma replaceVariables_dollar_values_witness :
  replaceVariables (render [Lit "Price: "; Ph "price"]) [variable "price" "$&"]
  = "Price: {price}"
  /\ replaceVariables (render [Lit "Price: "; Ph "price"]) [variable "price" "$5"]
     = "Price: $5"
  /\ replaceVariables (render [Lit "Price: "; Ph "price"]) [variable "price" "$$5"]
     = "Price: $5".
Proof.
  destruct (@replaceVariables_dollar_values "price" [Lit "Price: "; Ph "price"]
              eq_refl eq_refl) as (Hamp & Hplain & Htwo).
  split; [exact Hamp |]. split.
  - apply (Hplain "$5"). reflexivity.
  - apply (Htwo "5"). reflexivity.
Defined.

End SubstResults.

Section SubstOrder.

Import Subst SubstValues TemplateVariable.

Lemma settled_brace_free (vars : list TemplateVariable.t) :
  Forall (fun v => no_open_brace (defaultValue v) = true) vars -> settled vars.
Proof.
  induction 1 as [| v vs Hv _ IH]; [exact I |].
  split; [| exact IH].
  exists [Lit (defaultValue v)]. split; [now rewrite render_single |].
  split; [cbn; now rewrite Hv |].
  intros n [H | []]. discriminate H.
Qed.

Lemma lookup_listed (v : TemplateVariable.t) (vars : list TemplateVariable.t) :
  In v vars -> lookup (name v) vars <> None.
Proof.
  induction vars as [| w vars IH]; intros Hin; [destruct Hin |].
  cbn [lookup]. destruct (String.eqb_spec (name w) (name v)) as [_ | Hneq];
    [discriminate |].
  destruct Hin as [-> | Hin]; [congruence | now apply IH].
Qed.

Lemma lookup_unlisted (n : string) (vars : list TemplateVariable.t) :
  ~ In n (map name vars) -> lookup n vars = None.
Proof.
  induction vars as [| w vars IH]; intro Hout; [reflexivity |].
  cbn [lookup]. destruct (String.eqb_spec (name w) n) as [E | _].
  - exfalso. apply Hout. now left.
  - apply IH. intro H. apply Hout. now right.
Qed.

Lemma lookup_perm (vars vars' : list TemplateVariable.t) :
  Permutation vars vars' -> NoDup (map name vars) ->
  forall n, lookup n vars = lookup n vars'.
Proof.
  induction 1 as [| x l l' Hp IH | x y l | l l' l'' Hp1 IH1 Hp2 IH2]; intros Hnd n.
  - reflexivity.
  - cbn [lookup]. destruct (String.eqb (name x) n); [reflexivity |].
    apply IH. now inversion Hnd.
  - cbn [lookup].
    destruct (String.eqb_spec (name y) n) as [Ey | _];
      destruct (String.eqb_spec (name x) n) as [Ex | _]; try reflexivity.
    exfalso. inversion Hnd as [| ? ? Hout _]; subst.
    apply Hout. left. congruence.
  - rewrite (IH1 Hnd). apply IH2.
    eapply Permutation_NoDup; [apply Permutation_map; exact Hp1 | exact Hnd].
Qed.

Lemma substitute_tokens_ext (vars vars' : list TemplateVariable.t) (ts : list token) :
  (forall n, lookup n vars = lookup n vars') ->
  substitute_tokens vars ts = substitute_tokens vars' ts.
Proof.
  intro H. induction ts as [| t ts IH]; [reflexivity |].
  cbn [substitute_tokens]. rewrite IH. f_equal.
  destruct t as [piece | m]; [reflexivity |].
  cbn [substitute_token]. now rewrite H.
Qed.

(** X18.  On a text made of pieces without an opening brace and of
    placeholders with literal names, and for variables with literal
    names that are all different and values that hold no opening brace
    and no dollar sign, the order of the variables does not matter:
    two lists with the same variables give the same text.  (A text
    with an opening brace outside a placeholder, such as [{b{a}], is
    not such a text, and on it the order can matter.) *)
Theorem replaceVariables_order_irrelevant (vars vars' : list TemplateVariable.t)
    (ts : list token) :
  Permutation vars vars' ->
  NoDup (map name vars) ->
  Forall (fun v => literal_name (name v) = true) vars ->
  Forall (fun v => no_dollar (defaultValue v) = true) vars ->
  Forall (fun v => no_open_brace (defaultValue v) = true) vars ->
  forallb wf_token ts = true ->
  replaceVariables (render ts) vars = replaceVariables (render ts) vars'.
Proof.
  intros Hp Hnd Hnames Hdollar Hbrace Hts.
  rewrite (replaceVariables_tokens Hnames Hdollar (settled_brace_free Hbrace) _ Hts).
  rewrite (@replaceVariables_tokens vars'); try assumption.
  - apply substitute_tokens_ext. now apply lookup_perm.
  - eapply Permutation_Forall; eassumption.
  - eapply Permutation_Forall; eassumption.
  - apply settled_brace_free. eapply Permutation_Forall; eassumption.
Qed.

Lemma replaceVariables_order_irrelevant_witness :
  replaceVariables (render [Ph "a"; Lit " and "; Ph "b"])
    [variable "a" "x"; variable "b" "y"]
  = replaceVariables (render [Ph "a"; Lit " and "; Ph "b"])
      [variable "b" "y"; variable "a" "x"].
Proof.
  apply replaceVariables_order_irrelevant.
  - apply perm_swap.
  - apply NoDup_cons; [intros [H | []]; discriminate H |].
    apply NoDup_cons; [intros [] | apply NoDup_nil].
  - repeat constructor.
  - repeat constructor.
  - repeat constructor.
  - reflexivity.
Defined.

Lemma substitute_tokens_substituted (vars : list TemplateVariable.t) (ts : list token) :
  substitute_tokens vars ts = render (substituted vars ts).
Proof.
  induction ts as [| t ts IH]; [reflexivity |].
  unfold substituted in *. cbn [substitute_tokens map render]. rewrite IH. f_equal.
  destruct t as [piece | m]; [reflexivity |].
  cbn [substitute_token substituted_token]. destruct (lookup m vars); reflexivity.
Qed.

Lemma lookup_In (n : string) (v : TemplateVariable.t) (vars : list TemplateVariable.t) :
  lookup n vars = Some v -> In v vars.
Proof.
  induction vars as [| w vars IH]; [discriminate |].
  cbn [lookup]. destruct (String.eqb (name w) n).
  - intro H. injection H as <-. now left.
  - intro H. right. now apply IH.
Qed.

Lemma substituted_wf (vars : list TemplateVariable.t) (ts : list token) :
  Forall (fun v => no_open_brace (defaultValue v) = true) vars ->
  forallb wf_token ts = true ->
  forallb wf_token (substituted vars ts) = true.
Proof.
  intros Hbrace. induction ts as [| t ts IH]; intro Hts; [reflexivity |].
  cbn [forallb] in Hts. apply andb_true_iff in Hts. destruct Hts as [Ht Hts].
  unfold substituted in *. cbn [map forallb]. rewrite (IH Hts), andb_true_r.
  destruct t as [piece | m]; [exact Ht |].
  cbn [substituted_token]. destruct (lookup m vars) as [v |] eqn:E; [| exact Ht].
  cbn [wf_token]. apply lookup_In in E.
  rewrite Forall_forall in Hbrace. now apply Hbrace.
Qed.

Lemma substituted_absent (vars : list TemplateVariable.t) (ts : list token) :
  forall v, In v vars -> ~ In (Ph (name v)) (substituted vars ts).
Proof.
  intros v Hv Hin. unfold substituted in Hin. apply in_map_iff in Hin.
  destruct Hin as (t & Ht & _).
  destruct t as [piece | m]; [discriminate Ht |].
  cbn [substituted_token] in Ht.
  destruct (lookup m vars) as [w |] eqn:E; [discriminate Ht |].
  injection Ht as ->. exact (lookup_listed _ _ Hv E).
Qed.

(** X19.  On a text made of pieces without an opening brace and of
    placeholders with literal names, and for variables with literal
    names and values that hold no opening brace and no dollar sign, a
    second substitution with the same variables changes nothing: the
    substitution is idempotent.  (A text with an opening brace outside
    a placeholder, such as [{b{a}], is not such a text, and on it a
    second substitution can change the result.) *)
Theorem replaceVariables_idempotent (vars : list TemplateVariable.t) (ts : list token) :
  Forall (fun v => literal_name (name v) = true) vars ->
  Forall (fun v => no_dollar (defaultValue v) = true) vars ->
  Forall (fun v => no_open_brace (defaultValue v) = true) vars ->
  forallb wf_token ts = true ->
  replaceVariables (replaceVariables (render ts) vars) vars
  = replaceVariables (render ts) vars.
Proof.
  intros Hnames Hdollar Hbrace Hts.
  rewrite (replaceVariables_tokens Hnames Hdollar (settled_brace_free Hbrace) _ Hts).
  rewrite substitute_tokens_substituted.
  apply replaceVariables_absent.
  - exact Hnames.
  - now apply substituted_wf.
  - apply substituted_absent.
Qed.

Lemma replaceVariables_idempotent_witness :
  replaceVariables
    (replaceVariables (render [Ph "a"; Lit " and "; Ph "c"])
       [variable "a" "x"; variable "b" "y"])
    [variable "a" "x"; variable "b" "y"]
  = replaceVariables (render [Ph "a"; Lit " and "; Ph "c"])
      [variable "a" "x"; variable "b" "y"].
Proof.
  apply replaceVariables_idempotent.
  - repeat constructor.
  - repeat constructor.
  - repeat constructor.
  - reflexivity.
Defined.

End SubstOrder.

(* ================================================================== *)
(** ** The Word document *)

Section WordFacts.

Import Word.

(** X20.  The Word document does not show the custom sections of a
    template: whatever custom sections a template holds, the document
    is the one of the template without them.  (The markdown and HTML
    renderers do show them.) *)
Theorem word_ignores_custom_sections (env : Env) (report : ReportData)
    (template : ExportTemplate) (customs : list CustomSection.t) :
  document env report (Some (with_customSections template customs))
  = document env report (Some template)
  /\ List.length (section_children (document env report (Some template))) <= 11.
Proof.
  split; [reflexivity |].
  unfold document, section_children_of, period_paragraphs, shown, section_paragraphs.
  cbn [section_children].
  destruct (truthy_opt (period_start report) && truthy_opt (period_end report));
    destruct (Sections.showExecutiveSummary (sections template));
    destruct (Sections.showHighlights (sections template));
    destruct (Sections.showDetailedContent (sections template));
    destruct (Sections.showRecommendations (sections template));
    cbn [List.length app]; lia.
Qed.

(** X21.  The Word document and the markdown document of a template
    show the same fixed sections: after the title, the metadata and
    the period, the paragraphs of the Word document are, two by two,
    the heading and the text of the sections that the markdown
    renderer writes, in the same order; and the Word document has a
    paragraph for the period exactly when the markdown document has a
    line for it. *)
Theorem word_sections_match_markdown (env : Env) (report : ReportData)
    (template : ExportTemplate) :
  sections_markdown
    (map paragraph_text
       (skipn (2 + List.length (period_paragraphs env report (Some template)))
          (section_children (document env report (Some template)))))
  = Markdown.fixed_sections report template
  /\ (List.length (period_paragraphs env report (Some template)) = 1
      <-> truthy_string (Markdown.periodInfo env report) = true)
  /\ (List.length (period_paragraphs env report (Some template)) = 0
      <-> Markdown.periodInfo env report = EmptyString).
Proof.
  unfold document, section_children_of, period_paragraphs, shown, section_paragraphs,
    Markdown.fixed_sections, Markdown.periodInfo.
  cbn [section_children].
  destruct (truthy_opt (period_start report) && truthy_opt (period_end report)).
  - split; [| split; [split; reflexivity | split; intro H; discriminate H]].
    cbn [List.length Nat.add app skipn].
    destruct (Sections.showExecutiveSummary (sections template));
      destruct (Sections.showHighlights (sections template));
      destruct (Sections.showDetailedContent (sections template));
      destruct (Sections.showRecommendations (sections template));
      cbn [app map sections_markdown paragraph_text children fold_right text];
      rewrite ?append_empty_r; reflexivity.
  - split; [| split; [split; intro H; discriminate H | split; reflexivity]].
    cbn [List.length Nat.add app skipn].
    destruct (Sections.showExecutiveSummary (sections template));
      destruct (Sections.showHighlights (sections template));
      destruct (Sections.showDetailedContent (sections template));
      destruct (Sections.showRecommendations (sections template));
      cbn [app map sections_markdown paragraph_text children fold_right text];
      rewrite ?append_empty_r; reflexivity.
Qed.

(** X22.  A gap of 0 in a template is not a gap of 0 in the document:
    when the section gap and the paragraph gap of the template are 0,
    every paragraph gets the spacing it has in the document of no
    template (400, 300 and 200), because 0 is falsy. *)
Theorem word_zero_gap_is_default (env : Env) (report : ReportData)
    (template : ExportTemplate) :
  (Styling.sectionGap (Styling.spacing (styling template)) == 0)%Q ->
  (Styling.paragraphGap (Styling.spacing (styling template)) == 0)%Q ->
  Sections.showExecutiveSummary (sections template) = true ->
  Sections.showHighlights (sections template) = true ->
  Sections.showDetailedContent (sections template) = true ->
  Sections.showRecommendations (sections template) = true ->
  map spacing (section_children (document env report (Some template)))
  = map spacing (section_children (document env report None)).
Proof.
  intros Hs Hp H1 H2 H3 H4.
  assert (Es : forall d, sectionGap_or (Some template) d = d).
  { intro d. unfold sectionGap_or, or_number.
    assert (E : Qeq_bool (Styling.sectionGap (Styling.spacing (styling template)) * 10) 0
                = true).
    { apply Qeq_bool_iff. rewrite Hs. reflexivity. }
    now rewrite E. }
  assert (Ep : forall d, paragraphGap_or (Some template) d = d).
  { intro d. unfold paragraphGap_or, or_number.
    assert (E : Qeq_bool (Styling.paragraphGap (Styling.spacing (styling template)) * 10) 0
                = true).
    { apply Qeq_bool_iff. rewrite Hp. reflexivity. }
    now rewrite E. }
  unfold document, section_children_of, period_paragraphs, shown, section_paragraphs,
    title_paragraph, metadata_paragraph.
  cbn [section_children]. rewrite H1, H2, H3, H4, !Es, !Ep.
  destruct (truthy_opt (period_start report) && truthy_opt (period_end report));
    reflexivity.
Qed.

Lemma word_zero_gap_is_default_witness :
  map spacing
    (section_children
       (document (Samples.env_at 0) (Samples.numbered 1)
          (Some (mkTemplate "t0" "Tight" "no gaps" [word]
                   (header (Samples.template_with false []))
                   (footer (Samples.template_with false []))
                   (Styling.mk "#2563eb" "#059669" "Inter" 14%Q (16 # 10)%Q
                      (Styling.mkMargins 40%Q 40%Q 40%Q 40%Q)
                      (Styling.mkSpacing 0%Q 0%Q))
                   (Sections.mk true true true true [])
                   [] "2024-01-01" "2024-01-01" false))))
  = map spacing
      (section_children (document (Samples.env_at 0) (Samples.numbered 1) None)).
Proof.
  apply word_zero_gap_is_default; reflexivity.
Defined.

End WordFacts.

(* ================================================================== *)
(** ** Markdown: what the templated document depends on *)

Section MarkdownReads.

Import Markdown.

(** X23.  The templated markdown document shows nothing of a section
    that the template switches off: two reports with the same title,
    type, dates and period, which agree on the field of every section
    that is switched on, give the same document, whatever they hold in
    the other fields (and in their identifier and record count). *)
Theorem markdown_hides_disabled_sections (env : Env) (r r' : ReportData)
    (template : ExportTemplate) :
  title r = title r' -> report_type r = report_type r' ->
  generated_at r = generated_at r' ->
  period_start r = period_start r' -> period_end r = period_end r' ->
  (Sections.showExecutiveSummary (sections template) = true -> summary r = summary r') ->
  (Sections.showHighlights (sections template) = true -> highlights r = highlights r') ->
  (Sections.showDetailedContent (sections template) = true -> content r = content r') ->
  (Sections.showRecommendations (sections template) = true ->
   suggestions r = suggestions r') ->
  fst (generateTemplatedMarkdown env (mkHeap r template))
  = fst (generateTemplatedMarkdown env (mkHeap r' template)).
Proof.
  intros Ht Hty Hg Hps Hpe Hs Hh Hc Hr.
  unfold generateTemplatedMarkdown, title_block, periodInfo, fixed_sections.
  cbn [fst h_report h_template].
  rewrite Ht, Hty, Hg, Hps, Hpe.
  destruct (Sections.showExecutiveSummary (sections template));
    [rewrite (Hs eq_refl) |];
    (destruct (Sections.showHighlights (sections template));
       [rewrite (Hh eq_refl) |]);
    (destruct (Sections.showDetailedContent (sections template));
       [rewrite (Hc eq_refl) |]);
    (destruct (Sections.showRecommendations (sections template));
       [rewrite (Hr eq_refl) |]);
    reflexivity.
Qed.

Lemma markdown_hides_disabled_sections_witness :
  fst (generateTemplatedMarkdown (Samples.env_at 0)
         (mkHeap (Samples.with_highlights Samples.highlights_ab)
            (TemplateSamples.showing true false true true)))
  = fst (generateTemplatedMarkdown (Samples.env_at 0)
           (mkHeap (Samples.with_highlights Samples.highlights_c)
              (TemplateSamples.showing true false true true))).
Proof.
  apply markdown_hides_disabled_sections; try reflexivity.
  intro H. discriminate H.
Defined.

(** X24.  The document of no template and the document of a plain
    template (no header, no footer of its own, the four sections on,
    no custom section) are the same but for one line feed: the
    untemplated document has one more empty line between the metadata
    and the first section. *)
Theorem markdown_plain_template (env : Env) (report : ReportData)
    (template : ExportTemplate) :
  Header.enabled (header template) = false ->
  Footer.enabled (footer template) = false ->
  Sections.showExecutiveSummary (sections template) = true ->
  Sections.showHighlights (sections template) = true ->
  Sections.showDetailedContent (sections template) = true ->
  Sections.showRecommendations (sections template) = true ->
  Sections.customSections (sections template) = [] ->
  exists rest,
    fst (generateTemplatedMarkdown env (mkHeap report template))
    = title_block env report +++ rest
    /\ fst (generateMarkdown env report)
       = title_block env report +++ nl +++ rest.
Proof.
  intros Hh Hf H1 H2 H3 H4 Hc.
  exists (fixed_sections report template
          +++ "---" +++ nl +++ "*Generated by Smart Report Generator*" +++ nl).
  unfold generateTemplatedMarkdown, generateMarkdown, header_block, footer_block,
    with_sorted_sections, fixed_sections, section_text, title_block.
  cbn [fst h_report h_template sections footer header Sections.customSections
       Sections.showExecutiveSummary Sections.showHighlights
       Sections.showDetailedContent Sections.showRecommendations].
  rewrite Hh, Hf, H1, H2, H3, H4, Hc.
  cbn [sort_by_order fold_right custom_sections_text].
  destruct (truthy_string (periodInfo env report)) eqn:Ep.
  - split; rewrite ?append_assoc, ?append_empty_r; cbn [String.append];
      rewrite ?append_assoc; reflexivity.
  - assert (E : periodInfo env report = EmptyString).
    { destruct (periodInfo env report); [reflexivity | discriminate Ep]. }
    rewrite E.
    split; rewrite ?append_assoc, ?append_empty_r; cbn [String.append];
      rewrite ?append_assoc; reflexivity.
Qed.

Lemma markdown_plain_template_witness :
  exists rest,
    fst (generateTemplatedMarkdown (Samples.env_at 0)
           (mkHeap (Samples.numbered 1) TemplateSamples.plain))
    = title_block (Samples.env_at 0) (Samples.numbered 1) +++ rest
    /\ fst (generateMarkdown (Samples.env_at 0) (Samples.numbered 1))
       = title_block (Samples.env_at 0) (Samples.numbered 1) +++ nl +++ rest.
Proof.
  apply markdown_plain_template; reflexivity.
Defined.

End MarkdownReads.

(* ================================================================== *)
(** ** The batch dialog: what it shows after a run *)

Section DialogFacts.

Import Batch Dialog.

Variable renders : Format -> option ExportTemplate -> ReportData -> bool.
Variable schedule : list (nat * ReportData) -> list (nat * ReportData).
Variable reports : list ReportData.
Variable options : BatchExportOptions.

Hypothesis schedule_perm : forall tasks, Permutation tasks (schedule tasks).
Hypothesis onProgress_returns : progress_returns options.
Hypothesis onError_returns : error_returns options.
Hypothesis ids_distinct : NoDup (map _id reports).

Lemma same_id_same_report (l : list ReportData) (r r' : ReportData) :
  NoDup (map _id l) -> In r l -> In r' l -> _id r = _id r' -> r = r'.
Proof.
  induction l as [| x l IH]; intros Hnd Hr Hr' Hid; [destruct Hr |].
  inversion Hnd as [| ? ? Hout Hnd']; subst.
  destruct Hr as [-> | Hr]; destruct Hr' as [-> | Hr'].
  - reflexivity.
  - exfalso. apply Hout. rewrite Hid. now apply in_map.
  - exfalso. apply Hout. rewrite <- Hid. now apply in_map.
  - now apply IH.
Qed.

Lemma listed_iff_failed (processed : list ReportData) (r : ReportData) :
  Permutation reports processed -> In r reports ->
  existsb (fun err => String.eqb (reportId err) (_id r))
    (map (entry_of options)
       (filter (fun x => negb (outcome_of renders options x)) processed))
  = negb (outcome_of renders options r).
Proof.
  intros Hperm Hr.
  destruct (outcome_of renders options r) eqn:Eo; cbn [negb].
  - destruct (existsb _ _) eqn:Ex; [| reflexivity].
    exfalso. apply existsb_exists in Ex. destruct Ex as (err & Hin & Heq).
    apply in_map_iff in Hin. destruct Hin as (r' & <- & Hin).
    apply filter_In in Hin. destruct Hin as [Hin Hfail].
    apply String.eqb_eq in Heq. cbn [entry_of reportId] in Heq.
    assert (E : r' = r).
    { apply (@same_id_same_report reports r' r ids_distinct); [| exact Hr | exact Heq].
      eapply Permutation_in; [symmetry; exact Hperm | exact Hin]. }
    subst r'. rewrite Eo in Hfail. discriminate Hfail.
  - apply existsb_exists. exists (entry_of options r). split.
    + apply in_map. apply filter_In. split.
      * eapply Permutation_in; [exact Hperm | exact Hr].
      * now rewrite Eo.
    + cbn [entry_of reportId]. apply String.eqb_refl.
Qed.

Lemma shown_counts (l : list ReportData) :
  completedCount (map (shown_entry renders options) l)
  = List.length (filter (outcome_of renders options) l)
  /\ errorCount (map (shown_entry renders options) l)
     = List.length (filter (fun x => negb (outcome_of renders options x)) l).
Proof.
  unfold completedCount, errorCount.
  induction l as [| r l [IH1 IH2]]; [split; reflexivity |].
  assert (Hc : is_completed (shown_entry renders options r)
               = outcome_of renders options r).
  { unfold is_completed, shown_entry. cbn [p_status].
    destruct (outcome_of renders options r); reflexivity. }
  assert (He : is_error (shown_entry renders options r)
               = negb (outcome_of renders options r)).
  { unfold is_error, shown_entry. cbn [p_status].
    destruct (outcome_of renders options r); reflexivity. }
  cbn [map filter]. rewrite Hc, He.
  destruct (outcome_of renders options r); cbn [negb List.length];
    rewrite IH1, IH2; split; reflexivity.
Qed.

Lemma final_update_same (r : BatchExportResult) (prev l : list ExportProgress) :
  Forall2 same_entry prev l -> final_update r prev = final_update r l.
Proof.
  induction 1 as [| p q prev l (Hid & Htitle & Htime) _ IH]; [reflexivity |].
  unfold final_update in *. cbn [map]. rewrite IH, Hid, Htitle, Htime. reflexivity.
Qed.

(** X26.  What the batch dialog shows after an individual export of
    reports with pairwise distinct identifiers, whatever the callbacks
    did to the statuses during the run: the final update marks the
    entry of a report as completed when its export succeeded and as an
    error, with the text [Export failed], when it failed; the numbers
    of completed and failed entries it displays are the counts of the
    result; and the progress bar is at 100 percent. *)
Theorem dialog_shows_result (size : nat) :
  size = batchSize_or_default options -> 1 <= size ->
  forall fuel, List.length reports <= fuel ->
    exists st,
      batchExport renders schedule reports options fuel = Some (Normal st)
      /\ forall prev,
           Forall2 same_entry prev (progressList (format options) reports) ->
           final_update (result st) prev = map (shown_entry renders options) reports
           /\ completedCount (final_update (result st) prev) = successful (result st)
           /\ errorCount (final_update (result st) prev) = failed (result st)
           /\ (reports <> [] ->
               (progressPercentage (final_update (result st) prev) == 100)%Q).
Proof.
  intros Hsize Hpos fuel Hfuel.
  destruct (batchExport_effect renders schedule reports schedule_perm
              onProgress_returns onError_returns Hsize Hpos Hfuel)
    as (processed & st & Hrun & Hres & Hperm & _).
  destruct (settle_all_result renders options processed (mkResult 0 0 []))
    as (Hs & Hf & He).
  rewrite <- Hres in Hs, Hf, He. cbn [successful failed errors app Nat.add] in Hs, Hf, He.
  assert (Hfinal : final_update (result st) (progressList (format options) reports)
                   = map (shown_entry renders options) reports).
  { unfold final_update, progressList. rewrite map_map. apply map_ext_in.
    intros r Hr. cbn [p_id p_title p_estimatedTime]. rewrite He.
    rewrite (@listed_iff_failed processed r Hperm Hr). unfold shown_entry.
    destruct (outcome_of renders options r); reflexivity. }
  destruct (shown_counts reports) as [Hc Herr].
  assert (Hcs : completedCount (map (shown_entry renders options) reports)
                = successful (result st)).
  { rewrite Hc, Hs. apply Permutation_length. now apply Permutation_filter. }
  assert (Hes : errorCount (map (shown_entry renders options) reports)
                = failed (result st)).
  { rewrite Herr, Hf. apply Permutation_length. now apply Permutation_filter. }
  exists st. split; [exact Hrun |]. intros prev Hprev.
  rewrite (final_update_same (result st) Hprev), Hfinal.
  split; [reflexivity |]. split; [exact Hcs |]. split; [exact Hes |].
  intro Hne. unfold progressPercentage. rewrite Hc, Herr, length_map.
  assert (Hall : List.length (filter (outcome_of renders options) reports)
                 + List.length
                     (filter (fun x => negb (outcome_of renders options x)) reports)
                 = List.length reports).
  { clear. induction reports as [| r l IH]; [reflexivity |].
    cbn [filter]. destruct (outcome_of renders options r); cbn [negb List.length]; lia. }
  rewrite Hall.
  assert (Hlen : 0 < List.length reports).
  { destruct reports; [congruence | cbn; lia]. }
  assert (Hgo : (0 <? List.length reports) = true) by (apply Nat.ltb_lt; exact Hlen).
  rewrite Hgo. field.
  intro Hz. unfold Qeq in Hz. cbn [Qnum Qden inject_Z] in Hz. lia.
Qed.

End DialogFacts.

Lemma three_ids_distinct : NoDup (map _id (Samples.reports 3)).
Proof.
  change (NoDup ["r0"; "r1"; "r2"]).
  apply NoDup_cons; [intros [H | [H | []]]; discriminate H |].
  apply NoDup_cons; [intros [H | []]; discriminate H |].
  apply NoDup_cons; [intros [] | apply NoDup_nil].
Qed.

Lemma dialog_shows_result_witness :
  exists st,
    Batch.batchExport (Samples.fails_on "r1") Samples.reversed (Samples.reports 3)
      (Samples.options_with (Some 2)) 3 = Some (Normal st)
    /\ map Dialog.p_status
         (Dialog.final_update (Batch.result st)
            (Dialog.progressList markdown (Samples.reports 3)))
       = [Dialog.Completed; Dialog.Error; Dialog.Completed]
    /\ Dialog.completedCount
         (Dialog.final_update (Batch.result st)
            (Dialog.progressList markdown (Samples.reports 3)))
       = Batch.successful (Batch.result st).
Proof.
  destruct (@dialog_shows_result (Samples.fails_on "r1") Samples.reversed
              (Samples.reports 3) (Samples.options_with (Some 2)) reversed_perm
              (@options_with_progress_returns (Some 2))
              (@options_with_error_returns (Some 2))
              three_ids_distinct 2 eq_refl (le_S _ _ (le_n 1)) 3 (le_n 3))
    as (st & Hrun & Hshown).
  assert (Hsame : Forall2 Dialog.same_entry
                    (Dialog.progressList markdown (Samples.reports 3))
                    (Dialog.progressList markdown (Samples.reports 3))).
  { repeat constructor. }
  destruct (Hshown _ Hsame) as (Hfinal & Hc & _).
  exists st. split; [exact Hrun |]. split; [| exact Hc].
  rewrite Hfinal. reflexivity.
Defined.

Section DialogSelection.

Import Dialog.

Lemma existsb_same_members {A} (p : A -> bool) (l l' : list A) :
  (forall x, In x l <-> In x l') -> existsb p l = existsb p l'.
Proof.
  intro H.
  destruct (existsb p l) eqn:E; destruct (existsb p l') eqn:E'; try reflexivity.
  - apply existsb_exists in E. destruct E as (x & Hx & Hp).
    assert (Ht : existsb p l' = true)
      by (apply existsb_exists; exists x; split; [now apply H | exact Hp]).
    congruence.
  - apply existsb_exists in E'. destruct E' as (x & Hx & Hp).
    assert (Ht : existsb p l = true)
      by (apply existsb_exists; exists x; split; [now apply H | exact Hp]).
    congruence.
Qed.

Lemma filter_both {A} (p q : A -> bool) (l : list A) :
  filter (fun x => p x && q x) l = filter q (filter p l).
Proof.
  induction l as [| x l IH]; [reflexivity |].
  cbn [filter]. destruct (p x); cbn [andb filter]; [| exact IH].
  destruct (q x); now rewrite IH.
Qed.

Lemma selected_after_removal (rid id : string) (sel : list string) :
  existsb (String.eqb id) (filter (fun x => negb (String.eqb x rid)) sel)
  = existsb (String.eqb id) sel && negb (String.eqb id rid).
Proof.
  induction sel as [| x sel IH]; [reflexivity |].
  cbn [filter existsb].
  destruct (String.eqb_spec x rid) as [-> | Hx]; cbn [negb existsb].
  - rewrite IH. destruct (String.eqb id rid); [| reflexivity].
    cbn [orb negb]. now rewrite !andb_false_r.
  - rewrite IH. destruct (String.eqb_spec id x) as [-> | Hid]; cbn [orb]; [| reflexivity].
    destruct (String.eqb_spec x rid) as [E | _]; [congruence |].
    cbn [negb]. now rewrite andb_true_r.
Qed.

(** X27.  The reports that the batch dialog exports.  With every
    report selected they are the reports shown; they come in the order
    of the list shown, so that neither the order in which the check
    boxes were ticked nor an identifier selected twice matters; and a
    report that is deselected is taken out, the others staying in
    place. *)
Theorem dialog_selection (filteredReports : list ReportData) :
  reportsToExport filteredReports (handleSelectAll filteredReports true)
  = filteredReports
  /\ (forall selected selected',
        (forall id, In id selected <-> In id selected') ->
        reportsToExport filteredReports selected
        = reportsToExport filteredReports selected')
  /\ (forall reportId selected,
        reportsToExport filteredReports (handleSelectReport reportId false selected)
        = filter (fun report => negb (String.eqb (_id report) reportId))
                 (reportsToExport filteredReports selected))
  /\ (forall reportId selected report,
        In report (reportsToExport filteredReports
                     (handleSelectReport reportId true selected))
        <-> In report filteredReports
            /\ (In (_id report) selected \/ _id report = reportId)).
Proof.
  unfold reportsToExport, handleSelectAll, handleSelectReport.
  split; [| split; [| split]].
  - apply filter_all. intros r Hr. apply existsb_exists.
    exists (_id r). split; [now apply in_map | apply String.eqb_refl].
  - intros selected selected' H. apply filter_ext. intro r.
    now apply existsb_same_members.
  - intros reportId selected. rewrite <- filter_both. apply filter_ext. intro r.
    apply selected_after_removal.
  - intros reportId selected r. rewrite filter_In, existsb_exists. split.
    + intros [Hr (id & Hin & Heq)]. split; [exact Hr |].
      apply String.eqb_eq in Heq. subst id.
      apply in_app_or in Hin. destruct Hin as [Hin | [<- | []]]; [now left | now right].
    + intros [Hr Hsel]. split; [exact Hr |].
      exists (_id r). split; [| apply String.eqb_refl].
      apply in_or_app. destruct Hsel as [Hsel | <-]; [now left | right; now left].
Qed.

Lemma list_sum_constant {A} (c : nat) (l : list A) :
  list_sum (map (fun _ => c) l) = c * List.length l.
Proof.
  unfold list_sum. induction l as [| x l IH]; [cbn; lia |].
  cbn [map fold_right List.length]. rewrite IH. lia.
Qed.

(** X28.  The estimates of the batch dialog agree: the estimated times
    of the entries of the progress list add up to the estimate for the
    whole selection, which is the estimate for one report times the
    number of reports; the final update keeps them; and a report takes
    longest as PDF and least as markdown. *)
Theorem dialog_estimates (fmt : Format) (reports : list ReportData)
    (result : Batch.BatchExportResult) :
  total_estimate (progressList fmt reports)
  = Estimate.getEstimatedBatchTime (List.length reports) fmt
  /\ total_estimate (final_update result (progressList fmt reports))
     = Estimate.getEstimatedBatchTime (List.length reports) fmt
  /\ Estimate.getEstimatedBatchTime (List.length reports) fmt
     = List.length reports * Estimate.getEstimatedBatchTime 1 fmt
  /\ Estimate.getEstimatedBatchTime (List.length reports) markdown
     <= Estimate.getEstimatedBatchTime (List.length reports) word
     <= Estimate.getEstimatedBatchTime (List.length reports) pdf.
Proof.
  assert (H1 : total_estimate (progressList fmt reports)
               = Estimate.getEstimatedBatchTime (List.length reports) fmt).
  { unfold total_estimate, progressList, Estimate.getEstimatedBatchTime.
    rewrite map_map. cbn [p_estimatedTime].
    rewrite list_sum_constant. lia. }
  split; [exact H1 |]. split.
  - rewrite <- H1. unfold total_estimate, final_update. rewrite map_map.
    reflexivity.
  - unfold Estimate.getEstimatedBatchTime, Estimate.baseTimePerReport,
      Estimate.delayTime.
    split; [lia |]. split; apply Nat.mul_le_mono_r; lia.
Qed.

End DialogSelection.

(* ================================================================== *)
(** ** Batch orchestration: the order of a run *)

Section BatchOrder.

Import Batch BatchTrace.

Variable renders : Format -> option ExportTemplate -> ReportData -> bool.
Variable schedule : list (nat * ReportData) -> list (nat * ReportData).
Variable reports : list ReportData.
Variable options : BatchExportOptions.

Hypothesis schedule_perm : forall tasks, Permutation tasks (schedule tasks).
Hypothesis onProgress_returns : progress_returns options.
Hypothesis onError_returns : error_returns options.

Lemma schedule_one (t : nat * ReportData) : schedule [t] = [t].
Proof. apply Permutation_length_1_inv. apply schedule_perm. Qed.

(** With chunks of one report the tasks end in the order of the list. *)
Lemma chunk_tasks_one :
  forall remaining j,
    remaining = List.length reports - j -> j <= List.length reports ->
    flat_map (chunk_tasks schedule 1 reports) (seq j remaining)
    = mapi_from j (fun report index => (index, report)) (skipn j reports).
Proof.
  induction remaining as [| remaining IH]; intros j Hrem Hj.
  - rewrite skipn_past_end by lia. reflexivity.
  - cbn [seq flat_map]. rewrite IH by lia.
    unfold chunk_tasks. rewrite Nat.mul_1_r, slice_skipn.
    destruct (skipn j reports) as [| r rest] eqn:E.
    + exfalso. assert (Hlen : List.length (skipn j reports) = 0) by now rewrite E.
      rewrite length_skipn in Hlen. lia.
    + assert (Hrest : skipn (S j) reports = rest).
      { replace (S j) with (1 + j) by lia. rewrite <- skipn_skipn, E. reflexivity. }
      rewrite Hrest. cbn [firstn mapi mapi_from]. rewrite schedule_one.
      rewrite Nat.add_0_r. reflexivity.
Qed.

Lemma exports_of_task_events (tr : list event) :
  exports_of (filter is_task_event tr) = exports_of tr.
Proof.
  induction tr as [| ev tr IH]; [reflexivity |].
  destruct ev; cbn [filter is_task_event exports_of flat_map app];
    fold (exports_of (filter is_task_event tr)); fold (exports_of tr);
    rewrite IH; reflexivity.
Qed.

Lemma exports_of_tasks (tasks : list (nat * ReportData)) :
  exports_of (flat_map (task_events renders reports options) tasks)
  = map (fun t : nat * ReportData => (snd t, outcome_of renders options (snd t))) tasks.
Proof.
  induction tasks as [| [i r] tasks IH]; [reflexivity |].
  cbn [flat_map map snd]. unfold exports_of in *. rewrite flat_map_app, IH.
  change (?x :: ?l) with ([x] ++ l) at 2. f_equal.
  unfold task_events, delay_events, progress_events, error_events.
  destruct ((0 <? i) && (0 <? delay_or_default options));
    destruct (onProgress options); destruct (outcome_of renders options r);
    destruct (onError options); reflexivity.
Qed.

(** X25.  With [batchSize: 1] a run is sequential: when the callbacks
    return, the tasks run one after the other in the order of the list,
    whatever the event loop does; the reports are exported in that
    order, the list of errors holds the failed reports in that order,
    and the calls of [onProgress] come in that order. *)
Theorem batchExport_sequential :
  batchSize_or_default options = 1 ->
  forall fuel, List.length reports <= fuel ->
    exists st,
      batchExport renders schedule reports options fuel = Some (Normal st)
      /\ filter is_task_event (trace st)
         = flat_map (task_events renders reports options) (indexed reports)
      /\ exports_of (trace st)
         = map (fun r => (r, outcome_of renders options r)) reports
      /\ errors (result st)
         = map (entry_of options)
             (filter (fun r => negb (outcome_of renders options r)) reports)
      /\ (onProgress options <> None ->
          progress_calls_of (trace st)
          = flat_map (progress_of renders reports options) (indexed reports)).
Proof.
  intros Hsize fuel Hfuel.
  destruct (@batchExport_trace renders schedule reports options schedule_perm
              onProgress_returns onError_returns 1 (eq_sym Hsize) (le_n 1) fuel Hfuel)
    as (finished & st & Hrun & Hres & Hperm & Hev & Hfin).
  assert (Hcount : chunk_count 1 (List.length reports) = List.length reports).
  { unfold chunk_count. rewrite Nat.div_1_r. lia. }
  assert (Hfinished : finished = indexed reports).
  { rewrite Hfin, Hcount. rewrite (@chunk_tasks_one (List.length reports) 0) by lia.
    reflexivity. }
  clear Hfin Hperm. subst finished.
  exists st. split; [exact Hrun |]. split; [exact Hev |]. split; [| split].
  - rewrite <- exports_of_task_events, Hev, exports_of_tasks.
    unfold indexed, mapi.
    transitivity (map (fun r => (r, outcome_of renders options r))
                    (map snd (mapi_from 0 (fun report index => (index, report))
                                reports))).
    + rewrite map_map. reflexivity.
    + rewrite mapi_from_map_snd. reflexivity.
  - destruct (settle_all_result renders options (map snd (indexed reports))
                (mkResult 0 0 [])) as (_ & _ & He).
    rewrite <- Hres in He. unfold indexed, mapi in He.
    rewrite mapi_from_map_snd in He. exact He.
  - intro Hsome. destruct (onProgress options) as [f |] eqn:Hf; [| congruence].
    rewrite <- (@progress_calls_of_task_events (trace st)), Hev.
    apply (@progress_calls_of_tasks renders reports options f). exact Hf.
Qed.

End BatchOrder.

Lemma batchExport_sequential_witness :
  exists st,
    Batch.batchExport (Samples.fails_on "r1") Samples.reversed (Samples.reports 3)
      (Samples.options_with (Some 1)) 3 = Some (Normal st)
    /\ Batch.exports_of (Batch.trace st)
       = [(Samples.numbered 0, true); (Samples.numbered 1, false);
          (Samples.numbered 2, true)]
    /\ Batch.progress_calls_of (Batch.trace st)
       = [(0, 3, "Report 0"); (1, 3, "Report 0"); (1, 3, "Report 1");
          (2, 3, "Report 2"); (3, 3, "Report 2")].
Proof.
  destruct (@batchExport_sequential (Samples.fails_on "r1") Samples.reversed
              (Samples.reports 3) (Samples.options_with (Some 1)) reversed_perm
              (@options_with_progress_returns (Some 1))
              (@options_with_error_returns (Some 1)) eq_refl 3 (le_n 3))
    as (st & Hrun & _ & Hexports & _ & Hcalls).
  exists st. split; [exact Hrun |]. split; [exact Hexports |].
  apply Hcalls. discriminate.
Defined.

Section BatchChunkOrder.

Import Batch BatchTrace.

Variable renders : Format -> option ExportTemplate -> ReportData -> bool.
Variable schedule : list (nat * ReportData) -> list (nat * ReportData).
Variable reports : list ReportData.
Variable options : BatchExportOptions.

Hypothesis schedule_perm : forall tasks, Permutation tasks (schedule tasks).
Hypothesis onProgress_returns : progress_returns options.
Hypothesis onError_returns : error_returns options.

Lemma chunk_tasks_perm (size k : nat) :
  Permutation (slice reports (k * size) (k * size + size))
              (map snd (chunk_tasks schedule size reports k)).
Proof.
  unfold chunk_tasks.
  rewrite <- (mapi_from_snd (k * size) 0 (slice reports (k * size) (k * size + size)))
    at 1.
  apply Permutation_map. apply schedule_perm.
Qed.

Lemma map_snd_flat_map (size : nat) (ks : list nat) :
  map snd (flat_map (chunk_tasks schedule size reports) ks)
  = List.concat (map (fun k => map snd (chunk_tasks schedule size reports k)) ks).
Proof.
  induction ks as [| k ks IH]; [reflexivity |].
  cbn [flat_map map List.concat]. rewrite map_app, IH. reflexivity.
Qed.

(** X29.  The chunks of a run are processed one after the other: when
    the callbacks return, the reports are exported chunk by chunk, in
    the order of the chunks, and only the order inside a chunk is left
    to the event loop; the list of errors is filled chunk by chunk as
    well.  So no report of a chunk is exported before every report of
    the chunks before it has been. *)
Theorem batchExport_chunk_by_chunk (size : nat) :
  size = batchSize_or_default options -> 1 <= size ->
  forall fuel, List.length reports <= fuel ->
    exists st exported settled,
      batchExport renders schedule reports options fuel = Some (Normal st)
      /\ Forall2 (@Permutation ReportData) (chunks_of size reports) exported
      /\ exports_of (trace st)
         = map (fun r => (r, outcome_of renders options r)) (List.concat exported)
      /\ Forall2 (@Permutation ReportData) (chunks_of size reports) settled
      /\ errors (result st)
         = map (entry_of options)
             (filter (fun r => negb (outcome_of renders options r))
                     (List.concat settled)).
Proof.
  intros Hsize Hpos fuel Hfuel.
  destruct (@batchExport_trace renders schedule reports options schedule_perm
              onProgress_returns onError_returns size Hsize Hpos fuel Hfuel)
    as (finished & st & Hrun & Hres & _ & Hev & Hfin).
  assert (Horders :
            Forall2 (@Permutation ReportData) (chunks_of size reports)
              (map (fun k => map snd (chunk_tasks schedule size reports k))
                   (seq 0 (chunk_count size (List.length reports))))).
  { unfold chunks_of. clear Hfin.
    induction (seq 0 (chunk_count size (List.length reports))) as [| k ks IH];
      [constructor |].
    cbn [map]. constructor; [apply chunk_tasks_perm | exact IH]. }
  exists st,
    (map (fun k => map snd (chunk_tasks schedule size reports k))
         (seq 0 (chunk_count size (List.length reports)))),
    (map (fun k => map snd (chunk_tasks schedule size reports k))
         (seq 0 (chunk_count size (List.length reports)))).
  split; [exact Hrun |]. split; [exact Horders |]. split; [| split; [exact Horders |]].
  - rewrite <- map_snd_flat_map, <- Hfin.
    rewrite <- (@exports_of_task_events (trace st)), Hev.
    rewrite (exports_of_tasks renders reports options finished), map_map.
    reflexivity.
  - rewrite <- map_snd_flat_map, <- Hfin.
    destruct (settle_all_result renders options (map snd finished) (mkResult 0 0 []))
      as (_ & _ & He).
    rewrite <- Hres in He. exact He.
Qed.

End BatchChunkOrder.

Lemma batchExport_chunk_by_chunk_witness :
  exists st exported settled,
    Batch.batchExport (Samples.fails_on "r1") Samples.reversed (Samples.reports 3)
      (Samples.options_with (Some 2)) 3 = Some (Normal st)
    /\ Forall2 (@Permutation ReportData) (Batch.chunks_of 2 (Samples.reports 3)) exported
    /\ Batch.exports_of (Batch.trace st)
       = map (fun r => (r, Batch.outcome_of (Samples.fails_on "r1")
                             (Samples.options_with (Some 2)) r))
             (List.concat exported)
    /\ Forall2 (@Permutation ReportData) (Batch.chunks_of 2 (Samples.reports 3)) settled
    /\ Batch.errors (Batch.result st)
       = map (Batch.entry_of (Samples.options_with (Some 2)))
           (filter (fun r => negb (Batch.outcome_of (Samples.fails_on "r1")
                                     (Samples.options_with (Some 2)) r))
                   (List.concat settled)).
Proof.
  apply (@batchExport_chunk_by_chunk (Samples.fails_on "r1") Samples.reversed
           (Samples.reports 3) (Samples.options_with (Some 2)) reversed_perm
           (@options_with_progress_returns (Some 2))
           (@options_with_error_returns (Some 2)) 2 eq_refl (le_S _ _ (le_n 1))
           3 (le_n 3)).
Defined.

Lemma dialog_selection_witness :
  Dialog.reportsToExport (Samples.reports 3) ["r2"; "r0"; "r2"]
  = Dialog.reportsToExport (Samples.reports 3) ["r0"; "r2"].
Proof.
  apply (proj1 (proj2 (dialog_selection (Samples.reports 3)))).
  intro id. cbn [In]. tauto.
Defined.
